(** * BookService: the catalog query/mutation service of Bookmark-Server

    A shallow embedding of [BookService] (server/src/book/book.service.ts):
    the Prisma client, the disk, the clock and the console are an explicit
    [World]; an [async] method is a function from the world to
    a completion (resolved value or thrown exception) and the next world. *)

From Stdlib Require Import String Ascii Strings.Byte List ZArith Lia Bool.
From Stdlib Require Import Sorted Permutation DecimalString.
Import ListNotations.

Local Open Scope string_scope.
Local Open Scope list_scope.
Local Open Scope Z_scope.

(** ** Data model *)

(** Modelled from the spec: schema.prisma is not among the sources.  The
    fields are the ones the service names: [id], [title], [author], [image]
    in [createBook]; [product_name], [final_price], [id_category],
    [deleted_at] in the queries.  [title] and [product_name] are two
    fields: [createBook] writes the first, [findAllBooks] sorts on the
    second.  [id_category] is the scalar behind the [mainCategory] relation
    and [id_sub_category] the one behind [subCategory].  A date is its
    epoch time; a price is an integer amount. *)
Record Book := mkBook {
  id : string;
  title : string;
  product_name : string;
  author : string;
  image : option string;
  id_category : string;
  id_sub_category : option string;
  final_price : Z;
  deleted_at : option Z
}.

Record BookCategory := mkBookCategory {
  category_id : string;
  category_deleted_at : option Z
}.

(** A relation of a query result: left out, or included (null when the
    referenced row is missing). *)
Inductive Relation :=
| NotIncluded
| Included (c : option BookCategory).

(** A Book as [findUnique]/[findMany] hand it back. *)
Record BookPayload := mkBookPayload {
  row : Book;
  mainCategory : Relation;
  subCategory : Relation
}.

(** [where: { id?, deleted_at?: null, id_category? }] *)
Record BookWhereInput := mkWhere {
  where_id : option string;
  where_deleted_at_null : bool;
  where_id_category : option string
}.

(** [include: { mainCategory?: true, subCategory?: true }] *)
Record BookInclude := mkInclude {
  include_mainCategory : bool;
  include_subCategory : bool
}.

(** [orderBy: { <key>: <sortOrder> }], both strings as the service passes
    them on. *)
Record OrderBy := mkOrderBy {
  order_key : string;
  order_direction : string
}.

(** [data] of [book.create]. *)
Record BookCreateInput := mkCreateInput {
  data_title : string;
  data_author : string;
  data_image : option string;
  data_mainCategory : string;
  data_subCategory : option string
}.

Record CreateBookDto := mkCreateBookDto {
  dto_title : string;
  dto_author : string;
  categoryId : string;
  subCategoryId : option string
}.

(** [Express.Multer.File], the two fields the service reads. *)
Record MulterFile := mkMulterFile {
  originalname : string;
  buffer : list byte
}.

Inductive Exception :=
| NotFoundException (message : string)
| InternalServerErrorException (message : string)
| Error (message : string).

Definition error_message (e : Exception) : string :=
  match e with
  | NotFoundException m => m
  | InternalServerErrorException m => m
  | Error m => m
  end.

(** ** The world an operation runs in *)

(** A place on the disk: the names from the root down. *)
Definition Location := list string.

Record World := mkWorld {
  book_table : list Book;               (* the rows, as stored *)
  category_table : list BookCategory;
  id_seed : nat;                        (* next generated Book id *)
  final_price_default : Z;              (* column defaults used by create *)
  product_name_default : string;
  dirname : string;                     (* __dirname of the module *)
  disk_dirs : list Location;            (* directories below the root *)
  disk_files : list (Location * list byte);
  db_faults : list bool;                (* per round trip: true = it fails *)
  db_orders : list (list nat);          (* per listing: the order delivered *)
  mkdir_fault : bool;                   (* true = the disk refuses mkdir *)
  write_fault : bool;                   (* true = the disk refuses writes *)
  clock : Z;
  console : list string
}.

Definition set_book_table (t : list Book) (w : World) : World :=
  mkWorld t (category_table w) (id_seed w) (final_price_default w)
          (product_name_default w) (dirname w) (disk_dirs w) (disk_files w)
          (db_faults w) (db_orders w) (mkdir_fault w) (write_fault w)
          (clock w) (console w).

Definition set_id_seed (n : nat) (w : World) : World :=
  mkWorld (book_table w) (category_table w) n (final_price_default w)
          (product_name_default w) (dirname w) (disk_dirs w) (disk_files w)
          (db_faults w) (db_orders w) (mkdir_fault w) (write_fault w)
          (clock w) (console w).

Definition set_disk_dirs (d : list Location) (w : World) : World :=
  mkWorld (book_table w) (category_table w) (id_seed w) (final_price_default w)
          (product_name_default w) (dirname w) d (disk_files w)
          (db_faults w) (db_orders w) (mkdir_fault w) (write_fault w)
          (clock w) (console w).

Definition set_disk_files (f : list (Location * list byte)) (w : World)
  : World :=
  mkWorld (book_table w) (category_table w) (id_seed w) (final_price_default w)
          (product_name_default w) (dirname w) (disk_dirs w) f
          (db_faults w) (db_orders w) (mkdir_fault w) (write_fault w)
          (clock w) (console w).

Definition set_db_faults (f : list bool) (w : World) : World :=
  mkWorld (book_table w) (category_table w) (id_seed w) (final_price_default w)
          (product_name_default w) (dirname w) (disk_dirs w) (disk_files w)
          f (db_orders w) (mkdir_fault w) (write_fault w)
          (clock w) (console w).

Definition set_db_orders (o : list (list nat)) (w : World) : World :=
  mkWorld (book_table w) (category_table w) (id_seed w) (final_price_default w)
          (product_name_default w) (dirname w) (disk_dirs w) (disk_files w)
          (db_faults w) o (mkdir_fault w) (write_fault w)
          (clock w) (console w).

Definition set_console (c : list string) (w : World) : World :=
  mkWorld (book_table w) (category_table w) (id_seed w) (final_price_default w)
          (product_name_default w) (dirname w) (disk_dirs w) (disk_files w)
          (db_faults w) (db_orders w) (mkdir_fault w) (write_fault w)
          (clock w) c.

(** ** Promises: state and exceptions *)

Inductive Completion (A : Type) :=
| Resolved (a : A)
| Rejected (e : Exception).
Arguments Resolved {A} a.
Arguments Rejected {A} e.

Definition Async (A : Type) : Type := World -> Completion A * World.

Definition ret {A} (a : A) : Async A := fun w => (Resolved a, w).

Definition throw {A} (e : Exception) : Async A := fun w => (Rejected e, w).

Definition bind {A B} (m : Async A) (k : A -> Async B) : Async B :=
  fun w =>
    match m w with
    | (Resolved a, w') => k a w'
    | (Rejected e, w') => (Rejected e, w')
    end.

(** [try { m } catch (error) { h error }] *)
Definition try_catch {A} (m : Async A) (h : Exception -> Async A) : Async A :=
  fun w =>
    match m w with
    | (Resolved a, w') => (Resolved a, w')
    | (Rejected e, w') => h e w'
    end.

(** [try { m } catch (error) { h error } finally { return fin locals }]:
    [m] computes the locals the block assigns ([None] while they are still
    undefined); the [return] of the [finally] block replaces whatever
    completion the [try]/[catch] part reached, a pending throw included. *)
Definition try_catch_finally_return {L A}
    (m : Async L) (h : Exception -> Async L) (fin : option L -> A) : Async A :=
  fun w =>
    match try_catch m h w with
    | (Resolved l, w') => (Resolved (fin (Some l)), w')
    | (Rejected _, w') => (Resolved (fin None), w')
    end.

Declare Scope async_scope.
Delimit Scope async_scope with async.
Notation "x <- m ;; k" := (bind m (fun x => k))
  (at level 61, m at next level, right associativity) : async_scope.
Notation "m ;;; k" := (bind m (fun _ => k))
  (at level 61, right associativity) : async_scope.
Local Open Scope async_scope.

Definition console_error (line : string) : Async unit :=
  fun w => (Resolved tt, set_console (console w ++ [line]) w).

(** [new Date()] *)
Definition new_Date : Async Z := fun w => (Resolved (clock w), w).

(** ** The Prisma client

    The client is a library outside the repository; this is its documented
    behaviour on the calls the service makes.  Every call is one round trip
    that the store may fail ([db_faults]); a query the client cannot
    validate (a [skip] or [take] that does not fit a 64-bit signed
    integer, a negative [skip], an unknown sort key or direction) is
    rejected as well.  Rows come back in the order the store delivers them
    ([db_orders]), which is any order of its choosing, call by call; an
    [orderBy] sorts what the store delivers. *)

Definition round_trip : Async unit :=
  fun w =>
    let w' := set_db_faults (tl (db_faults w)) w in
    if hd false (db_faults w)
    then (Rejected (Error "Can't reach database server"), w')
    else (Resolved tt, w').

Definition is_null {A} (o : option A) : bool :=
  match o with
  | None => true
  | Some _ => false
  end.

Definition matches (q : BookWhereInput) (b : Book) : bool :=
  match where_id q with
  | Some i => String.eqb (id b) i
  | None => true
  end
  && (if where_deleted_at_null q then is_null (deleted_at b) else true)
  && match where_id_category q with
     | Some c => String.eqb (id_category b) c
     | None => true
     end.

Definition find_category (i : string) (cs : list BookCategory)
  : option BookCategory :=
  find (fun c => String.eqb (category_id c) i) cs.

Definition with_relations (inc : BookInclude) (cs : list BookCategory)
    (b : Book) : BookPayload :=
  mkBookPayload b
    (if include_mainCategory inc
     then Included (find_category (id_category b) cs)
     else NotIncluded)
    (if include_subCategory inc
     then Included
            match id_sub_category b with
            | Some s => find_category s cs
            | None => None
            end
     else NotIncluded).

(** The fields [findAllBooks] sorts on. *)
Inductive Column := ColProductName | ColFinalPrice | ColMainCategory.

(** A key of [orderBy] names the field of that name; of the fields of
    Book, these are the three keys the service passes. *)
Definition column_of_key (key : string) : option Column :=
  if String.eqb key "product_name" then Some ColProductName
  else if String.eqb key "final_price" then Some ColFinalPrice
  else if String.eqb key "id_category" then Some ColMainCategory
  else None.

Definition column_leb (c : Column) (a b : Book) : bool :=
  match c with
  | ColProductName => String.leb (product_name a) (product_name b)
  | ColFinalPrice => Z.leb (final_price a) (final_price b)
  | ColMainCategory => String.leb (id_category a) (id_category b)
  end.

(** The comparison an [orderBy] asks for, when the client accepts it. *)
Definition order_leb (o : OrderBy) : option (Book -> Book -> bool) :=
  match column_of_key (order_key o) with
  | None => None
  | Some c =>
      if String.eqb (order_direction o) "asc"
      then Some (column_leb c)
      else if String.eqb (order_direction o) "desc"
      then Some (fun a b => column_leb c b a)
      else None
  end.

Fixpoint insert_row (le : Book -> Book -> bool) (x : Book) (l : list Book)
  : list Book :=
  match l with
  | [] => [x]
  | y :: l' => if le x y then x :: l else y :: insert_row le x l'
  end.

(** A stable sort: rows that compare equal stay as the store delivered
    them. *)
Fixpoint sort_rows (le : Book -> Book -> bool) (l : list Book) : list Book :=
  match l with
  | [] => []
  | x :: l' => insert_row le x (sort_rows le l')
  end.

(** [skip]/[take]; a negative [take] counts from the end of the list. *)
Definition paginate {A} (skip take : Z) (rows : list A) : list A :=
  if 0 <=? take
  then firstn (Z.to_nat take) (skipn (Z.to_nat skip) rows)
  else rev (firstn (Z.to_nat (- take)) (skipn (Z.to_nat skip) (rev rows))).

(** What fits the 64-bit signed integer the client sends. *)
Definition Int64_min : Z := -9223372036854775808.
Definition Int64_max : Z := 9223372036854775807.

Definition fits_Int64 (z : Z) : bool := (Int64_min <=? z) && (z <=? Int64_max).

(** Takes the element at position [n] out of a list. *)
Fixpoint pick {A} (n : nat) (l : list A) : option (A * list A) :=
  match l with
  | [] => None
  | x :: l' =>
      match n with
      | O => Some (x, l')
      | S n' =>
          match pick n' l' with
          | Some (y, rest) => Some (y, x :: rest)
          | None => None
          end
      end
  end.

(** The order a script of picks puts a list in: first the element at the
    first pick, then of the rest the element at the second pick, and so
    on; what the script does not reach stays as it is. *)
Fixpoint arrange {A} (picks : list nat) (l : list A) : list A :=
  match picks with
  | [] => l
  | p :: picks' =>
      match pick p l with
      | Some (x, rest) => x :: arrange picks' rest
      | None => l
      end
  end.

(** The store hands over the selected rows in the order of its choice. *)
Definition store_delivers (rows : list Book) : Async (list Book) :=
  fun w =>
    (Resolved (arrange (hd [] (db_orders w)) rows),
     set_db_orders (tl (db_orders w)) w).

Definition prisma_book_findUnique (q : BookWhereInput) (inc : BookInclude)
  : Async (option BookPayload) :=
  round_trip ;;;
  fun w =>
    (Resolved (option_map (with_relations inc (category_table w))
                          (find (matches q) (book_table w))), w).

Definition prisma_book_findMany (q : BookWhereInput) (inc : BookInclude)
    (skip take : Z) (orderBy : option OrderBy) : Async (list BookPayload) :=
  round_trip ;;;
  if negb (fits_Int64 skip) || negb (fits_Int64 take)
  then throw (Error "Unable to fit integer value into a 64-bit signed integer")
  else if skip <? 0 then throw (Error "Invalid value for skip argument")
  else
    match orderBy with
    | None =>
        rows <- (fun w => store_delivers
                            (filter (matches q) (book_table w)) w) ;;
        fun w =>
          (Resolved (map (with_relations inc (category_table w))
                         (paginate skip take rows)), w)
    | Some o =>
        match order_leb o with
        | None => throw (Error "Invalid value for orderBy argument")
        | Some le =>
            rows <- (fun w => store_delivers
                                (filter (matches q) (book_table w)) w) ;;
            fun w =>
              (Resolved (map (with_relations inc (category_table w))
                             (paginate skip take (sort_rows le rows))), w)
        end
    end.

Definition prisma_book_count (q : BookWhereInput) : Async Z :=
  round_trip ;;;
  fun w =>
    (Resolved (Z.of_nat (length (filter (matches q) (book_table w)))), w).

Definition prisma_bookCategory_findUnique (i : string)
  : Async (option BookCategory) :=
  round_trip ;;;
  fun w => (Resolved (find_category i (category_table w)), w).

Definition has_id (i : string) (b : Book) : bool := String.eqb (id b) i.

(** The generated primary key of the next inserted row. *)
Definition generated_id (n : nat) : string :=
  NilZero.string_of_uint (Nat.to_uint n).

(** [book.create]: the row gets a generated id and, for the fields the
    data leave out, the defaults of their columns; a key that is already
    taken or a category to connect that does not exist violates a
    constraint. *)
Definition prisma_book_create (d : BookCreateInput) : Async Book :=
  round_trip ;;;
  fun w =>
    let i := generated_id (id_seed w) in
    if existsb (has_id i) (book_table w)
    then (Rejected (Error "Unique constraint failed on the fields: (`id`)"),
          set_id_seed (S (id_seed w)) w)
    else
      match find_category (data_mainCategory d) (category_table w),
            match data_subCategory d with
            | Some s => is_null (find_category s (category_table w))
            | None => false
            end
      with
      | Some _, false =>
          let b := mkBook i (data_title d) (product_name_default w)
                     (data_author d) (data_image d)
                     (data_mainCategory d) (data_subCategory d)
                     (final_price_default w) None in
          (Resolved b,
           set_id_seed (S (id_seed w))
             (set_book_table (book_table w ++ [b]) w))
      | _, _ =>
          (Rejected (Error "No record was found for a connect"), w)
      end.

(** Replaces the first row with the given id, if there is one. *)
Fixpoint update_row (i : string) (f : Book -> Book) (rows : list Book)
  : option (Book * list Book) :=
  match rows with
  | [] => None
  | b :: rest =>
      if has_id i b then Some (f b, f b :: rest)
      else match update_row i f rest with
           | Some (b', rest') => Some (b', b :: rest')
           | None => None
           end
  end.

(** Removes the first row with the given id, if there is one. *)
Fixpoint delete_row (i : string) (rows : list Book)
  : option (Book * list Book) :=
  match rows with
  | [] => None
  | b :: rest =>
      if has_id i b then Some (b, rest)
      else match delete_row i rest with
           | Some (b', rest') => Some (b', b :: rest')
           | None => None
           end
  end.

Definition set_deleted_at (t : Z) (b : Book) : Book :=
  mkBook (id b) (title b) (product_name b) (author b) (image b)
         (id_category b) (id_sub_category b) (final_price b) (Some t).

(** [book.update({ where: { id }, data: { deleted_at } })] *)
Definition prisma_book_update_deleted_at (i : string) (t : Z) : Async Book :=
  round_trip ;;;
  fun w =>
    match update_row i (set_deleted_at t) (book_table w) with
    | Some (b, rows) => (Resolved b, set_book_table rows w)
    | None => (Rejected (Error "Record to update not found."), w)
    end.

(** [book.delete({ where: { id } })] *)
Definition prisma_book_delete (i : string) : Async Book :=
  round_trip ;;;
  fun w =>
    match delete_row i (book_table w) with
    | Some (b, rows) => (Resolved b, set_book_table rows w)
    | None => (Rejected (Error "Record to delete does not exist."), w)
    end.

(** ** Paths ([path], POSIX) *)

(** The pieces of a path between its slashes. *)
Fixpoint segments (s : string) : list string :=
  match s with
  | EmptyString => [""]
  | String c s' =>
      if Ascii.eqb c "/" then "" :: segments s'
      else match segments s' with
           | seg :: rest => String c seg :: rest
           | [] => [String c ""]
           end
  end.

(** [normalizeString]: empty pieces and [.] are dropped, [..] removes the
    piece before it; at the root it is dropped, and in a relative path it
    is kept when there is nothing left to remove.  [res] holds the pieces
    kept so far, the last one first. *)
Fixpoint normalizeString (allowAboveRoot : bool) (res segs : list string)
  : list string :=
  match segs with
  | [] => rev res
  | seg :: segs' =>
      if String.eqb seg "" || String.eqb seg "."
      then normalizeString allowAboveRoot res segs'
      else if String.eqb seg ".."
      then match res with
           | top :: below =>
               if String.eqb top ".."
               then normalizeString allowAboveRoot
                      (if allowAboveRoot then ".." :: res else res) segs'
               else normalizeString allowAboveRoot below segs'
           | [] =>
               normalizeString allowAboveRoot
                 (if allowAboveRoot then [".."] else []) segs'
           end
      else normalizeString allowAboveRoot (seg :: res) segs'
  end.

Definition isAbsolute (path : string) : bool :=
  match path with
  | String c _ => Ascii.eqb c "/"
  | EmptyString => false
  end.

Fixpoint trailingSeparator (path : string) : bool :=
  match path with
  | EmptyString => false
  | String c EmptyString => Ascii.eqb c "/"
  | String _ rest => trailingSeparator rest
  end.

(** [path.normalize] *)
Definition normalize (path : string) : string :=
  if String.eqb path "" then "."
  else
    let body :=
      String.concat "/"
        (normalizeString (negb (isAbsolute path)) [] (segments path)) in
    if String.eqb body ""
    then if isAbsolute path then "/"
         else if trailingSeparator path then "./" else "."
    else (if isAbsolute path then "/" else "")
           ++ body ++ (if trailingSeparator path then "/" else "").

(** [path.join]: the non-empty arguments, joined by slashes, normalized. *)
Definition path_join (args : list string) : string :=
  match filter (fun a => negb (String.eqb a "")) args with
  | [] => "."
  | parts => normalize (String.concat "/" parts)
  end.

(** [s.includes(pattern)] *)
Fixpoint includes (s pattern : string) : bool :=
  String.prefix pattern s
  || match s with
     | EmptyString => false
     | String _ s' => includes s' pattern
     end.

Fixpoint drop_chars (n : nat) (s : string) : string :=
  match n, s with
  | S n', String _ s' => drop_chars n' s'
  | _, _ => s
  end.

(** [s.replace(pattern, replacement)] for a string pattern: the first
    occurrence only. *)
Fixpoint replace (s pattern replacement : string) : string :=
  if String.prefix pattern s
  then replacement ++ drop_chars (String.length pattern) s
  else match s with
       | EmptyString => EmptyString
       | String c s' => String c (replace s' pattern replacement)
       end.

(** ** The disk ([fs])

    A path names the place the system resolves it to: from the root, every
    piece in turn, [..] going back up.  The service only hands [fs]
    absolute paths, [__dirname] being one. *)

Definition locate (path : string) : Location :=
  normalizeString false [] (segments path).

Fixpoint location_eqb (a b : Location) : bool :=
  match a, b with
  | [], [] => true
  | x :: a', y :: b' => String.eqb x y && location_eqb a' b'
  | _, _ => false
  end.

Definition is_directory (w : World) (l : Location) : bool :=
  match l with
  | [] => true
  | _ => existsb (location_eqb l) (disk_dirs w)
  end.

Definition is_file (w : World) (l : Location) : bool :=
  existsb (fun f => location_eqb l (fst f)) (disk_files w).

Definition read_file (l : Location) (files : list (Location * list byte))
  : option (list byte) :=
  option_map snd (find (fun f => location_eqb l (fst f)) files).

(** The places on the way down to a place, itself the last. *)
Fixpoint ancestry (l : Location) : list Location :=
  match l with
  | [] => []
  | x :: l' => [x] :: map (cons x) (ancestry l')
  end.

Definition fs_existsSync (path : string) : Async bool :=
  fun w =>
    (Resolved (is_directory w (locate path) || is_file w (locate path)), w).

(** [fs.mkdirSync(path, { recursive: true })]: makes the directory and
    those above it that are missing; a file in the way is an error. *)
Definition fs_mkdirSync (path : string) : Async unit :=
  fun w =>
    if mkdir_fault w
    then (Rejected (Error "EACCES: permission denied, mkdir"), w)
    else if is_file w (locate path)
    then (Rejected (Error "EEXIST: file already exists, mkdir"), w)
    else if existsb (is_file w) (ancestry (locate path))
    then (Rejected (Error "ENOTDIR: not a directory, mkdir"), w)
    else (Resolved tt,
          set_disk_dirs
            (disk_dirs w
               ++ filter (fun l => negb (is_directory w l))
                         (ancestry (locate path))) w).

(** [fs.writeFileSync(path, data)]: creates the file or replaces its
    content; the path must not be a directory and must lie in one. *)
Definition fs_writeFileSync (path : string) (data : list byte) : Async unit :=
  fun w =>
    if write_fault w
    then (Rejected (Error "EACCES: permission denied, open"), w)
    else if trailingSeparator path || is_directory w (locate path)
    then (Rejected (Error "EISDIR: illegal operation on a directory, open"), w)
    else if existsb (is_file w) (ancestry (removelast (locate path)))
    then (Rejected (Error "ENOTDIR: not a directory, open"), w)
    else if negb (is_directory w (removelast (locate path)))
    then (Rejected (Error "ENOENT: no such file or directory, open"), w)
    else (Resolved tt,
          set_disk_files
            ((locate path, data)
               :: filter (fun f => negb (location_eqb (locate path) (fst f)))
                         (disk_files w)) w).

(** ** BookService *)

(** JavaScript truthiness of a string that may be undefined. *)
Definition truthy (s : option string) : bool :=
  match s with
  | Some v => negb (String.eqb v "")
  | None => false
  end.

Definition findBook (id : string) : Async BookPayload :=
  book <- try_catch
            (prisma_book_findUnique (mkWhere (Some id) true None)
                                    (mkInclude true true))
            (fun error =>
               console_error "Error fetching book:" ;;;
               throw (InternalServerErrorException
                        "An error occurred while fetching book.")) ;;
  match book with
  | None => throw (NotFoundException "Book not found!")
  | Some b => ret b
  end.

Definition countBooks : Async Z :=
  try_catch
    (prisma_book_count (mkWhere None true None))
    (fun error =>
       console_error "Error counting books:" ;;;
       throw (InternalServerErrorException
                "An error occurred while counting books.")).

(** [const whereClause = { deleted_at: null }], narrowed to
    [id_category = categoryId] unless [categoryId] is ['none']. *)
Definition whereClause (categoryId : string) : BookWhereInput :=
  if negb (String.eqb categoryId "none")
  then mkWhere None true (Some categoryId)
  else mkWhere None true None.

(** The [switch (filter)] of [findAllBooks]; [None] is [undefined]. *)
Definition orderBy_of (filter sortOrder : string) : option OrderBy :=
  if String.eqb filter "none" then None
  else if String.eqb filter "name" then Some (mkOrderBy "product_name" sortOrder)
  else if String.eqb filter "price" then Some (mkOrderBy "final_price" sortOrder)
  else if String.eqb filter "category"
  then Some (mkOrderBy "id_category" sortOrder)
  else None.

(** [Math.ceil(totalBooks / perPage)] on integers, for [perPage <> 0]. *)
Definition Math_ceil_div (totalBooks perPage : Z) : Z :=
  - ((- totalBooks) / perPage).

(** [{ totalBooks, totalPages, ...books }]: the two totals ([None] is
    undefined) and the rows under their indices. *)
Record BookPage := mkBookPage {
  totalBooks : option Z;
  totalPages : option Z;
  books : list BookPayload
}.

(** [page] and [perPage] are integers; the row count and the quotient stay
    far below [2^53], where the arithmetic of JavaScript numbers is that
    of the integers. *)
Definition findAllBooks (page perPage : Z) (filter sortOrder categoryId : string)
  : Async BookPage :=
  let offset := (page - 1) * perPage in
  books <- try_catch
             (prisma_book_findMany (whereClause categoryId)
                                   (mkInclude true false)
                                   offset perPage
                                   (orderBy_of filter sortOrder))
             (fun error =>
                console_error "Error fetching products:" ;;;
                throw (InternalServerErrorException
                         "An error occurred while fetching books.")) ;;
  if (length books =? 0)%nat
  then throw (NotFoundException "No product was found!")
  else
    try_catch_finally_return
      (totalBooks <- countBooks ;;
       ret (totalBooks, Math_ceil_div totalBooks perPage))
      (fun error =>
         throw (InternalServerErrorException
                  ("Error while counting products! Error:"
                     ++ error_message error)))
      (fun locals =>
         mkBookPage (option_map fst locals) (option_map snd locals) books).

(** [path.join(__dirname, '..', '..', 'Books', 'Image')], with the first
    ['dist'] taken out of it if there is one. *)
Definition upload_path (dirname : string) : string :=
  let uploadPath := path_join [dirname; ".."; ".."; "Books"; "Image"] in
  if includes uploadPath "dist" then replace uploadPath "dist" ""
  else uploadPath.

(** The [if (bookImage)] block of [createBook]: the directory is made if
    it is missing, the file goes to
    [path.join(uploadPath, bookImage.originalname)], and the original name
    is the image reference.  No [try] surrounds this block. *)
Definition save_image (bookImage : option MulterFile) : Async (option string) :=
  match bookImage with
  | Some file =>
      fun w =>
        (let uploadPath := upload_path (dirname w) in
         present <- fs_existsSync uploadPath ;;
         (if negb present then fs_mkdirSync uploadPath else ret tt) ;;;
         let filePath := path_join [uploadPath; originalname file] in
         fs_writeFileSync filePath (buffer file) ;;;
         ret (Some (originalname file))) w
  | None => ret None
  end.

(** The [try]/[catch] of [createBook]: both category checks, the insert,
    and the handler that lets a NotFoundException through. *)
Definition verify_and_insert (bookData : CreateBookDto)
    (imageUrl : option string) : Async Book :=
  try_catch
    (mainCategory <- prisma_bookCategory_findUnique (categoryId bookData) ;;
     match mainCategory with
     | None =>
         throw (NotFoundException
                  ("Main category with ID " ++ categoryId bookData
                     ++ " not found"))
     | Some _ =>
         match subCategoryId bookData with
         | Some sub =>
             if truthy (Some sub)
             then
               subCategory <- prisma_bookCategory_findUnique sub ;;
               match subCategory with
               | None =>
                   throw (NotFoundException
                            ("Sub category with ID " ++ sub ++ " not found"))
               | Some _ => ret tt
               end
             else ret tt
         | None => ret tt
         end ;;;
         prisma_book_create
           (mkCreateInput (dto_title bookData) (dto_author bookData)
              (if truthy imageUrl then imageUrl else None)
              (categoryId bookData)
              (if truthy (subCategoryId bookData)
               then subCategoryId bookData else None))
     end)
    (fun error =>
       match error with
       | NotFoundException _ => throw error
       | _ =>
           console_error ("Error creating a new book: " ++ error_message error) ;;;
           throw (InternalServerErrorException "Failed to create a new book!")
       end).

Definition createBook (bookData : CreateBookDto) (bookImage : option MulterFile)
  : Async Book :=
  imageUrl <- save_image bookImage ;;
  verify_and_insert bookData imageUrl.

Definition softDeleteBook (id : string) : Async Book :=
  try_catch
    (now <- new_Date ;;
     prisma_book_update_deleted_at id now)
    (fun error =>
       console_error ("Error soft-deleting a book: " ++ error_message error) ;;;
       throw (InternalServerErrorException "Failed to soft-delete a book!")).

Definition deleteBook (id : string) : Async Book :=
  try_catch
    (prisma_book_delete id)
    (fun error =>
       console_error ("Error hard-deleting a book: " ++ error_message error) ;;;
       throw (InternalServerErrorException "Failed to hard-delete a book!")).

(** [console.log] *)
Definition console_log (line : string) : Async unit :=
  fun w => (Resolved tt, set_console (console w ++ [line]) w).

(** [book.update({ where: { id }, data })]: [data] is what the given
    fields do to the row. *)
Definition prisma_book_update (i : string) (data : Book -> Book) : Async Book :=
  round_trip ;;;
  fun w =>
    match update_row i data (book_table w) with
    | Some (b, rows) => (Resolved b, set_book_table rows w)
    | None => (Rejected (Error "Record to update not found."), w)
    end.

(** [UpdateBookDto] is not among the sources: the type of the patch and
    the change [patched] its fields make to a row are parameters.  The
    patch goes to the client as it comes. *)
Definition updateBook {UpdateBookDto : Type}
    (patched : UpdateBookDto -> Book -> Book)
    (id : string) (bookData : UpdateBookDto) : Async Book :=
  console_log id ;;;
  try_catch
    (prisma_book_update id (patched bookData))
    (fun error =>
       console_error ("Error while updating a book: " ++ error_message error) ;;;
       throw (InternalServerErrorException "Failed to update a book!")).

(** ** Vocabulary of the statements *)

(** [m] relates every world to the world it leaves behind by [R]. *)
Definition keeps {A} (R : World -> World -> Prop) (m : Async A) : Prop :=
  forall w, R w (snd (m w)).

(** The directory the uploads go to. *)
Definition uploadPath (w : World) : string := upload_path (dirname w).

(** What [fs.existsSync(uploadPath)] answers. *)
Definition upload_dir_exists (w : World) : bool :=
  is_directory w (locate (uploadPath w)) || is_file w (locate (uploadPath w)).

(** The files of the disk, seen from the upload directory. *)
Definition blob_files (w : World) : string * list (Location * list byte) :=
  (uploadPath w, disk_files w).

(** The content of the file at [path.join(uploadPath, name)]. *)
Definition blob_read (name : string)
    (files : string * list (Location * list byte)) : option (list byte) :=
  read_file (locate (path_join [fst files; name])) (snd files).

(** Same tables, same disk, same generator: only the scripts of the store
    and the console may differ. *)
Definition same_store (w w' : World) : Prop :=
  book_table w' = book_table w
  /\ category_table w' = category_table w
  /\ id_seed w' = id_seed w
  /\ upload_dir_exists w' = upload_dir_exists w
  /\ blob_files w' = blob_files w
  /\ disk_dirs w' = disk_dirs w.

(** Same categories, same disk. *)
Definition same_categories_and_files (w w' : World) : Prop :=
  category_table w' = category_table w
  /\ upload_dir_exists w' = upload_dir_exists w
  /\ blob_files w' = blob_files w
  /\ disk_dirs w' = disk_dirs w.



(** Everything but the disk is the same. *)
Definition same_but_disk (w w' : World) : Prop :=
  book_table w' = book_table w
  /\ category_table w' = category_table w
  /\ id_seed w' = id_seed w
  /\ db_faults w' = db_faults w
  /\ db_orders w' = db_orders w
  /\ final_price_default w' = final_price_default w
  /\ product_name_default w' = product_name_default w
  /\ dirname w' = dirname w
  /\ mkdir_fault w' = mkdir_fault w
  /\ write_fault w' = write_fault w
  /\ clock w' = clock w
  /\ console w' = console w.

(** Whether the [n]-th round trip from now on fails. *)
Definition fault_at (n : nat) (w : World) : bool := nth n (db_faults w) false.

(** A row that is not soft-deleted. *)
Definition active (b : Book) : bool := is_null (deleted_at b).

(** [id] is the primary key of the Book table. *)
Definition unique_ids (w : World) : Prop := NoDup (map id (book_table w)).

(** The primary key stays a key. *)
Definition key_kept (w w' : World) : Prop := unique_ids w -> unique_ids w'.

(** The world once a round trip has been answered. *)
Definition answered (w : World) : World := set_db_faults (tl (db_faults w)) w.

(** The order in which the store delivers rows to the next listing. *)
Definition store_order (w : World) (rows : list Book) : list Book :=
  arrange (hd [] (db_orders w)) rows.

(** All the rows the listing query of [findAllBooks] selects, in the order
    of the listing: as the store delivers them, sorted if a sort is asked
    for; nothing when the client refuses the sort. *)
Definition listing (w : World) (filter sortOrder categoryId : string)
  : option (list Book) :=
  let selected :=
    store_order w
      (List.filter (matches (whereClause categoryId)) (book_table w)) in
  match orderBy_of filter sortOrder with
  | None => Some selected
  | Some o =>
      match order_leb o with
      | None => None
      | Some le => Some (sort_rows le selected)
      end
  end.

(** The client takes [skip = (page - 1) * perPage] and [take = perPage]:
    both fit 64 bits and the first is not negative. *)
Definition window_accepted (page perPage : Z) : Prop :=
  0 <= (page - 1) * perPage <= Int64_max
  /\ Int64_min <= perPage <= Int64_max.

Definition window_acceptedb (page perPage : Z) : bool :=
  fits_Int64 ((page - 1) * perPage) && fits_Int64 perPage
  && negb ((page - 1) * perPage <? 0).

(** The rows of the page the listing query of [findAllBooks] returns, when
    the client accepts the query. *)
Definition listed_rows (w : World) (page perPage : Z)
    (filter sortOrder categoryId : string) : option (list Book) :=
  if window_acceptedb page perPage
  then option_map (paginate ((page - 1) * perPage) perPage)
                  (listing w filter sortOrder categoryId)
  else None.

(** The world the upload block of [createBook] leaves behind. *)
Definition uploaded (file : MulterFile) (w : World) : World :=
  snd (save_image (Some file) w).

(** The upload block of [createBook] goes through: nothing to write, or
    the directory is there or can be made and the file can be written. *)
Definition image_saved (bookImage : option MulterFile) (w : World) : Prop :=
  exists imageUrl, fst (save_image bookImage w) = Resolved imageUrl.

(** The sort specification: [name] sorts on [product_name], [price] on
    [final_price], [category] on [id_category], anything else applies no
    explicit sort. *)
Definition sort_specification (filterKey : string) : option Column :=
  if String.eqb filterKey "name" then Some ColProductName
  else if String.eqb filterKey "price" then Some ColFinalPrice
  else if String.eqb filterKey "category" then Some ColMainCategory
  else None.

(** The key under which [findAllBooks] names a column to the client. *)
Definition column_key (c : Column) : string :=
  match c with
  | ColProductName => "product_name"
  | ColFinalPrice => "final_price"
  | ColMainCategory => "id_category"
  end.

(** The client accepts the sort: there is none, or its direction is one of
    the two the client knows. *)
Definition sort_accepted (filterKey sortOrder : string) : Prop :=
  sort_specification filterKey = None
  \/ sortOrder = "asc" \/ sortOrder = "desc".

(** The order a direction string stands for. *)
Definition direction_leb (c : Column) (sortOrder : string)
  : option (Book -> Book -> bool) :=
  if String.eqb sortOrder "asc" then Some (column_leb c)
  else if String.eqb sortOrder "desc" then Some (fun a b => column_leb c b a)
  else None.

(** The round trips the category checks of [createBook] take: one for the
    main category, one more for a sub category id that is supplied. *)
Definition category_lookups (bookData : CreateBookDto) : nat :=
  if truthy (subCategoryId bookData) then 2 else 1.

(** Both category checks of [createBook] pass: the store answers them and
    finds the main category and the sub category that is supplied. *)
Definition categories_verified (bookData : CreateBookDto) (w : World) : Prop :=
  (forall n, (n < category_lookups bookData)%nat -> fault_at n w = false)
  /\ find_category (categoryId bookData) (category_table w) <> None
  /\ (forall sub, subCategoryId bookData = Some sub -> sub <> "" ->
                  find_category sub (category_table w) <> None).

(** The data [createBook] hands to [book.create]. *)
Definition create_input (bookData : CreateBookDto) (imageUrl : option string)
  : BookCreateInput :=
  mkCreateInput (dto_title bookData) (dto_author bookData)
    (if truthy imageUrl then imageUrl else None)
    (categoryId bookData)
    (if truthy (subCategoryId bookData) then subCategoryId bookData else None).

(** Every failure of [createBook] is one of the two NotFound errors or the
    Internal error with the fixed message. *)
Definition create_failures_classified : Prop :=
  forall (bookData : CreateBookDto) (bookImage : option MulterFile)
         (w : World) (e : Exception),
    fst (createBook bookData bookImage w) = Rejected e ->
    (exists m, e = NotFoundException m)
    \/ e = InternalServerErrorException "Failed to create a new book!".

(** Whenever a supplied sub category id is the id of no category,
    [createBook] fails with a NotFoundException (the store answering, any
    image written, the main category found). *)
Definition supplied_sub_category_checked : Prop :=
  forall (bookData : CreateBookDto) (bookImage : option MulterFile)
         (w : World) (sub : string),
    (forall n, fault_at n w = false) ->
    image_saved bookImage w ->
    find_category (categoryId bookData) (category_table w) <> None ->
    subCategoryId bookData = Some sub ->
    find_category sub (category_table w) = None ->
    exists m, fst (createBook bookData bookImage w)
              = Rejected (NotFoundException m).

(** No two rows of the table agree on the column. *)
Definition column_distinct (c : Column) (w : World) : Prop :=
  forall a b, In a (book_table w) -> In b (book_table w) ->
    column_leb c a b = true -> column_leb c b a = true -> a = b.

(** With the filter key [name], a page is ordered by [title]. *)
Definition name_sorts_by_title : Prop :=
  forall (w : World) (page perPage : Z) (categoryId : string) (r : BookPage),
    1 <= perPage ->
    fst (findAllBooks page perPage "name" "asc" categoryId w) = Resolved r ->
    Sorted (fun a b => String.leb (title a) (title b) = true)
           (map row (books r)).

(** ** A small catalog to run the operations on *)

Definition fiction : BookCategory := mkBookCategory "c1" None.
Definition poetry : BookCategory := mkBookCategory "c2" None.

Definition dune : Book :=
  mkBook "b1" "Dune" "Dune" "Herbert" None "c1" None 30 None.
Definition odes : Book :=
  mkBook "b2" "Odes" "Odes" "Keats" None "c2" (Some "c1") 12 None.
Definition emma : Book :=
  mkBook "b3" "Emma" "Emma" "Austen" None "c1" None 20 (Some 100).

(** Where the compiled module lives, and the directories on the way to the
    upload directory [/srv/bookmark/Books/Image]. *)
Definition module_dir : string := "/srv/bookmark/dist/src/book".

Definition app_dirs : list Location := [["srv"]; ["srv"; "bookmark"]].

Definition upload_dirs : list Location :=
  app_dirs ++ [["srv"; "bookmark"; "Books"];
               ["srv"; "bookmark"; "Books"; "Image"]].

(** Two active books and a soft-deleted one; [faults] scripts the store. *)
Definition shelf (faults : list bool) : World :=
  mkWorld [dune; odes; emma] [fiction; poetry] 0 0 "" module_dir upload_dirs []
          faults [] false false 1000 [].

(** The same catalog when the store delivers the rows of the next listing
    in another order: the second of them first. *)
Definition reshuffled_shelf : World :=
  mkWorld [dune; odes; emma] [fiction; poetry] 0 0 "" module_dir upload_dirs []
          [] [[1%nat]] false false 1000 [].


(** A catalog whose one book has the id the generator gives next. *)
Definition zero : Book :=
  mkBook "0" "Zero" "Zero" "Nemo" None "c1" None 5 None.

Definition shelf_with_zero : World :=
  mkWorld [zero] [fiction; poetry] 0 0 "" module_dir upload_dirs []
          [] [] false false 1000 [].

(** The same catalog on a disk that refuses writes. *)
Definition read_only_shelf : World :=
  mkWorld [dune; odes; emma] [fiction; poetry] 0 0 "" module_dir upload_dirs []
          [] [] true true 1000 [].

Definition cover : MulterFile := mkMulterFile "cover.png" [x89; x50; x4e; x47]%byte.

(** An upload whose original name is empty. *)
Definition nameless : MulterFile := mkMulterFile "" [x00]%byte.

(** A patch that carries a new title. *)
Definition retitle (newTitle : string) (b : Book) : Book :=
  mkBook (id b) newTitle (product_name b) (author b) (image b) (id_category b)
         (id_sub_category b) (final_price b) (deleted_at b).

(** A category that has been soft-deleted. *)
Definition drama : BookCategory := mkBookCategory "c3" (Some 500).

(** The catalog with the soft-deleted category added, before any upload:
    the upload directory is not there yet. *)
Definition shelf_with_drama : World :=
  mkWorld [dune; odes; emma] [fiction; poetry; drama] 0 0 "" module_dir
          app_dirs [] [] [] false false 1000 [].

(** The row [createBook] inserts: generated id, the fields of the DTO, the
    image reference if it is a non-empty name, the sub category if it is a
    non-empty id, the defaults of the other columns, not deleted. *)
Definition inserted_row (w : World) (bookData : CreateBookDto)
    (bookImage : option MulterFile) : Book :=
  mkBook (generated_id (id_seed w)) (dto_title bookData)
         (product_name_default w) (dto_author bookData)
         match bookImage with
         | Some file =>
             if truthy (Some (originalname file))
             then Some (originalname file) else None
         | None => None
         end
         (categoryId bookData)
         (if truthy (subCategoryId bookData) then subCategoryId bookData
          else None)
         (final_price_default w) None.

Definition new_book (main : string) (sub : option string) : CreateBookDto :=
  mkCreateBookDto "Ulysses" "Joyce" main sub.

(** ** Round trips *)

Lemma fault_at_0 (w : World) : fault_at 0 w = hd false (db_faults w).
Proof. unfold fault_at. now destruct (db_faults w). Qed.

Lemma fault_at_answered (n : nat) (w : World) :
  fault_at n (answered w) = fault_at (S n) w.
Proof.
  unfold fault_at, answered; simpl.
  destruct (db_faults w) as [|f l]; simpl; [now destruct n | reflexivity].
Qed.

Lemma round_trip_eq (w : World) :
  round_trip w =
  (if fault_at 0 w then Rejected (Error "Can't reach database server")
   else Resolved tt, answered w).
Proof.
  unfold round_trip. rewrite fault_at_0.
  now destruct (hd false (db_faults w)).
Qed.

(** ** What each operation computes *)

Lemma findBook_eq (i : string) (w : World) :
  fst (findBook i w) =
  if fault_at 0 w
  then Rejected (InternalServerErrorException
                   "An error occurred while fetching book.")
  else
    match find (matches (mkWhere (Some i) true None)) (book_table w) with
    | Some b =>
        Resolved (with_relations (mkInclude true true) (category_table w) b)
    | None => Rejected (NotFoundException "Book not found!")
    end.
Proof.
  unfold findBook, bind, try_catch, prisma_book_findUnique, bind.
  rewrite round_trip_eq.
  destruct (fault_at 0 w); simpl; [reflexivity|].
  now destruct (find _ (book_table w)).
Qed.

Lemma countBooks_eq (w : World) :
  countBooks w =
  if fault_at 0 w
  then (Rejected (InternalServerErrorException
                    "An error occurred while counting books."),
        set_console (console w ++ ["Error counting books:"]) (answered w))
  else (Resolved (Z.of_nat (length (List.filter active (book_table w)))),
        answered w).
Proof.
  unfold countBooks, try_catch, prisma_book_count, bind.
  rewrite round_trip_eq.
  destruct (fault_at 0 w); simpl; [reflexivity|].
  assert (E : List.filter (matches (mkWhere None true None)) (book_table w)
              = List.filter active (book_table w)).
  { apply filter_ext. intros b.
    unfold matches, active; simpl. now rewrite andb_true_r. }
  now rewrite E.
Qed.

Lemma findAllBooks_eq (page perPage : Z) (filter sortOrder categoryId : string)
    (w : World) :
  fst (findAllBooks page perPage filter sortOrder categoryId w) =
  if fault_at 0 w
  then Rejected (InternalServerErrorException
                   "An error occurred while fetching books.")
  else
    match listed_rows w page perPage filter sortOrder categoryId with
    | None => Rejected (InternalServerErrorException
                          "An error occurred while fetching books.")
    | Some rows =>
        if (length rows =? 0)%nat
        then Rejected (NotFoundException "No product was found!")
        else
          let items :=
            map (with_relations (mkInclude true false) (category_table w)) rows
          in
          if fault_at 1 w
          then Resolved (mkBookPage None None items)
          else
            let n := Z.of_nat (length (List.filter active (book_table w))) in
            Resolved (mkBookPage (Some n) (Some (Math_ceil_div n perPage)) items)
    end.
Proof.
  assert (K : forall (rows : list Book) (w1 : World),
    category_table w1 = category_table w ->
    book_table w1 = book_table w ->
    fault_at 0 w1 = fault_at 1 w ->
    fst ((if (length (map (with_relations (mkInclude true false)
                             (category_table w1)) rows) =? 0)%nat
          then throw (NotFoundException "No product was found!")
          else
            try_catch_finally_return
              (totalBooks <- countBooks ;;
               ret (totalBooks, Math_ceil_div totalBooks perPage))
              (fun error =>
                 throw (InternalServerErrorException
                          ("Error while counting products! Error:"
                             ++ error_message error)))
              (fun locals =>
                 mkBookPage (option_map fst locals) (option_map snd locals)
                   (map (with_relations (mkInclude true false)
                           (category_table w1)) rows)))
           w1) =
    if (length rows =? 0)%nat
    then Rejected (NotFoundException "No product was found!")
    else
      if fault_at 1 w
      then Resolved (mkBookPage None None
             (map (with_relations (mkInclude true false) (category_table w)) rows))
      else
        Resolved (mkBookPage
          (Some (Z.of_nat (length (List.filter active (book_table w)))))
          (Some (Math_ceil_div
                   (Z.of_nat (length (List.filter active (book_table w))))
                   perPage))
          (map (with_relations (mkInclude true false) (category_table w)) rows))).
  { intros rows w1 Hc Ht Hf. rewrite length_map, Hc.
    destruct (length rows =? 0)%nat; [reflexivity|].
    unfold try_catch_finally_return, try_catch, bind.
    rewrite countBooks_eq, Hf, Ht.
    destruct (fault_at 1 w); reflexivity. }
  unfold findAllBooks, listed_rows, listing, window_acceptedb.
  unfold bind at 1. unfold try_catch at 1.
  unfold prisma_book_findMany. unfold bind at 1.
  rewrite round_trip_eq.
  destruct (fault_at 0 w) eqn:F0; cbn [fst snd]; [reflexivity|].
  destruct (fits_Int64 ((page - 1) * perPage)); cbn [negb orb andb];
    [|reflexivity].
  destruct (fits_Int64 perPage); cbn [negb orb andb]; [|reflexivity].
  destruct ((page - 1) * perPage <? 0); cbn [negb]; [reflexivity|].
  destruct (orderBy_of filter sortOrder) as [o|].
  - destruct (order_leb o) as [le|]; [|reflexivity].
    unfold bind, store_delivers. cbn [fst snd option_map].
    apply (K _ (set_db_orders (tl (db_orders (answered w))) (answered w)));
      try reflexivity.
    apply (fault_at_answered 0).
  - unfold bind, store_delivers. cbn [fst snd option_map].
    apply (K _ (set_db_orders (tl (db_orders (answered w))) (answered w)));
      try reflexivity.
    apply (fault_at_answered 0).
Qed.

(** ** Lists: windows, sorting, unique keys *)

Section Windows.
Context {A : Type}.

Lemma In_firstn (n : nat) (l : list A) (x : A) : In x (firstn n l) -> In x l.
Proof.
  intros H. rewrite <- (firstn_skipn n l). apply in_or_app. now left.
Qed.

Lemma In_skipn (n : nat) (l : list A) (x : A) : In x (skipn n l) -> In x l.
Proof.
  intros H. rewrite <- (firstn_skipn n l). apply in_or_app. now right.
Qed.

Lemma In_paginate (skip take : Z) (l : list A) (x : A) :
  In x (paginate skip take l) -> In x l.
Proof.
  unfold paginate. destruct (0 <=? take); intros H.
  - eauto using In_firstn, In_skipn.
  - apply in_rev in H. apply In_firstn, In_skipn in H. now apply in_rev.
Qed.

Lemma paginate_forward (skip take : Z) (l : list A) :
  0 <= take ->
  paginate skip take l = firstn (Z.to_nat take) (skipn (Z.to_nat skip) l).
Proof.
  intros H. unfold paginate.
  destruct (0 <=? take) eqn:E; [reflexivity | lia].
Qed.
End Windows.

Section Sorting.
Variable le : Book -> Book -> bool.

Lemma insert_row_perm (x : Book) (l : list Book) :
  Permutation (insert_row le x l) (x :: l).
Proof.
  induction l as [|y l IH]; simpl; [reflexivity|].
  destruct (le x y); [reflexivity|].
  rewrite IH. apply perm_swap.
Qed.

Lemma sort_rows_perm (l : list Book) : Permutation (sort_rows le l) l.
Proof.
  induction l as [|x l IH]; simpl; [reflexivity|].
  rewrite insert_row_perm. now constructor.
Qed.

Lemma In_sort_rows (l : list Book) (x : Book) :
  In x (sort_rows le l) <-> In x l.
Proof.
  split; apply Permutation_in;
    [apply sort_rows_perm | symmetry; apply sort_rows_perm].
Qed.

Hypothesis le_total : forall a b, le a b = true \/ le b a = true.

Lemma insert_row_sorted (x : Book) (l : list Book) :
  Sorted (fun a b => le a b = true) l ->
  Sorted (fun a b => le a b = true) (insert_row le x l).
Proof.
  induction l as [|y l IH]; simpl; intros S.
  - repeat constructor.
  - destruct (le x y) eqn:E.
    + constructor; [assumption | now constructor].
    + apply Sorted_inv in S. destruct S as [S Hd].
      constructor; [now apply IH|].
      destruct l as [|z l]; simpl.
      * constructor. destruct (le_total x y); congruence.
      * destruct (le x z); constructor.
        -- destruct (le_total x y); congruence.
        -- now apply HdRel_inv in Hd.
Qed.

Lemma sort_rows_sorted (l : list Book) :
  Sorted (fun a b => le a b = true) (sort_rows le l).
Proof.
  induction l as [|x l IH]; simpl; [constructor|].
  now apply insert_row_sorted.
Qed.
End Sorting.

Lemma column_leb_total (c : Column) (a b : Book) :
  column_leb c a b = true \/ column_leb c b a = true.
Proof.
  destruct c; simpl; try apply String.leb_total.
  destruct (Z.leb_spec (final_price a) (final_price b)); [now left|].
  right. apply Z.leb_le. lia.
Qed.

Lemma order_leb_total (o : OrderBy) (le : Book -> Book -> bool) :
  order_leb o = Some le -> forall a b, le a b = true \/ le b a = true.
Proof.
  unfold order_leb. destruct (column_of_key (order_key o)) as [c|]; [|discriminate].
  destruct (String.eqb (order_direction o) "asc").
  - intros [= <-] a b. apply column_leb_total.
  - destruct (String.eqb (order_direction o) "desc"); [|discriminate].
    intros [= <-] a b. apply column_leb_total.
Qed.

(** Whatever the script, the store delivers the rows it was asked for. *)
Lemma pick_perm {A} (n : nat) (l rest : list A) (x : A) :
  pick n l = Some (x, rest) -> Permutation l (x :: rest).
Proof.
  revert l rest. induction n as [|n IH]; intros [|y l] rest; simpl;
    try discriminate.
  - now intros [= <- <-].
  - destruct (pick n l) as [[z rest']|] eqn:E; [|discriminate].
    intros [= <- <-]. rewrite (IH _ _ E). apply perm_swap.
Qed.

Lemma arrange_perm {A} (picks : list nat) (l : list A) :
  Permutation (arrange picks l) l.
Proof.
  revert l. induction picks as [|p picks IH]; intros l; simpl; [reflexivity|].
  destruct (pick p l) as [[x rest]|] eqn:E; [|reflexivity].
  rewrite (pick_perm _ _ _ _ E). constructor. apply IH.
Qed.

Lemma store_order_perm (w : World) (rows : list Book) :
  Permutation (store_order w rows) rows.
Proof. apply arrange_perm. Qed.

(** A listing holds the selected rows, each once. *)
Lemma listing_perm (w : World) (filter sortOrder categoryId : string)
    (ordered : list Book) :
  listing w filter sortOrder categoryId = Some ordered ->
  Permutation ordered
    (List.filter (matches (whereClause categoryId)) (book_table w)).
Proof.
  unfold listing. destruct (orderBy_of filter sortOrder) as [o|].
  - destruct (order_leb o) as [le|]; [|discriminate].
    intros [= <-]. rewrite sort_rows_perm. apply store_order_perm.
  - intros [= <-]. apply store_order_perm.
Qed.

Lemma window_acceptedb_spec (page perPage : Z) :
  window_acceptedb page perPage = true <-> window_accepted page perPage.
Proof.
  unfold window_acceptedb, window_accepted, fits_Int64.
  rewrite !andb_true_iff, negb_true_iff, !Z.leb_le, Z.ltb_ge.
  unfold Int64_min, Int64_max. intuition lia.
Qed.

(** A page is a window on the listing. *)
Lemma listed_rows_inv (w : World) (page perPage : Z)
    (filter sortOrder categoryId : string) (rows : list Book) :
  listed_rows w page perPage filter sortOrder categoryId = Some rows ->
  window_accepted page perPage
  /\ exists ordered,
       listing w filter sortOrder categoryId = Some ordered
       /\ rows = paginate ((page - 1) * perPage) perPage ordered.
Proof.
  unfold listed_rows.
  destruct (window_acceptedb page perPage) eqn:W; [|discriminate].
  apply window_acceptedb_spec in W.
  destruct (listing w filter sortOrder categoryId) as [ordered|];
    [|discriminate].
  intros [= <-]. eauto.
Qed.

(** The rows of a page are rows of the table that satisfy the filter. *)
Lemma listed_rows_In (w : World) (page perPage : Z)
    (filter sortOrder categoryId : string) (rows : list Book) (b : Book) :
  listed_rows w page perPage filter sortOrder categoryId = Some rows ->
  In b rows ->
  In b (book_table w) /\ matches (whereClause categoryId) b = true.
Proof.
  intros L H. destruct (listed_rows_inv _ _ _ _ _ _ _ L) as (_ & ordered & O & ->).
  apply In_paginate in H.
  apply (Permutation_in _ (listing_perm _ _ _ _ _ O)) in H.
  now apply filter_In in H.
Qed.

Lemma whereClause_active (categoryId : string) (b : Book) :
  matches (whereClause categoryId) b = true -> deleted_at b = None.
Proof.
  unfold whereClause, matches.
  destruct (negb (String.eqb categoryId "none")); simpl;
    destruct (deleted_at b); simpl; intros H; try reflexivity;
    try discriminate.
Qed.

Lemma whereClause_category (categoryId : string) (b : Book) :
  categoryId <> "none" ->
  matches (whereClause categoryId) b = true -> id_category b = categoryId.
Proof.
  intros N. unfold whereClause, matches.
  destruct (String.eqb_spec categoryId "none") as [E|_]; [contradiction|]; simpl.
  intros H. apply andb_true_iff in H. destruct H as [_ H].
  now apply String.eqb_eq.
Qed.

Lemma whereClause_none (b : Book) : matches (whereClause "none") b = active b.
Proof.
  unfold whereClause, matches, active; simpl. now rewrite andb_true_r.
Qed.

(** A page with a row on it was asked for with [perPage <> 0], so the
    division of [Math_ceil_div] is never one by zero. *)
Lemma listed_rows_perPage (w : World) (page perPage : Z)
    (filter sortOrder categoryId : string) (rows : list Book) :
  listed_rows w page perPage filter sortOrder categoryId = Some rows ->
  rows <> [] -> perPage <> 0.
Proof.
  intros L N ->. apply N.
  now destruct (listed_rows_inv _ _ _ _ _ _ _ L) as (_ & ordered & _ & ->).
Qed.

(** What a resolved page is made of. *)
Lemma findAllBooks_resolved (page perPage : Z)
    (filter sortOrder categoryId : string) (w : World) (r : BookPage) :
  fst (findAllBooks page perPage filter sortOrder categoryId w) = Resolved r ->
  exists rows,
    listed_rows w page perPage filter sortOrder categoryId = Some rows
    /\ rows <> []
    /\ books r
       = map (with_relations (mkInclude true false) (category_table w)) rows
    /\ (fault_at 1 w = true -> totalBooks r = None /\ totalPages r = None)
    /\ (fault_at 1 w = false ->
        totalBooks r
          = Some (Z.of_nat (length (List.filter active (book_table w))))
        /\ totalPages r
          = Some (Math_ceil_div
                    (Z.of_nat (length (List.filter active (book_table w))))
                    perPage)).
Proof.
  rewrite findAllBooks_eq.
  destruct (fault_at 0 w); [discriminate|].
  destruct (listed_rows w page perPage filter sortOrder categoryId) as [rows|];
    [|discriminate].
  destruct rows as [|b rows]; [discriminate|]. cbn [length Nat.eqb].
  cbv zeta. intros H. exists (b :: rows).
  destruct (fault_at 1 w); injection H as <-; cbn;
    repeat split; try discriminate; auto.
Qed.

(** ** Rows and their primary key *)

Lemma matches_id_active (i : string) (b : Book) :
  matches (mkWhere (Some i) true None) b = true
  <-> id b = i /\ deleted_at b = None.
Proof.
  unfold matches; simpl. rewrite andb_true_r, andb_true_iff, String.eqb_eq.
  destruct (deleted_at b); simpl; intuition congruence.
Qed.

Lemma find_all_false {A} (f : A -> bool) (l : list A) :
  (forall x, In x l -> f x = false) -> find f l = None.
Proof.
  induction l as [|y l IH]; simpl; intros H; [reflexivity|].
  rewrite (H y) by now left. apply IH. intros x Hx. apply H. now right.
Qed.


Lemma find_unique_row (rows : list Book) (b : Book) :
  NoDup (map id rows) -> In b rows -> deleted_at b = None ->
  find (matches (mkWhere (Some (id b)) true None)) rows = Some b.
Proof.
  intros ND Hin Hact.
  induction rows as [|x rows IH]; simpl in *; [contradiction|].
  apply NoDup_cons_iff in ND. destruct ND as [Hx ND].
  destruct (matches (mkWhere (Some (id b)) true None) x) eqn:M.
  - apply matches_id_active in M. destruct M as [Hid _].
    destruct Hin as [->|Hin]; [reflexivity|].
    exfalso. apply Hx. rewrite Hid. now apply in_map.
  - destruct Hin as [->|Hin]; [|now apply IH].
    assert (matches (mkWhere (Some (id b)) true None) b = true)
      by now apply matches_id_active.
    congruence.
Qed.

Lemma has_id_true (i : string) (b : Book) : has_id i b = true <-> id b = i.
Proof. apply String.eqb_eq. Qed.

Lemma update_row_found (i : string) (f : Book -> Book) (rows : list Book)
    (b : Book) :
  In b rows -> id b = i ->
  exists b0 rows',
    update_row i f rows = Some (f b0, rows') /\ In b0 rows /\ id b0 = i.
Proof.
  intros Hin Hid. induction rows as [|x rows IH]; simpl in *; [contradiction|].
  destruct (has_id i x) eqn:E.
  - apply has_id_true in E. exists x, (f x :: rows). auto.
  - destruct Hin as [->|Hin].
    + apply has_id_true in Hid. congruence.
    + destruct (IH Hin) as (b0 & rows' & -> & H1 & H2).
      exists b0, (x :: rows'). auto.
Qed.

Lemma update_row_ids (i : string) (f : Book -> Book) (rows rows' : list Book)
    (b' : Book) :
  (forall x, id (f x) = id x) ->
  update_row i f rows = Some (b', rows') ->
  map id rows' = map id rows /\ In b' rows' /\ id b' = i.
Proof.
  intros Hf. revert rows' b'.
  induction rows as [|x rows IH]; simpl; intros rows' b'; [discriminate|].
  destruct (has_id i x) eqn:E.
  - intros [= <- <-]. simpl. rewrite Hf. apply has_id_true in E.
    repeat split; auto.
  - destruct (update_row i f rows) as [[b1 rows1]|]; [|discriminate].
    intros [= <- <-]. destruct (IH _ _ eq_refl) as (H1 & H2 & H3).
    simpl. rewrite H1. auto.
Qed.

(** With a unique key, every row with the updated id is the updated row. *)
Lemma update_row_deleted (i : string) (t : Z) (rows rows' : list Book)
    (b' : Book) :
  NoDup (map id rows) ->
  update_row i (set_deleted_at t) rows = Some (b', rows') ->
  forall x, In x rows' -> id x = i -> deleted_at x = Some t.
Proof.
  revert rows' b'.
  induction rows as [|y rows IH]; simpl; intros rows' b' ND; [discriminate|].
  apply NoDup_cons_iff in ND. destruct ND as [Hy ND].
  destruct (has_id i y) eqn:E.
  - intros [= <- <-] x [<-|Hx] Hid; [reflexivity|].
    exfalso. apply Hy. apply has_id_true in E. rewrite E, <- Hid.
    now apply in_map.
  - destruct (update_row i (set_deleted_at t) rows) as [[b1 rows1]|] eqn:U;
      [|discriminate].
    intros [= <- <-] x [<-|Hx] Hid.
    + apply has_id_true in Hid. congruence.
    + now apply (IH _ _ ND eq_refl).
Qed.

Lemma delete_row_found (i : string) (rows : list Book) (b : Book) :
  In b rows -> id b = i ->
  exists b0 rows', delete_row i rows = Some (b0, rows').
Proof.
  intros Hin Hid. induction rows as [|x rows IH]; simpl in *; [contradiction|].
  destruct (has_id i x) eqn:E; [eauto|].
  destruct Hin as [->|Hin].
  - apply has_id_true in Hid. congruence.
  - destruct (IH Hin) as (b0 & rows' & ->). eauto.
Qed.

Lemma delete_row_incl (i : string) (rows rows' : list Book) (b' : Book) :
  delete_row i rows = Some (b', rows') -> forall x, In x rows' -> In x rows.
Proof.
  revert rows' b'.
  induction rows as [|y rows IH]; simpl; intros rows' b'; [discriminate|].
  destruct (has_id i y).
  - intros [= <- <-] x Hx. now right.
  - destruct (delete_row i rows) as [[b1 rows1]|]; [|discriminate].
    intros [= <- <-] x [<-|Hx]; [now left | right; eauto].
Qed.

(** With a unique key, no row with the deleted id is left. *)
Lemma delete_row_gone (i : string) (rows rows' : list Book) (b' : Book) :
  NoDup (map id rows) ->
  delete_row i rows = Some (b', rows') ->
  forall x, In x rows' -> id x <> i.
Proof.
  revert rows' b'.
  induction rows as [|y rows IH]; simpl; intros rows' b' ND; [discriminate|].
  apply NoDup_cons_iff in ND. destruct ND as [Hy ND].
  destruct (has_id i y) eqn:E.
  - intros [= <- <-] x Hx Hid. apply Hy. apply has_id_true in E.
    rewrite E, <- Hid. now apply in_map.
  - destruct (delete_row i rows) as [[b1 rows1]|] eqn:D; [|discriminate].
    intros [= <- <-] x [<-|Hx] Hid.
    + apply has_id_true in Hid. congruence.
    + now apply (IH _ _ ND eq_refl x).
Qed.

Lemma softDeleteBook_eq (i : string) (w : World) :
  fault_at 0 w = false ->
  softDeleteBook i w =
  match update_row i (set_deleted_at (clock w)) (book_table w) with
  | Some (b, rows) => (Resolved b, set_book_table rows (answered w))
  | None =>
      (Rejected (InternalServerErrorException "Failed to soft-delete a book!"),
       set_console
         (console w
            ++ ["Error soft-deleting a book: Record to update not found."])
         (answered w))
  end.
Proof.
  intros F. unfold softDeleteBook, try_catch, bind, new_Date,
    prisma_book_update_deleted_at, bind.
  rewrite round_trip_eq, F. simpl.
  now destruct (update_row i (set_deleted_at (clock w)) (book_table w))
    as [[b rows]|].
Qed.

Lemma deleteBook_eq (i : string) (w : World) :
  fault_at 0 w = false ->
  deleteBook i w =
  match delete_row i (book_table w) with
  | Some (b, rows) => (Resolved b, set_book_table rows (answered w))
  | None =>
      (Rejected (InternalServerErrorException "Failed to hard-delete a book!"),
       set_console
         (console w
            ++ ["Error hard-deleting a book: Record to delete does not exist."])
         (answered w))
  end.
Proof.
  intros F. unfold deleteBook, try_catch, bind, prisma_book_delete, bind.
  rewrite round_trip_eq, F. simpl.
  now destruct (delete_row i (book_table w)) as [[b rows]|].
Qed.

(** ** findBook *)

(** C4. With a unique key: when the store answers, [findBook] resolves to
    the active row with the given id, with its main and sub category
    included, and rejects with NotFound when no active row has the id (no
    such row, or a soft-deleted one); it rejects with Internal exactly when
    the store call fails. *)
Theorem findBook_spec (w : World) (i : string) :
  unique_ids w ->
  (forall b, fault_at 0 w = false ->
     In b (book_table w) -> id b = i -> deleted_at b = None ->
     fst (findBook i w)
     = Resolved
         (mkBookPayload b
            (Included (find_category (id_category b) (category_table w)))
            (Included match id_sub_category b with
                      | Some s => find_category s (category_table w)
                      | None => None
                      end)))
  /\ (fault_at 0 w = false ->
      (forall b, In b (book_table w) -> id b = i -> deleted_at b <> None) ->
      fst (findBook i w) = Rejected (NotFoundException "Book not found!"))
  /\ ((exists m, fst (findBook i w) = Rejected (InternalServerErrorException m))
      <-> fault_at 0 w = true).
Proof.
  intros U. rewrite findBook_eq. repeat split.
  - intros b F Hin <- Hact. rewrite F.
    now rewrite (find_unique_row _ b U Hin Hact).
  - intros F Hnone. rewrite F.
    rewrite find_all_false; [reflexivity|].
    intros b Hin.
    destruct (matches (mkWhere (Some i) true None) b) eqn:M; [|reflexivity].
    apply matches_id_active in M. destruct M as [Hid Hact].
    now destruct (Hnone b Hin Hid).
  - intros [m H]. destruct (fault_at 0 w); [reflexivity|].
    destruct (find _ (book_table w)); discriminate.
  - intros ->. eauto.
Qed.

Lemma shelf_unique_ids (faults : list bool) : unique_ids (shelf faults).
Proof.
  unfold unique_ids; simpl.
  repeat constructor; simpl; intuition discriminate.
Qed.

Lemma findBook_spec_witness :
  fst (findBook "b2" (shelf []))
  = Resolved (mkBookPayload odes (Included (Some poetry))
                            (Included (Some fiction)))
  /\ fst (findBook "b3" (shelf [])) = Rejected (NotFoundException "Book not found!")
  /\ fst (findBook "b9" (shelf [])) = Rejected (NotFoundException "Book not found!").
Proof.
  split; [|split].
  - apply (proj1 (findBook_spec (shelf []) "b2" (shelf_unique_ids [])) odes);
      simpl; auto.
  - apply (proj1 (proj2 (findBook_spec (shelf []) "b3" (shelf_unique_ids []))));
      [reflexivity|].
    simpl. intros b [<-|[<-|[<-|[]]]]; simpl; intros; congruence.
  - apply (proj1 (proj2 (findBook_spec (shelf []) "b9" (shelf_unique_ids []))));
      [reflexivity|].
    simpl. intros b [<-|[<-|[<-|[]]]]; simpl; intros; congruence.
Defined.

(** ** Reads see active rows only *)
(** Every item of a resolved page wraps an active row of the table. *)
Lemma findAllBooks_rows_active (page perPage : Z)
    (filter sortOrder categoryId : string) (w : World) (r : BookPage)
    (p : BookPayload) :
  fst (findAllBooks page perPage filter sortOrder categoryId w) = Resolved r ->
  In p (books r) ->
  In (row p) (book_table w) /\ deleted_at (row p) = None.
Proof.
  intros H Hp.
  destruct (findAllBooks_resolved _ _ _ _ _ _ _ H) as (rows & L & _ & B & _).
  rewrite B in Hp. apply in_map_iff in Hp. destruct Hp as (b & <- & Hb).
  destruct (listed_rows_In _ _ _ _ _ _ _ _ L Hb) as [Hin M].
  simpl. split; [assumption|]. now apply whereClause_active in M.
Qed.


(** C3. Whatever the store holds: a book [findBook] resolves to is an
    active row of the table; every row of a page [findAllBooks] resolves
    to, for any filter and sort parameters, is an active row of the table;
    and [countBooks], when the store answers, resolves to the number of
    rows whose [deleted_at] is null, which is the size of the table less
    its soft-deleted rows. *)
Theorem reads_skip_soft_deleted (w : World) :
  (forall i p, fst (findBook i w) = Resolved p ->
     In (row p) (book_table w) /\ deleted_at (row p) = None)
  /\ (forall page perPage filter sortOrder categoryId r p,
        fst (findAllBooks page perPage filter sortOrder categoryId w)
        = Resolved r ->
        In p (books r) ->
        In (row p) (book_table w) /\ deleted_at (row p) = None)
  /\ (fault_at 0 w = false ->
      exists n,
        fst (countBooks w) = Resolved (Z.of_nat n)
        /\ n = length (List.filter (fun b => is_null (deleted_at b))
                                   (book_table w))
        /\ (n + length (List.filter (fun b => negb (is_null (deleted_at b)))
                                    (book_table w))
            = length (book_table w))%nat)
  /\ (forall n, fst (countBooks w) = Resolved n ->
        n = Z.of_nat (length (List.filter (fun b => is_null (deleted_at b))
                                          (book_table w)))).
Proof.
  split; [|split; [|split]].
  - intros i p. rewrite findBook_eq.
    destruct (fault_at 0 w); [discriminate|].
    destruct (find _ (book_table w)) as [b|] eqn:E; [|discriminate].
    intros [= <-]. apply find_some in E. destruct E as [Hin M].
    apply matches_id_active in M. simpl. tauto.
  - intros page perPage filter sortOrder categoryId r p.
    apply findAllBooks_rows_active.
  - intros F. rewrite countBooks_eq, F. simpl.
    exists (length (List.filter active (book_table w))).
    repeat split.
    unfold active. induction (book_table w) as [|b l IH]; simpl; [reflexivity|].
    destruct (is_null (deleted_at b)); simpl; lia.
  - intros n. rewrite countBooks_eq.
    destruct (fault_at 0 w); simpl; [discriminate|]. now intros [= <-].
Qed.

Lemma reads_skip_soft_deleted_witness :
  (exists r,
      fst (findAllBooks 1 10 "price" "desc" "none" (shelf [])) = Resolved r
      /\ map (fun p => id (row p)) (books r) = ["b1"; "b2"]
      /\ forall p, In p (books r) -> deleted_at (row p) = None)
  /\ fst (countBooks (shelf [])) = Resolved 2.
Proof.
  split.
  - eexists. split; [reflexivity|]. split; [reflexivity|].
    intros p Hp.
    apply (proj1 (proj2 (reads_skip_soft_deleted (shelf [])))
             1 10 "price" "desc" "none" _ p eq_refl Hp).
  - destruct (proj1 (proj2 (proj2 (reads_skip_soft_deleted (shelf []))))
                eq_refl) as (n & H & -> & _).
    exact H.
Defined.

(** ** findAllBooks: failures *)

(** Once the listing step has produced a non-empty page, nothing the
    counting step does makes [findAllBooks] reject. *)
Lemma findAllBooks_counting_never_rejects (page perPage : Z)
    (filter sortOrder categoryId : string) (w : World) (rows : list Book) :
  fault_at 0 w = false ->
  listed_rows w page perPage filter sortOrder categoryId = Some rows ->
  rows <> [] ->
  exists r, fst (findAllBooks page perPage filter sortOrder categoryId w)
            = Resolved r.
Proof.
  intros F L N. rewrite findAllBooks_eq, F, L.
  destruct rows as [|b rows]; [contradiction|]. cbn [length Nat.eqb]. cbv zeta.
  destruct (fault_at 1 w); eauto.
Qed.

(** C1. The listing step succeeds, the counting step fails: the call
    resolves to a page with both totals undefined; the Internal error of
    the [catch] block is lost to the [return] of the [finally] block. *)
Theorem findAllBooks_counting_failure_swallowed :
  fst (findAllBooks 1 10 "none" "asc" "none" (shelf [false; true]))
  = Resolved
      (mkBookPage None None
         [mkBookPayload dune (Included (Some fiction)) NotIncluded;
          mkBookPayload odes (Included (Some poetry)) NotIncluded])
  /\ fst (countBooks (answered (shelf [false; true])))
     = Rejected (InternalServerErrorException
                   "An error occurred while counting books.").
Proof. split; reflexivity. Qed.

(** ** The listing query *)

Lemma orderBy_of_spec (filter sortOrder : string) :
  orderBy_of filter sortOrder
  = option_map (fun c => mkOrderBy (column_key c) sortOrder)
               (sort_specification filter).
Proof.
  unfold orderBy_of, sort_specification.
  destruct (String.eqb_spec filter "none") as [->|_]; [reflexivity|].
  destruct (String.eqb filter "name"); [reflexivity|].
  destruct (String.eqb filter "price"); [reflexivity|].
  now destruct (String.eqb filter "category").
Qed.

Lemma order_leb_direction (c : Column) (sortOrder : string) :
  order_leb (mkOrderBy (column_key c) sortOrder) = direction_leb c sortOrder.
Proof. now destruct c. Qed.

Lemma direction_leb_accepted (c : Column) (sortOrder : string) :
  sortOrder = "asc" \/ sortOrder = "desc" ->
  exists le, direction_leb c sortOrder = Some le.
Proof. intros [->| ->]; unfold direction_leb; simpl; eauto. Qed.

Lemma direction_leb_total (c : Column) (sortOrder : string)
    (le : Book -> Book -> bool) :
  direction_leb c sortOrder = Some le ->
  forall a b, le a b = true \/ le b a = true.
Proof.
  rewrite <- order_leb_direction. apply order_leb_total.
Qed.

(** A listing: the rows as the store delivers them, put in the order the
    sort specification asks for. *)
Lemma listing_cases (w : World) (filter sortOrder categoryId : string)
    (ordered : list Book) :
  listing w filter sortOrder categoryId = Some ordered ->
  match sort_specification filter with
  | Some c =>
      exists le, direction_leb c sortOrder = Some le
        /\ ordered
           = sort_rows le
               (store_order w
                  (List.filter (matches (whereClause categoryId))
                               (book_table w)))
  | None =>
      ordered = store_order w
                  (List.filter (matches (whereClause categoryId))
                               (book_table w))
  end.
Proof.
  unfold listing. rewrite orderBy_of_spec.
  destruct (sort_specification filter) as [c|]; simpl.
  - rewrite order_leb_direction.
    destruct (direction_leb c sortOrder) as [le|]; [|discriminate].
    intros [= <-]. eauto.
  - now intros [= <-].
Qed.

Lemma listing_accepted (w : World) (filter sortOrder categoryId : string) :
  sort_accepted filter sortOrder ->
  exists ordered, listing w filter sortOrder categoryId = Some ordered.
Proof.
  intros Hdir. unfold listing. rewrite orderBy_of_spec.
  unfold sort_accepted in Hdir.
  destruct (sort_specification filter) as [c|]; simpl; [|eauto].
  rewrite order_leb_direction.
  destruct Hdir as [Hdir|Hdir]; [discriminate|].
  destruct (direction_leb_accepted c sortOrder Hdir) as [le ->]. eauto.
Qed.

(** The rows of a page: a window on the listing. *)
Lemma listed_rows_cases (w : World) (page perPage : Z)
    (filter sortOrder categoryId : string) (rows : list Book) :
  listed_rows w page perPage filter sortOrder categoryId = Some rows ->
  0 <= (page - 1) * perPage
  /\ exists ordered,
       listing w filter sortOrder categoryId = Some ordered
       /\ rows = paginate ((page - 1) * perPage) perPage ordered.
Proof.
  intros L. destruct (listed_rows_inv _ _ _ _ _ _ _ L) as ([[H _] _] & O).
  split; assumption.
Qed.

Lemma listed_rows_accepted (w : World) (page perPage : Z)
    (filter sortOrder categoryId : string) :
  window_accepted page perPage ->
  sort_accepted filter sortOrder ->
  exists ordered,
    listing w filter sortOrder categoryId = Some ordered
    /\ Permutation ordered
         (List.filter (matches (whereClause categoryId)) (book_table w))
    /\ listed_rows w page perPage filter sortOrder categoryId
       = Some (paginate ((page - 1) * perPage) perPage ordered).
Proof.
  intros Hw Hdir.
  destruct (listing_accepted w filter sortOrder categoryId Hdir)
    as [ordered O].
  exists ordered. split; [assumption|].
  split; [now apply (listing_perm _ _ _ _ _ O)|].
  unfold listed_rows.
  now rewrite (proj2 (window_acceptedb_spec page perPage) Hw), O.
Qed.

(** For [page >= 1] and [perPage >= 1] the client takes the window when
    [perPage] and the offset fit 64 bits. *)
Lemma window_accepted_intro (page perPage : Z) :
  1 <= page -> 1 <= perPage ->
  perPage <= Int64_max -> (page - 1) * perPage <= Int64_max ->
  window_accepted page perPage.
Proof.
  intros Hp Hn H1 H2. unfold window_accepted, Int64_min in *.
  repeat split; try assumption; nia.
Qed.

Lemma map_row_with_relations (inc : BookInclude) (cs : list BookCategory)
    (rows : list Book) :
  map row (map (with_relations inc cs) rows) = rows.
Proof.
  rewrite map_map. simpl. apply map_id.
Qed.



(** ** findAllBooks: the page and the totals *)

Lemma Math_ceil_div_spec (n perPage : Z) :
  0 < perPage ->
  (Math_ceil_div n perPage - 1) * perPage < n <= Math_ceil_div n perPage * perPage.
Proof.
  intros H. unfold Math_ceil_div.
  pose proof (Z.div_mod (- n) perPage ltac:(lia)) as D.
  pose proof (Z.mod_pos_bound (- n) perPage H) as B.
  nia.
Qed.

(** The ceiling is the only integer within one page of the count. *)
Lemma Math_ceil_div_unique (n perPage k : Z) :
  0 < perPage ->
  (k - 1) * perPage < n <= k * perPage -> k = Math_ceil_div n perPage.
Proof.
  intros H K. pose proof (Math_ceil_div_spec n perPage H) as C. nia.
Qed.

(** C5. For [page >= 1] and [perPage = N >= 1], when the call resolves:
    the listing of this call (all the matching rows, in the order the
    store delivers them, sorted as asked) is made of exactly
    [(page - 1) * N] skipped rows, then the rows of the page, then the
    rest; the page has at most [N] rows, and fewer only when nothing is
    left; so the [k]-th item of the page is the [(page - 1) * N + k]-th
    row of the listing.  When the counting step succeeded, [totalBooks] is
    the number of active rows and [totalPages] is the ceiling of
    [totalBooks / N], the integer [t] with
    [(t - 1) * N < totalBooks <= t * N]. *)
Theorem findAllBooks_pagination (w : World) (page perPage : Z)
    (filter sortOrder categoryId : string) (r : BookPage) :
  1 <= page -> 1 <= perPage ->
  fst (findAllBooks page perPage filter sortOrder categoryId w) = Resolved r ->
  exists matching skipped rest : list Book,
    listing w filter sortOrder categoryId = Some matching
    /\ Permutation matching
         (List.filter (matches (whereClause categoryId)) (book_table w))
    /\ matching = skipped ++ map row (books r) ++ rest
    /\ Z.of_nat (length skipped) = (page - 1) * perPage
    /\ Z.of_nat (length (books r)) <= perPage
    /\ (Z.of_nat (length (books r)) < perPage -> rest = [])
    /\ (forall k : nat,
          nth_error (map row (books r)) k
          = if Z.of_nat k <? perPage
            then nth_error matching (Z.to_nat ((page - 1) * perPage) + k)
            else None)
    /\ (fault_at 1 w = false ->
        exists total pages : Z,
          totalBooks r = Some total
          /\ total = Z.of_nat (length (List.filter active (book_table w)))
          /\ totalPages r = Some pages
          /\ (pages - 1) * perPage < total <= pages * perPage).
Proof.
  intros Hp Hn H.
  destruct (findAllBooks_resolved _ _ _ _ _ _ _ H)
    as (rows & L & N & B & _ & T).
  destruct (listed_rows_cases _ _ _ _ _ _ _ L) as (Hoff & ordered & O & ->).
  rewrite paginate_forward in * by lia.
  set (o := Z.to_nat ((page - 1) * perPage)) in *.
  set (n := Z.to_nat perPage) in *.
  assert (Ho : (o < length ordered)%nat).
  { destruct (Nat.lt_ge_cases o (length ordered)) as [K|K]; [exact K|].
    exfalso. apply N. now rewrite skipn_all2, firstn_nil. }
  exists ordered, (firstn o ordered), (skipn n (skipn o ordered)).
  rewrite B, map_row_with_relations, length_map.
  split; [exact O|].
  split; [exact (listing_perm _ _ _ _ _ O)|].
  split; [now rewrite (firstn_skipn n), (firstn_skipn o)|].
  split; [rewrite length_firstn; unfold o in *; lia|].
  split; [pose proof (firstn_le_length n (skipn o ordered)); unfold n in *; lia|].
  split.
  { intros K. apply skipn_all2.
    rewrite length_firstn in K. unfold n in *. lia. }
  split.
  { intros k. rewrite nth_error_firstn, nth_error_skipn.
    destruct (Z.ltb_spec (Z.of_nat k) perPage);
      destruct (Nat.ltb_spec k n); try reflexivity; unfold n in *; lia. }
  intros F. destruct (T F) as [T1 T2].
  exists (Z.of_nat (length (List.filter active (book_table w)))),
    (Math_ceil_div (Z.of_nat (length (List.filter active (book_table w))))
                   perPage).
  repeat split; auto; apply Math_ceil_div_spec; lia.
Qed.

Lemma findAllBooks_pagination_witness :
  exists r,
    fst (findAllBooks 2 1 "price" "asc" "none" (shelf [])) = Resolved r
    /\ listing (shelf []) "price" "asc" "none" = Some [odes; dune]
    /\ map row (books r) = [dune]
    /\ totalBooks r = Some 2
    /\ totalPages r = Some 2
    /\ Z.of_nat (length (books r)) <= 1.
Proof.
  eexists. split; [reflexivity|]. repeat split.
  destruct (findAllBooks_pagination (shelf []) 2 1 "price" "asc" "none" _
              ltac:(lia) ltac:(lia) eq_refl)
    as (m & sk & rs & _ & _ & _ & _ & Hlen & _).
  exact Hlen.
Defined.

(** ** findAllBooks: the category filter *)

(** C6. With a concrete [categoryId], every row of a resolved page has that
    category as its main category, and the included [mainCategory] is the
    category of that id; with ['none'], the category plays no part: any
    active row, whatever its category, is on the first page of any size
    that spans the whole table (and fits the 64 bits the client sends). *)
Theorem findAllBooks_category_filter (w : World) :
  (forall page perPage filter sortOrder categoryId r p,
     categoryId <> "none" ->
     fst (findAllBooks page perPage filter sortOrder categoryId w)
     = Resolved r ->
     In p (books r) ->
     id_category (row p) = categoryId
     /\ mainCategory p = Included (find_category categoryId (category_table w)))
  /\ (forall filter sortOrder b perPage,
        fault_at 0 w = false ->
        sort_accepted filter sortOrder ->
        In b (book_table w) -> deleted_at b = None ->
        Z.of_nat (length (book_table w)) <= perPage <= Int64_max ->
        exists r,
          fst (findAllBooks 1 perPage filter sortOrder "none" w) = Resolved r
          /\ In b (map row (books r))).
Proof.
  split.
  - intros page perPage filter sortOrder categoryId r p N H Hp.
    destruct (findAllBooks_resolved _ _ _ _ _ _ _ H)
      as (rows & L & _ & B & _).
    rewrite B in Hp. apply in_map_iff in Hp. destruct Hp as (b & <- & Hb).
    destruct (listed_rows_In _ _ _ _ _ _ _ _ L Hb) as [_ M].
    apply (whereClause_category _ _ N) in M. simpl. now rewrite M.
  - intros filter sortOrder b n F Hdir Hin Hact [Hlen Hmax].
    assert (Hn : 1 <= n).
    { destruct (book_table w); [contradiction | simpl length in Hlen; lia]. }
    destruct (listed_rows_accepted w 1 n filter sortOrder "none")
      as (ordered & _ & P & L);
      [apply window_accepted_intro; lia | assumption |].
    assert (Hb : In b ordered).
    { apply (Permutation_in _ (Permutation_sym P)).
      apply filter_In. split; [assumption|].
      rewrite whereClause_none. unfold active. now rewrite Hact. }
    assert (E : paginate ((1 - 1) * n) n ordered = ordered).
    { rewrite paginate_forward by lia. simpl.
      apply firstn_all2. rewrite (Permutation_length P).
      pose proof (filter_length_le (matches (whereClause "none"))
                    (book_table w)). lia. }
    rewrite E in L.
    destruct (findAllBooks_counting_never_rejects 1 n filter sortOrder "none"
                w ordered F L) as [r H].
    { intros ->. contradiction. }
    exists r. split; [assumption|].
    destruct (findAllBooks_resolved _ _ _ _ _ _ _ H)
      as (rows & L' & _ & B & _).
    rewrite B, map_row_with_relations. congruence.
Qed.

Lemma findAllBooks_category_filter_witness :
  (exists r,
      fst (findAllBooks 1 10 "none" "asc" "c1" (shelf [])) = Resolved r
      /\ forall p, In p (books r) -> id_category (row p) = "c1")
  /\ (exists r,
        fst (findAllBooks 1 3 "name" "asc" "none" (shelf [])) = Resolved r
        /\ In odes (map row (books r))).
Proof.
  split.
  - eexists. split; [reflexivity|]. intros p Hp.
    apply (proj1 (findAllBooks_category_filter (shelf []))
             1 10 "none" "asc" "c1" _ p ltac:(discriminate) eq_refl Hp).
  - apply (proj2 (findAllBooks_category_filter (shelf []))
             "name" "asc" odes 3 eq_refl (or_intror (or_introl eq_refl)));
      simpl; auto.
    unfold Int64_max. lia.
Defined.

(** ** findAllBooks: the order of a page *)

Section SortedWindows.
Context {A : Type} (R : A -> A -> Prop).

Lemma Sorted_skipn (n : nat) (l : list A) : Sorted R l -> Sorted R (skipn n l).
Proof.
  revert l. induction n as [|n IH]; intros l S; [assumption|].
  destruct l as [|a l]; [assumption|].
  simpl. apply IH. now apply Sorted_inv in S.
Qed.

Lemma Sorted_firstn (n : nat) (l : list A) : Sorted R l -> Sorted R (firstn n l).
Proof.
  revert l. induction n as [|n IH]; intros l S; [constructor|].
  destruct l as [|a l]; [constructor|].
  apply Sorted_inv in S. destruct S as [S Hd].
  simpl. constructor; [now apply IH|].
  destruct n; [constructor|].
  destruct l as [|b l]; [constructor|].
  simpl. constructor. now apply HdRel_inv in Hd.
Qed.
End SortedWindows.

(** C7, as the code has it.  The [switch] on the filter key builds this [orderBy]:
    the field [product_name] for ['name'], the field [final_price] for
    ['price'], the field [id_category] for ['category'], in the direction
    [sortOrder], and no [orderBy] for ['none'] or any other value.
    Accordingly a resolved page is ordered on that field in that
    direction (on [product_name], not on [title], for ['name']), and with
    no sort it is a window on the selected rows as the store delivers
    them. *)
Theorem filterKey_sort_specification (w : World) (page perPage : Z)
    (filter sortOrder categoryId : string) :
  orderBy_of "name" sortOrder = Some (mkOrderBy "product_name" sortOrder)
  /\ orderBy_of "price" sortOrder = Some (mkOrderBy "final_price" sortOrder)
  /\ orderBy_of "category" sortOrder = Some (mkOrderBy "id_category" sortOrder)
  /\ orderBy_of "none" sortOrder = None
  /\ (filter <> "name" -> filter <> "price" -> filter <> "category" ->
      orderBy_of filter sortOrder = None)
  /\ orderBy_of filter sortOrder
     = option_map (fun c => mkOrderBy (column_key c) sortOrder)
                  (sort_specification filter)
  /\ (forall r,
        1 <= perPage ->
        fst (findAllBooks page perPage filter sortOrder categoryId w)
        = Resolved r ->
        match sort_specification filter with
        | Some c =>
            exists le,
              direction_leb c sortOrder = Some le
              /\ Sorted (fun a b => le a b = true) (map row (books r))
        | None =>
            map row (books r)
            = paginate ((page - 1) * perPage) perPage
                (store_order w
                   (List.filter (matches (whereClause categoryId))
                                (book_table w)))
        end)
  /\ (forall r,
        1 <= perPage ->
        fst (findAllBooks page perPage "name" "asc" categoryId w)
        = Resolved r ->
        Sorted (fun a b => String.leb (product_name a) (product_name b) = true)
               (map row (books r))).
Proof.
  assert (G : forall filter sortOrder r,
        1 <= perPage ->
        fst (findAllBooks page perPage filter sortOrder categoryId w)
        = Resolved r ->
        match sort_specification filter with
        | Some c =>
            exists le,
              direction_leb c sortOrder = Some le
              /\ Sorted (fun a b => le a b = true) (map row (books r))
        | None =>
            map row (books r)
            = paginate ((page - 1) * perPage) perPage
                (store_order w
                   (List.filter (matches (whereClause categoryId))
                                (book_table w)))
        end).
  { intros f o r Hn H.
    destruct (findAllBooks_resolved _ _ _ _ _ _ _ H)
      as (rows & L & _ & B & _).
    rewrite B, map_row_with_relations.
    destruct (listed_rows_cases _ _ _ _ _ _ _ L) as (Hoff & ordered & O & ->).
    apply listing_cases in O.
    destruct (sort_specification f) as [c|].
    - destruct O as (le & D & ->). exists le. split; [assumption|].
      rewrite paginate_forward by lia.
      apply Sorted_firstn, Sorted_skipn, sort_rows_sorted.
      now apply (direction_leb_total c o).
    - now rewrite O. }
  repeat split; try reflexivity.
  - intros N1 N2 N3. rewrite orderBy_of_spec. unfold sort_specification.
    destruct (String.eqb_spec filter "name"); [contradiction|].
    destruct (String.eqb_spec filter "price"); [contradiction|].
    destruct (String.eqb_spec filter "category"); [contradiction|].
    reflexivity.
  - apply orderBy_of_spec.
  - apply G.
  - intros r Hn H. destruct (G "name" "asc" r Hn H) as (le & D & S).
    injection D as <-. exact S.
Qed.

Lemma filterKey_sort_specification_witness :
  orderBy_of "author" "asc" = None
  /\ (exists r,
        fst (findAllBooks 1 10 "price" "asc" "none" (shelf [])) = Resolved r
        /\ map (fun p => final_price (row p)) (books r) = [12; 30]
        /\ Sorted (fun a b => Z.leb (final_price a) (final_price b) = true)
                  (map row (books r)))
  /\ (exists r,
        fst (findAllBooks 1 10 "name" "desc" "none" (shelf [])) = Resolved r
        /\ map (fun p => product_name (row p)) (books r) = ["Odes"; "Dune"]).
Proof.
  split; [|split].
  - apply (proj1 (proj2 (proj2 (proj2 (proj2
             (filterKey_sort_specification (shelf []) 1 10 "author" "asc"
                "none")))))); discriminate.
  - eexists. split; [reflexivity|]. split; [reflexivity|].
    destruct (proj1 (proj2 (proj2 (proj2 (proj2 (proj2 (proj2
               (filterKey_sort_specification (shelf []) 1 10 "price" "asc"
                  "none"))))))) _ ltac:(lia) eq_refl) as (le & D & S).
    injection D as <-. exact S.
  - eexists. split; reflexivity.
Defined.

(** C7 as stated fails: ['name'] does not sort by [title].  [createBook]
    writes the title it is given into [title] and leaves [product_name] to
    its default; listed by name, the new book "Ulysses" comes before
    "Dune" and "Odes". *)
Lemma name_filter_ignores_title :
  (exists r,
      fst (findAllBooks 1 10 "name" "asc" "none"
             (snd (createBook (new_book "c1" None) None (shelf []))))
      = Resolved r
      /\ map (fun p => title (row p)) (books r) = ["Ulysses"; "Dune"; "Odes"])
  /\ ~ name_sorts_by_title.
Proof.
  split; [eexists; split; reflexivity|].
  intros H.
  specialize (H (snd (createBook (new_book "c1" None) None (shelf [])))
                1 10 "none" _ ltac:(lia) eq_refl).
  vm_compute in H.
  apply Sorted_inv in H. destruct H as [_ Hd].
  apply HdRel_inv in Hd. discriminate Hd.
Qed.

(** ** softDeleteBook and deleteBook *)

(** C9. With a unique key, for the id of a row of the table and a store
    that answers: [softDeleteBook] resolves; afterwards [findBook] on that
    id rejects with NotFound, no page of [findAllBooks] carries the id, and
    a row with the id is still in the table.  [deleteBook] resolves and
    leaves no row with the id in the table. *)
Theorem softDelete_hides_hardDelete_removes (w : World) (i : string) (b : Book) :
  unique_ids w ->
  In b (book_table w) -> id b = i ->
  fault_at 0 w = false ->
  (exists b', fst (softDeleteBook i w) = Resolved b'
              /\ id b' = i /\ deleted_at b' = Some (clock w))
  /\ (fault_at 1 w = false ->
      fst (findBook i (snd (softDeleteBook i w)))
      = Rejected (NotFoundException "Book not found!"))
  /\ (forall page perPage filter sortOrder categoryId r p,
        fst (findAllBooks page perPage filter sortOrder categoryId
               (snd (softDeleteBook i w))) = Resolved r ->
        In p (books r) -> id (row p) <> i)
  /\ (exists b', In b' (book_table (snd (softDeleteBook i w))) /\ id b' = i)
  /\ (exists b', fst (deleteBook i w) = Resolved b')
  /\ (forall b', In b' (book_table (snd (deleteBook i w))) -> id b' <> i).
Proof.
  intros U Hin Hid F.
  rewrite softDeleteBook_eq, deleteBook_eq by assumption.
  destruct (update_row_found i (set_deleted_at (clock w)) _ b Hin Hid)
    as (b0 & rows' & Hu & Hb0 & Hid0).
  destruct (delete_row_found i _ b Hin Hid) as (b1 & rows1 & Hd).
  rewrite Hu, Hd. cbn [fst snd].
  pose proof (update_row_deleted i (clock w) _ _ _ U Hu) as Hdel.
  destruct (update_row_ids i (set_deleted_at (clock w)) _ _ _
              (fun x => eq_refl) Hu) as (Hids & Hin' & Hid').
  split; [|split; [|split; [|split; [|split]]]].
  - exists (set_deleted_at (clock w) b0). auto.
  - intros F1. rewrite findBook_eq.
    change (fault_at 0 (set_book_table rows' (answered w)))
      with (fault_at 0 (answered w)).
    rewrite fault_at_answered, F1.
    change (book_table (set_book_table rows' (answered w))) with rows'.
    rewrite find_all_false; [reflexivity|].
    intros x Hx.
    destruct (matches (mkWhere (Some i) true None) x) eqn:M; [|reflexivity].
    apply matches_id_active in M. destruct M as [Hxi Hact].
    rewrite (Hdel x Hx Hxi) in Hact. discriminate.
  - intros page perPage filter sortOrder categoryId r p H Hp Hpi.
    destruct (findAllBooks_rows_active _ _ _ _ _ _ _ _ H Hp) as [Hrow Hact].
    change (book_table (set_book_table rows' (answered w))) with rows' in Hrow.
    rewrite (Hdel _ Hrow Hpi) in Hact. discriminate.
  - exists (set_deleted_at (clock w) b0). auto.
  - eauto.
  - change (book_table (set_book_table rows1 (answered w))) with rows1.
    exact (delete_row_gone i _ _ _ U Hd).
Qed.

Lemma softDelete_hides_hardDelete_removes_witness :
  fst (findBook "b1" (snd (softDeleteBook "b1" (shelf []))))
  = Rejected (NotFoundException "Book not found!")
  /\ (exists b', In b' (book_table (snd (softDeleteBook "b1" (shelf []))))
                 /\ id b' = "b1")
  /\ (forall b', In b' (book_table (snd (deleteBook "b1" (shelf []))))
                 -> id b' <> "b1").
Proof.
  destruct (softDelete_hides_hardDelete_removes (shelf []) "b1" dune
              (shelf_unique_ids []) (or_introl eq_refl) eq_refl eq_refl)
    as (_ & Hfind & _ & Hstill & _ & Hgone).
  split; [exact (Hfind eq_refl) | split; assumption].
Defined.

(** ** createBook *)

Lemma createBook_blocks (bookData : CreateBookDto) (bookImage : option MulterFile)
    (w : World) :
  createBook bookData bookImage w =
  match save_image bookImage w with
  | (Resolved imageUrl, w') => verify_and_insert bookData imageUrl w'
  | (Rejected e, w') => (Rejected e, w')
  end.
Proof. reflexivity. Qed.

(** *** The disk *)

Lemma location_eqb_eq (a b : Location) : location_eqb a b = true <-> a = b.
Proof.
  revert b. induction a as [|x a IH]; intros [|y b]; simpl; split;
    try easy.
  - intros H. apply andb_true_iff in H. destruct H as [H1 H2].
    apply String.eqb_eq in H1. apply IH in H2. congruence.
  - intros [= -> ->]. rewrite String.eqb_refl. now apply IH.
Qed.

Lemma location_eqb_refl (a : Location) : location_eqb a a = true.
Proof. now apply location_eqb_eq. Qed.

Lemma read_file_written (l : Location) (data : list byte)
    (files : list (Location * list byte)) :
  read_file l ((l, data) :: files) = Some data.
Proof. unfold read_file. simpl. now rewrite location_eqb_refl. Qed.

Lemma read_file_elsewhere (l l' : Location) (data : list byte)
    (files : list (Location * list byte)) :
  l' <> l ->
  read_file l'
    ((l, data) :: filter (fun f => negb (location_eqb l (fst f))) files)
  = read_file l' files.
Proof.
  intros N. unfold read_file. simpl.
  destruct (location_eqb l' l) eqn:E;
    [apply location_eqb_eq in E; contradiction|].
  f_equal. induction files as [|f files IH]; simpl; [reflexivity|].
  destruct (location_eqb l (fst f)) eqn:E1; simpl.
  - apply location_eqb_eq in E1. rewrite <- E1, E. exact IH.
  - destruct (location_eqb l' (fst f)); [reflexivity | exact IH].
Qed.

Lemma same_but_disk_refl (w : World) : same_but_disk w w.
Proof. repeat split. Qed.

Lemma same_but_disk_trans (w1 w2 w3 : World) :
  same_but_disk w1 w2 -> same_but_disk w2 w3 -> same_but_disk w1 w3.
Proof. unfold same_but_disk. intuition congruence. Qed.

Lemma same_but_disk_fault_at (w w' : World) :
  same_but_disk w w' -> forall n, fault_at n w' = fault_at n w.
Proof.
  intros (_ & _ & _ & F & _) n. unfold fault_at. now rewrite F.
Qed.

(** [fs.mkdirSync] touches nothing but the directories, and nothing at all
    when it throws. *)
Lemma fs_mkdirSync_outcome (path : string) (w : World) :
  same_but_disk w (snd (fs_mkdirSync path w))
  /\ disk_files (snd (fs_mkdirSync path w)) = disk_files w
  /\ forall e, fst (fs_mkdirSync path w) = Rejected e ->
       (exists m, e = Error m) /\ snd (fs_mkdirSync path w) = w.
Proof.
  unfold fs_mkdirSync.
  destruct (mkdir_fault w);
    [|destruct (is_file w (locate path));
      [|destruct (existsb (is_file w) (ancestry (locate path)))]];
    cbn [fst snd];
    (split; [repeat split | split; [reflexivity|]]);
    intros e E; try discriminate E; injection E as <-; eauto.
Qed.

(** [fs.writeFileSync] touches nothing but the files, and nothing at all
    when it throws; when it returns, the file at the place of the path
    holds the data, and the files at the other places are as before. *)
Lemma fs_writeFileSync_outcome (path : string) (data : list byte) (w : World) :
  same_but_disk w (snd (fs_writeFileSync path data w))
  /\ disk_dirs (snd (fs_writeFileSync path data w)) = disk_dirs w
  /\ (forall e, fst (fs_writeFileSync path data w) = Rejected e ->
        (exists m, e = Error m) /\ snd (fs_writeFileSync path data w) = w)
  /\ (forall u, fst (fs_writeFileSync path data w) = Resolved u ->
        read_file (locate path)
          (disk_files (snd (fs_writeFileSync path data w))) = Some data
        /\ forall l, l <> locate path ->
             read_file l (disk_files (snd (fs_writeFileSync path data w)))
             = read_file l (disk_files w)).
Proof.
  unfold fs_writeFileSync.
  destruct (write_fault w);
    [|destruct (trailingSeparator path || is_directory w (locate path));
      [|destruct (existsb (is_file w) (ancestry (removelast (locate path))));
        [|destruct (negb (is_directory w (removelast (locate path))))]]];
    cbn [fst snd];
    (split; [repeat split | split; [reflexivity|split]]);
    try (intros e E; try discriminate E; injection E as <-; now eauto).
  intros u _. cbn [disk_files set_disk_files]. split.
  - apply read_file_written.
  - intros l N. now apply read_file_elsewhere.
Qed.

(** The upload block of [createBook], step by step. *)
Lemma save_image_eq (file : MulterFile) (w : World) :
  save_image (Some file) w =
  match (if upload_dir_exists w then (Resolved tt, w)
         else fs_mkdirSync (uploadPath w) w) with
  | (Resolved _, w1) =>
      match fs_writeFileSync (path_join [uploadPath w; originalname file])
                             (buffer file) w1 with
      | (Resolved _, w2) => (Resolved (Some (originalname file)), w2)
      | (Rejected e, w2) => (Rejected e, w2)
      end
  | (Rejected e, w1) => (Rejected e, w1)
  end.
Proof.
  unfold save_image, bind, fs_existsSync, ret, upload_dir_exists, uploadPath.
  cbn [fst snd].
  destruct (is_directory w (locate (upload_path (dirname w)))
            || is_file w (locate (upload_path (dirname w)))); reflexivity.
Qed.

(** What the upload block does: it touches nothing but the disk; when it
    throws, the error is the one of [fs] and no file has changed; when it
    goes through, the image reference is the original name, the file at
    [path.join(uploadPath, originalname)] holds the uploaded bytes and the
    files at the other places are as before; without an image it does
    nothing. *)
Lemma save_image_outcome (bookImage : option MulterFile) (w : World) :
  same_but_disk w (snd (save_image bookImage w))
  /\ (forall e, fst (save_image bookImage w) = Rejected e ->
        (exists m, e = Error m)
        /\ disk_files (snd (save_image bookImage w)) = disk_files w)
  /\ (forall imageUrl, fst (save_image bookImage w) = Resolved imageUrl ->
        imageUrl = option_map originalname bookImage)
  /\ match bookImage with
     | None => snd (save_image bookImage w) = w
     | Some file =>
         forall imageUrl, fst (save_image bookImage w) = Resolved imageUrl ->
         read_file (locate (path_join [uploadPath w; originalname file]))
           (disk_files (snd (save_image bookImage w)))
         = Some (buffer file)
         /\ forall l,
              l <> locate (path_join [uploadPath w; originalname file]) ->
              read_file l (disk_files (snd (save_image bookImage w)))
              = read_file l (disk_files w)
     end.
Proof.
  destruct bookImage as [file|].
  2:{ cbn [save_image ret fst snd option_map].
      repeat split; try discriminate. now intros u [= <-]. }
  rewrite save_image_eq.
  set (target := path_join [uploadPath w; originalname file]).
  assert (M : exists r1 w1,
            (if upload_dir_exists w then (Resolved tt, w)
             else fs_mkdirSync (uploadPath w) w) = (r1, w1)
            /\ same_but_disk w w1 /\ disk_files w1 = disk_files w
            /\ forall e, r1 = Rejected e -> exists m, e = Error m).
  { destruct (upload_dir_exists w).
    - exists (Resolved tt), w. repeat split. discriminate.
    - destruct (fs_mkdirSync_outcome (uploadPath w) w) as (S & Fi & Rj).
      destruct (fs_mkdirSync (uploadPath w) w) as [r1 w1].
      exists r1, w1. cbn [fst snd] in *.
      split; [reflexivity | split; [exact S | split; [exact Fi|]]].
      intros e ->. apply (Rj e eq_refl). }
  destruct M as (r1 & w1 & -> & S1 & F1 & R1).
  destruct r1 as [[]|e1].
  2:{ cbn [fst snd]. split; [exact S1|].
      split; [intros e [= <-]; split; [now apply R1 | exact F1]|].
      split; intros u H; discriminate H. }
  destruct (fs_writeFileSync_outcome target (buffer file) w1)
    as (S2 & D2 & Rj2 & Rs2).
  destruct (fs_writeFileSync target (buffer file) w1) as [[[]|e2] w2];
    cbn [fst snd] in *.
  - split; [exact (same_but_disk_trans _ _ _ S1 S2)|].
    split; [intros e H; discriminate H|].
    split; [now intros u [= <-]|].
    intros u _. destruct (Rs2 tt eq_refl) as [A B].
    split; [exact A|]. intros l N. now rewrite (B l N), F1.
  - destruct (Rj2 e2 eq_refl) as [Hm ->]. split; [exact S1|].
    split; [intros e [= <-]; auto|].
    split; intros u H; discriminate H.
Qed.

Lemma save_image_tables (bookImage : option MulterFile) (w : World) :
  book_table (snd (save_image bookImage w)) = book_table w
  /\ category_table (snd (save_image bookImage w)) = category_table w
  /\ id_seed (snd (save_image bookImage w)) = id_seed w
  /\ (forall n, fault_at n (snd (save_image bookImage w)) = fault_at n w)
  /\ final_price_default (snd (save_image bookImage w)) = final_price_default w
  /\ product_name_default (snd (save_image bookImage w))
     = product_name_default w
  /\ uploadPath (snd (save_image bookImage w)) = uploadPath w.
Proof.
  destruct (save_image_outcome bookImage w) as (S & _).
  pose proof (same_but_disk_fault_at _ _ S) as F.
  destruct S as (A & B & C & _ & _ & D & E & G & _).
  unfold uploadPath. rewrite G. auto 10.
Qed.

(** An image that is written is in the upload directory under its name. *)
Lemma uploaded_blob (file : MulterFile) (w : World) :
  image_saved (Some file) w ->
  save_image (Some file) w
  = (Resolved (Some (originalname file)), uploaded file w)
  /\ blob_read (originalname file) (blob_files (uploaded file w))
     = Some (buffer file).
Proof.
  intros [u H]. unfold uploaded.
  destruct (save_image_outcome (Some file) w) as (_ & _ & U & B).
  destruct (save_image_tables (Some file) w) as (_ & _ & _ & _ & _ & _ & P).
  split.
  - rewrite (surjective_pairing (save_image (Some file) w)), H.
    now rewrite (U u H).
  - unfold blob_read, blob_files. cbn [fst snd]. rewrite P.
    apply (B u H).
Qed.

(** The world in which the guarded block of [createBook] runs. *)
Lemma createBook_after_image (bookData : CreateBookDto)
    (bookImage : option MulterFile) (w : World) :
  image_saved bookImage w ->
  createBook bookData bookImage w
  = verify_and_insert bookData (option_map originalname bookImage)
      (snd (save_image bookImage w)).
Proof.
  intros [u H]. rewrite createBook_blocks.
  destruct (save_image_outcome bookImage w) as (_ & _ & U & _).
  rewrite (surjective_pairing (save_image bookImage w)), H.
  now rewrite (U u H).
Qed.

(** An image that cannot be written: the error of [fs] leaves
    [createBook] as thrown. *)
Lemma createBook_image_refused (bookData : CreateBookDto)
    (bookImage : option MulterFile) (w : World) (e : Exception) :
  fst (save_image bookImage w) = Rejected e ->
  createBook bookData bookImage w = (Rejected e, snd (save_image bookImage w))
  /\ exists m, e = Error m.
Proof.
  intros H. rewrite createBook_blocks.
  destruct (save_image_outcome bookImage w) as (_ & Rj & _).
  rewrite (surjective_pairing (save_image bookImage w)), H.
  split; [reflexivity | apply (Rj e H)].
Qed.

(** *** The guarded block *)

(** A rejected insert raises a plain client error and leaves the table as
    it was; no insert touches the files. *)
Lemma prisma_book_create_outcome (d : BookCreateInput) (w : World) :
  blob_files (snd (prisma_book_create d w)) = blob_files w
  /\ forall e, fst (prisma_book_create d w) = Rejected e ->
       (exists m, e = Error m)
       /\ book_table (snd (prisma_book_create d w)) = book_table w.
Proof.
  unfold prisma_book_create, bind. rewrite round_trip_eq.
  destruct (fault_at 0 w); cbn [fst snd].
  { split; [reflexivity|]. intros e [= <-]. eauto. }
  destruct (existsb _ (book_table (answered w))); cbn [fst snd].
  { split; [reflexivity|]. intros e [= <-]. eauto. }
  destruct (find_category _ (category_table (answered w))); cbn [fst snd].
  - destruct (match data_subCategory d with
              | Some s => is_null (find_category s (category_table (answered w)))
              | None => false
              end); cbn [fst snd].
    + split; [reflexivity|]. intros e [= <-]. eauto.
    + split; [reflexivity|]. intros e [= ].
  - split; [reflexivity|]. intros e [= <-]. eauto.
Qed.

(** The insert at the end of the guarded block: it resolves, or its error
    is wrapped. *)
Ltac insert_stage :=
  match goal with
  | |- context [prisma_book_create ?d ?w1] =>
      let B := fresh "B" in
      let R := fresh "R" in
      let T := fresh "T" in
      let m := fresh "m" in
      let e' := fresh "e'" in
      destruct (prisma_book_create_outcome d w1) as [B R];
      destruct (prisma_book_create d w1) as [[?|e'] ?]; cbn [fst snd] in *;
      [ intros [= ]
      | destruct (R e' eq_refl) as [[m ->] T]; cbn [fst snd];
        intros [= <-];
        split; [right; right; reflexivity | split; [exact B | exact T]] ]
  end.

(** How the guarded block of [createBook] can fail, and what it leaves
    untouched when it does. *)
Lemma verify_and_insert_rejected (bookData : CreateBookDto)
    (imageUrl : option string) (w : World) (e : Exception) :
  fst (verify_and_insert bookData imageUrl w) = Rejected e ->
  ((fault_at 0 w = false
    /\ find_category (categoryId bookData) (category_table w) = None
    /\ e = NotFoundException
             ("Main category with ID " ++ categoryId bookData ++ " not found"))
   \/ (exists sub,
         subCategoryId bookData = Some sub /\ sub <> ""
         /\ fault_at 0 w = false /\ fault_at 1 w = false
         /\ find_category (categoryId bookData) (category_table w) <> None
         /\ find_category sub (category_table w) = None
         /\ e = NotFoundException
                  ("Sub category with ID " ++ sub ++ " not found"))
   \/ e = InternalServerErrorException "Failed to create a new book!")
  /\ blob_files (snd (verify_and_insert bookData imageUrl w)) = blob_files w
  /\ book_table (snd (verify_and_insert bookData imageUrl w)) = book_table w.
Proof.
  unfold verify_and_insert, try_catch, bind, prisma_bookCategory_findUnique,
    bind, throw, ret, console_error.
  rewrite round_trip_eq.
  destruct (fault_at 0 w) eqn:F0; cbn [fst snd].
  { intros [= <-]. auto. }
  change (category_table (answered w)) with (category_table w).
  destruct (find_category (categoryId bookData) (category_table w)) as [c|] eqn:M.
  2:{ intros [= <-]. auto. }
  destruct (subCategoryId bookData) as [sub|] eqn:S; [|insert_stage].
  destruct (truthy (Some sub)) eqn:T; [|insert_stage].
  rewrite round_trip_eq, fault_at_answered.
  destruct (fault_at 1 w) eqn:F1; cbn [fst snd].
  { intros [= <-]. auto. }
  change (category_table (answered (answered w))) with (category_table w).
  destruct (find_category sub (category_table w)) eqn:M2; [insert_stage|].
  cbn [fst snd]. intros [= <-].
  split; [|split; reflexivity].
  right; left. exists sub. repeat split; try congruence.
  intros ->. discriminate T.
Qed.

Lemma verify_and_insert_main_missing (bookData : CreateBookDto)
    (imageUrl : option string) (w : World) :
  fault_at 0 w = false ->
  find_category (categoryId bookData) (category_table w) = None ->
  verify_and_insert bookData imageUrl w
  = (Rejected (NotFoundException
                 ("Main category with ID " ++ categoryId bookData
                    ++ " not found")),
     answered w).
Proof.
  intros F0 M.
  unfold verify_and_insert, try_catch, bind, prisma_bookCategory_findUnique,
    bind, throw.
  rewrite round_trip_eq, F0.
  change (category_table (answered w)) with (category_table w).
  now rewrite M.
Qed.

Lemma verify_and_insert_sub_missing (bookData : CreateBookDto)
    (imageUrl : option string) (w : World) (sub : string) :
  fault_at 0 w = false -> fault_at 1 w = false ->
  find_category (categoryId bookData) (category_table w) <> None ->
  subCategoryId bookData = Some sub -> sub <> "" ->
  find_category sub (category_table w) = None ->
  verify_and_insert bookData imageUrl w
  = (Rejected (NotFoundException
                 ("Sub category with ID " ++ sub ++ " not found")),
     answered (answered w)).
Proof.
  intros F0 F1 M S N M2.
  unfold verify_and_insert, try_catch, bind, prisma_bookCategory_findUnique,
    bind, throw.
  rewrite round_trip_eq, F0.
  change (category_table (answered w)) with (category_table w).
  destruct (find_category (categoryId bookData) (category_table w));
    [|contradiction].
  rewrite S. unfold truthy.
  destruct (String.eqb_spec sub "") as [E|_]; [contradiction|].
  cbn [negb]. rewrite round_trip_eq, fault_at_answered, F1.
  change (category_table (answered (answered w))) with (category_table w).
  now rewrite M2.
Qed.

(** The store fails the look-up of the main category. *)
Lemma verify_and_insert_unreachable (bookData : CreateBookDto)
    (imageUrl : option string) (w : World) :
  fault_at 0 w = true ->
  fst (verify_and_insert bookData imageUrl w)
  = Rejected (InternalServerErrorException "Failed to create a new book!").
Proof.
  intros F0.
  unfold verify_and_insert, try_catch, bind, prisma_bookCategory_findUnique,
    bind, throw.
  now rewrite round_trip_eq, F0.
Qed.

(** The store fails the look-up of the sub category. *)
Lemma verify_and_insert_sub_unreachable (bookData : CreateBookDto)
    (imageUrl : option string) (w : World) (sub : string) :
  fault_at 0 w = false -> fault_at 1 w = true ->
  find_category (categoryId bookData) (category_table w) <> None ->
  subCategoryId bookData = Some sub -> sub <> "" ->
  fst (verify_and_insert bookData imageUrl w)
  = Rejected (InternalServerErrorException "Failed to create a new book!").
Proof.
  intros F0 F1 M S N.
  unfold verify_and_insert, try_catch, bind, prisma_bookCategory_findUnique,
    bind, throw.
  rewrite round_trip_eq, F0.
  change (category_table (answered w)) with (category_table w).
  destruct (find_category (categoryId bookData) (category_table w));
    [|contradiction].
  rewrite S. unfold truthy.
  destruct (String.eqb_spec sub "") as [E|_]; [contradiction|].
  cbn [negb]. now rewrite round_trip_eq, fault_at_answered, F1.
Qed.

Ltac wrapped_insert :=
  match goal with
  | |- context [prisma_book_create ?d ?w1] =>
      let R := fresh "R" in
      let m := fresh "m" in
      let e' := fresh "e'" in
      destruct (prisma_book_create_outcome d w1) as [_ R];
      destruct (prisma_book_create d w1) as [[?|e'] ?]; cbn [fst snd] in *;
      [ reflexivity
      | destruct (R e' eq_refl) as [[m ->] _]; reflexivity ]
  end.

Ltac one_lookup :=
  match goal with
  | |- context [Nat.iter ?k answered ?w] =>
      change (Nat.iter k answered w) with (answered w)
  end.

(** Once both category checks have passed, the guarded block is the
    insert, made after the round trips of the checks, its error wrapped. *)
Lemma verify_and_insert_verified (bookData : CreateBookDto)
    (imageUrl : option string) (w : World) :
  categories_verified bookData w ->
  fst (verify_and_insert bookData imageUrl w)
  = match fst (prisma_book_create (create_input bookData imageUrl)
                 (Nat.iter (category_lookups bookData) answered w)) with
    | Resolved b => Resolved b
    | Rejected _ =>
        Rejected (InternalServerErrorException "Failed to create a new book!")
    end.
Proof.
  intros (F & M & S).
  unfold verify_and_insert, try_catch, bind, prisma_bookCategory_findUnique,
    bind, throw, ret, console_error, create_input, category_lookups in *.
  rewrite round_trip_eq.
  rewrite (F 0%nat) by (destruct (truthy (subCategoryId bookData)); lia).
  change (category_table (answered w)) with (category_table w).
  destruct (find_category (categoryId bookData) (category_table w));
    [|contradiction].
  destruct (subCategoryId bookData) as [sub|] eqn:Sb.
  - destruct (truthy (Some sub)) eqn:T.
    + rewrite round_trip_eq, fault_at_answered, (F 1%nat) by lia.
      change (category_table (answered (answered w))) with (category_table w).
      destruct (find_category sub (category_table w)) eqn:M2.
      * match goal with
        | |- context [Nat.iter ?k answered w] =>
            change (Nat.iter k answered w) with (answered (answered w))
        end.
        wrapped_insert.
      * exfalso. apply (S sub eq_refl); [|assumption].
        intros ->. discriminate T.
    + one_lookup. wrapped_insert.
  - one_lookup. wrapped_insert.
Qed.

Lemma iter_answered (k : nat) (w : World) :
  book_table (Nat.iter k answered w) = book_table w
  /\ id_seed (Nat.iter k answered w) = id_seed w
  /\ forall n, fault_at n (Nat.iter k answered w) = fault_at (k + n) w.
Proof.
  induction k as [|k (A & B & C)]; [now repeat split|].
  change (Nat.iter (S k) answered w) with (answered (Nat.iter k answered w)).
  repeat split; try assumption.
  intros n. rewrite fault_at_answered, C. f_equal. lia.
Qed.

(** The store fails the insert, or the generated id is taken. *)
Lemma verify_and_insert_insert_fails (bookData : CreateBookDto)
    (imageUrl : option string) (w : World) :
  categories_verified bookData w ->
  fault_at (category_lookups bookData) w = true
  \/ existsb (has_id (generated_id (id_seed w))) (book_table w) = true ->
  fst (verify_and_insert bookData imageUrl w)
  = Rejected (InternalServerErrorException "Failed to create a new book!").
Proof.
  intros V H. rewrite (verify_and_insert_verified _ _ _ V).
  destruct (iter_answered (category_lookups bookData) w) as (A & B & C).
  unfold prisma_book_create, bind. rewrite round_trip_eq, C, Nat.add_0_r.
  destruct (fault_at (category_lookups bookData) w); [reflexivity|].
  destruct H as [H|H]; [discriminate|].
  cbn [fst snd]. cbv zeta.
  change (book_table (answered ?x)) with (book_table x).
  change (id_seed (answered ?x)) with (id_seed x).
  now rewrite A, B, H.
Qed.

(** The rejections of [createBook] once the image, if any, is written. *)
Lemma createBook_guarded_failures (w : World) (bookData : CreateBookDto)
    (bookImage : option MulterFile) :
  image_saved bookImage w ->
  (fault_at 0 w = false ->
   find_category (categoryId bookData) (category_table w) = None ->
   fst (createBook bookData bookImage w)
   = Rejected (NotFoundException
                 ("Main category with ID " ++ categoryId bookData
                    ++ " not found")))
  /\ (forall sub,
        fault_at 0 w = false -> fault_at 1 w = false ->
        find_category (categoryId bookData) (category_table w) <> None ->
        subCategoryId bookData = Some sub -> sub <> "" ->
        find_category sub (category_table w) = None ->
        fst (createBook bookData bookImage w)
        = Rejected (NotFoundException
                      ("Sub category with ID " ++ sub ++ " not found")))
  /\ (fault_at 0 w = true ->
      fst (createBook bookData bookImage w)
      = Rejected (InternalServerErrorException "Failed to create a new book!"))
  /\ (forall sub,
        fault_at 0 w = false -> fault_at 1 w = true ->
        find_category (categoryId bookData) (category_table w) <> None ->
        subCategoryId bookData = Some sub -> sub <> "" ->
        fst (createBook bookData bookImage w)
        = Rejected (InternalServerErrorException
                      "Failed to create a new book!"))
  /\ (categories_verified bookData w ->
      fault_at (category_lookups bookData) w = true
      \/ existsb (has_id (generated_id (id_seed w))) (book_table w) = true ->
      fst (createBook bookData bookImage w)
      = Rejected (InternalServerErrorException "Failed to create a new book!"))
  /\ (forall e,
        fst (createBook bookData bookImage w) = Rejected e ->
        (find_category (categoryId bookData) (category_table w) = None
         /\ e = NotFoundException
                  ("Main category with ID " ++ categoryId bookData
                     ++ " not found"))
        \/ (exists sub,
              subCategoryId bookData = Some sub /\ sub <> ""
              /\ find_category sub (category_table w) = None
              /\ e = NotFoundException
                       ("Sub category with ID " ++ sub ++ " not found"))
        \/ e = InternalServerErrorException "Failed to create a new book!").
Proof.
  intros H. rewrite (createBook_after_image _ _ _ H).
  destruct (save_image_tables bookImage w) as (T & C & G & F & _).
  rewrite <- T, <- G, <- C, <- !F.
  assert (V : categories_verified bookData w ->
              categories_verified bookData (snd (save_image bookImage w))).
  { intros (A & B & D). unfold categories_verified. rewrite C.
    split; [intros n Hn; rewrite F; now apply A | split; assumption]. }
  split; [|split; [|split; [|split; [|split]]]].
  - intros F0 M. now rewrite verify_and_insert_main_missing.
  - intros sub F0 F1 M S N M2.
    now rewrite (verify_and_insert_sub_missing _ _ _ sub).
  - apply verify_and_insert_unreachable.
  - intros sub. apply verify_and_insert_sub_unreachable.
  - intros Hv. apply verify_and_insert_insert_fails. now apply V.
  - intros e He. apply verify_and_insert_rejected in He.
    destruct He as [[(_ & M & ->)|[(sub & S & N & _ & _ & _ & M2 & ->)| ->]] _];
      eauto 10.
Qed.

(** C8, as the code has it.  When the upload block has gone through (no image, or the
    image written): a main category that the look-up does not find makes
    [createBook] reject with its NotFoundException, and so does a supplied
    sub category that the look-up does not find, each as thrown; every
    other failure is the Internal error with the fixed message: the store
    failing the look-up of the main category, the store failing the
    look-up of the sub category, and, once both checks have passed, the
    store failing the insert or the insert violating the key; and every
    rejection is one of the two NotFound errors, raised only for a
    category that is not there, or that Internal error.  When the upload
    block throws, its error is rejected as it is, a plain error of [fs]:
    the upload comes before the [try]. *)
Theorem createBook_failures (w : World) (bookData : CreateBookDto)
    (bookImage : option MulterFile) :
  (image_saved bookImage w ->
   (fault_at 0 w = false ->
    find_category (categoryId bookData) (category_table w) = None ->
    fst (createBook bookData bookImage w)
    = Rejected (NotFoundException
                  ("Main category with ID " ++ categoryId bookData
                     ++ " not found")))
   /\ (forall sub,
         fault_at 0 w = false -> fault_at 1 w = false ->
         find_category (categoryId bookData) (category_table w) <> None ->
         subCategoryId bookData = Some sub -> sub <> "" ->
         find_category sub (category_table w) = None ->
         fst (createBook bookData bookImage w)
         = Rejected (NotFoundException
                       ("Sub category with ID " ++ sub ++ " not found")))
   /\ (fault_at 0 w = true ->
       fst (createBook bookData bookImage w)
       = Rejected (InternalServerErrorException "Failed to create a new book!"))
   /\ (forall sub,
         fault_at 0 w = false -> fault_at 1 w = true ->
         find_category (categoryId bookData) (category_table w) <> None ->
         subCategoryId bookData = Some sub -> sub <> "" ->
         fst (createBook bookData bookImage w)
         = Rejected (InternalServerErrorException
                       "Failed to create a new book!"))
   /\ (categories_verified bookData w ->
       fault_at (category_lookups bookData) w = true
       \/ existsb (has_id (generated_id (id_seed w))) (book_table w) = true ->
       fst (createBook bookData bookImage w)
       = Rejected (InternalServerErrorException "Failed to create a new book!"))
   /\ (forall e,
         fst (createBook bookData bookImage w) = Rejected e ->
         (find_category (categoryId bookData) (category_table w) = None
          /\ e = NotFoundException
                   ("Main category with ID " ++ categoryId bookData
                      ++ " not found"))
         \/ (exists sub,
               subCategoryId bookData = Some sub /\ sub <> ""
               /\ find_category sub (category_table w) = None
               /\ e = NotFoundException
                        ("Sub category with ID " ++ sub ++ " not found"))
         \/ e = InternalServerErrorException "Failed to create a new book!"))
  /\ (forall e,
        fst (save_image bookImage w) = Rejected e ->
        fst (createBook bookData bookImage w) = Rejected e
        /\ exists m, e = Error m).
Proof.
  split.
  - apply createBook_guarded_failures.
  - intros e H.
    destruct (createBook_image_refused bookData bookImage w e H) as [-> Hm].
    split; [reflexivity | exact Hm].
Qed.

Lemma createBook_failures_witness :
  fst (createBook (new_book "c7" None) None (shelf []))
  = Rejected (NotFoundException "Main category with ID c7 not found")
  /\ fst (createBook (new_book "c1" (Some "c8")) (Some cover) (shelf []))
     = Rejected (NotFoundException "Sub category with ID c8 not found")
  /\ fst (createBook (new_book "c1" None) None (shelf [true]))
     = Rejected (InternalServerErrorException "Failed to create a new book!")
  /\ fst (createBook (new_book "c1" (Some "c2")) None (shelf [false; true]))
     = Rejected (InternalServerErrorException "Failed to create a new book!")
  /\ fst (createBook (new_book "c1" None) None (shelf [false; true]))
     = Rejected (InternalServerErrorException "Failed to create a new book!")
  /\ fst (createBook (new_book "c1" None) None shelf_with_zero)
     = Rejected (InternalServerErrorException "Failed to create a new book!")
  /\ (exists m,
        fst (createBook (new_book "c1" None) (Some cover) read_only_shelf)
        = Rejected (Error m)).
Proof.
  assert (I : forall w, image_saved None w)
    by (intros w; exists None; reflexivity).
  assert (Ic : image_saved (Some cover) (shelf []))
    by (eexists; reflexivity).
  split; [|split; [|split; [|split; [|split; [|split]]]]].
  - apply (proj1 (proj1 (createBook_failures (shelf []) (new_book "c7" None)
                           None) (I _))); reflexivity.
  - apply (proj1 (proj2 (proj1 (createBook_failures (shelf [])
                                  (new_book "c1" (Some "c8")) (Some cover))
                           Ic)) "c8");
      try reflexivity; discriminate.
  - apply (proj1 (proj2 (proj2 (proj1 (createBook_failures (shelf [true])
                                         (new_book "c1" None) None)
                                  (I _))))); reflexivity.
  - apply (proj1 (proj2 (proj2 (proj2 (proj1 (createBook_failures
                                                (shelf [false; true])
                                                (new_book "c1" (Some "c2"))
                                                None)
                                         (I _))))) "c2");
      try reflexivity; discriminate.
  - apply (proj1 (proj2 (proj2 (proj2 (proj2 (proj1 (createBook_failures
                                                       (shelf [false; true])
                                                       (new_book "c1" None)
                                                       None)
                                                (I _))))))).
    + split; [|split].
      * intros n Hn. unfold category_lookups in Hn. cbn in Hn.
        destruct n; [reflexivity | lia].
      * discriminate.
      * discriminate.
    + left. reflexivity.
  - apply (proj1 (proj2 (proj2 (proj2 (proj2 (proj1 (createBook_failures
                                                       shelf_with_zero
                                                       (new_book "c1" None)
                                                       None)
                                                (I _))))))).
    + split; [|split].
      * intros n Hn. unfold category_lookups in Hn. cbn in Hn.
        destruct n; [reflexivity | lia].
      * discriminate.
      * discriminate.
    + right. reflexivity.
  - destruct (proj2 (createBook_failures read_only_shelf (new_book "c1" None)
                       (Some cover)) _ eq_refl) as [Hr Hm].
    exists "EACCES: permission denied, open"%string. exact Hr.
Defined.

(** C8 as stated fails.  On a disk that refuses the write, [createBook]
    rejects with the error of [fs.writeFileSync] itself, which is neither a
    NotFoundException nor the Internal error of the [catch] block: the
    write happens before the [try].  And a sub category id that is
    supplied but empty is not checked: with the id of no category,
    [createBook] resolves. *)
Lemma createBook_image_write_failure_unwrapped :
  fst (createBook (new_book "c1" None) (Some cover) read_only_shelf)
  = Rejected (Error "EACCES: permission denied, open")
  /\ ~ create_failures_classified
  /\ (exists b,
        fst (createBook (new_book "c1" (Some "")) None (shelf []))
        = Resolved b)
  /\ ~ supplied_sub_category_checked.
Proof.
  split; [reflexivity|]. split; [|split].
  - intros C.
    destruct (C (new_book "c1" None) (Some cover) read_only_shelf _ eq_refl)
      as [[m H]|H]; discriminate H.
  - eexists. reflexivity.
  - intros C.
    destruct (C (new_book "c1" (Some "")) None (shelf []) ""%string)
      as [m H].
    + intros n. now destruct n.
    + exists None. reflexivity.
    + discriminate.
    + reflexivity.
    + reflexivity.
    + discriminate H.
Qed.

(** C10. An image is supplied and written, and the store answers the
    look-ups: when the main category, or else a supplied sub category, is
    not found, [createBook] rejects with a NotFoundException, the category
    checks having run in the world where the file was already written; the
    file is still in the upload directory afterwards, with the uploaded
    bytes, and no row has been added. *)
Theorem createBook_image_outlives_NotFound (w : World)
    (bookData : CreateBookDto) (file : MulterFile) :
  image_saved (Some file) w ->
  fault_at 0 w = false ->
  find_category (categoryId bookData) (category_table w) = None
  \/ (exists sub,
        subCategoryId bookData = Some sub /\ sub <> ""
        /\ fault_at 1 w = false
        /\ find_category sub (category_table w) = None) ->
  (exists m, fst (createBook bookData (Some file) w)
             = Rejected (NotFoundException m))
  /\ createBook bookData (Some file) w
     = verify_and_insert bookData (Some (originalname file)) (uploaded file w)
  /\ blob_read (originalname file) (blob_files (uploaded file w))
     = Some (buffer file)
  /\ blob_read (originalname file)
       (blob_files (snd (createBook bookData (Some file) w)))
     = Some (buffer file)
  /\ book_table (snd (createBook bookData (Some file) w)) = book_table w.
Proof.
  intros Hfs F0 Hmiss.
  rewrite (createBook_after_image _ _ _ Hfs).
  change (snd (save_image (Some file) w)) with (uploaded file w).
  cbn [option_map].
  destruct (uploaded_blob file w Hfs) as [_ B].
  destruct (save_image_tables (Some file) w) as (T & C & _ & F & _).
  change (snd (save_image (Some file) w)) with (uploaded file w) in *.
  assert (R : exists m,
            fst (verify_and_insert bookData (Some (originalname file))
                   (uploaded file w)) = Rejected (NotFoundException m)).
  { destruct (find_category (categoryId bookData) (category_table w)) eqn:M.
    - destruct Hmiss as [Hm|(sub & S & N & F1 & M2)]; [discriminate|].
      eexists.
      rewrite (verify_and_insert_sub_missing _ _ _ sub);
        [reflexivity | rewrite ?F, ?C; congruence ..].
    - eexists.
      rewrite verify_and_insert_main_missing;
        [reflexivity | rewrite ?F, ?C; congruence ..]. }
  destruct R as [m R].
  destruct (verify_and_insert_rejected _ _ _ _ R) as (_ & Hb & Ht).
  repeat split; eauto; congruence.
Qed.

Lemma createBook_image_outlives_NotFound_witness :
  fst (createBook (new_book "c7" None) (Some cover) (shelf []))
  = Rejected (NotFoundException "Main category with ID c7 not found")
  /\ blob_read "cover.png"
       (blob_files (snd (createBook (new_book "c7" None) (Some cover) (shelf []))))
     = Some [x89; x50; x4e; x47]%byte
  /\ blob_read "cover.png" (blob_files (shelf [])) = None.
Proof.
  destruct (createBook_image_outlives_NotFound (shelf []) (new_book "c7" None)
              cover (ex_intro _ _ eq_refl) eq_refl (or_introl eq_refl))
    as (_ & _ & _ & Hblob & _).
  split; [reflexivity | split; [exact Hblob | reflexivity]].
Defined.

(** ** What an operation leaves in place *)

Section Frame.
Variable R : World -> World -> Prop.
Hypothesis R_refl : forall w, R w w.
Hypothesis R_trans : forall w1 w2 w3, R w1 w2 -> R w2 w3 -> R w1 w3.

Lemma keeps_ret {A} (a : A) : keeps R (ret a).
Proof. intros w. apply R_refl. Qed.

Lemma keeps_throw {A} (e : Exception) : keeps R (@throw A e).
Proof. intros w. apply R_refl. Qed.

Lemma keeps_bind {A B} (m : Async A) (k : A -> Async B) :
  keeps R m -> (forall a, keeps R (k a)) -> keeps R (bind m k).
Proof.
  intros Hm Hk w. unfold bind. specialize (Hm w).
  destruct (m w) as [[a|e] w1]; cbn [snd] in *; [|assumption].
  exact (R_trans _ _ _ Hm (Hk a w1)).
Qed.

Lemma keeps_try_catch {A} (m : Async A) (h : Exception -> Async A) :
  keeps R m -> (forall e, keeps R (h e)) -> keeps R (try_catch m h).
Proof.
  intros Hm Hh w. unfold try_catch. specialize (Hm w).
  destruct (m w) as [[a|e] w1]; cbn [snd] in *; [assumption|].
  exact (R_trans _ _ _ Hm (Hh e w1)).
Qed.

Lemma keeps_try_catch_finally_return {L A} (m : Async L)
    (h : Exception -> Async L) (fin : option L -> A) :
  keeps R m -> (forall e, keeps R (h e)) ->
  keeps R (try_catch_finally_return m h fin).
Proof.
  intros Hm Hh w. unfold try_catch_finally_return.
  pose proof (keeps_try_catch m h Hm Hh w) as H.
  now destruct (try_catch m h w) as [[l|e] w1].
Qed.

Hypothesis R_answered : forall w, R w (answered w).
Hypothesis R_console : forall w c, R w (set_console c w).
Hypothesis R_orders : forall w o, R w (set_db_orders o w).

Lemma keeps_round_trip : keeps R round_trip.
Proof.
  intros w. rewrite round_trip_eq.
  destruct (fault_at 0 w); apply R_answered.
Qed.

Lemma keeps_console_error (line : string) : keeps R (console_error line).
Proof. intros w. apply R_console. Qed.

Lemma keeps_console_log (line : string) : keeps R (console_log line).
Proof. intros w. apply R_console. Qed.

Lemma keeps_report {A} (line : string) (e : Exception) :
  keeps R (console_error line ;;; @throw A e).
Proof.
  apply keeps_bind; [apply keeps_console_error | intros _; apply keeps_throw].
Qed.

Lemma keeps_prisma_book_findUnique (q : BookWhereInput) (inc : BookInclude) :
  keeps R (prisma_book_findUnique q inc).
Proof.
  apply keeps_bind; [apply keeps_round_trip | intros _ w; apply R_refl].
Qed.

Lemma keeps_prisma_book_findMany (q : BookWhereInput) (inc : BookInclude)
    (skip take : Z) (orderBy : option OrderBy) :
  keeps R (prisma_book_findMany q inc skip take orderBy).
Proof.
  assert (D : forall rows, keeps R (store_delivers rows)).
  { intros rows w. apply R_orders. }
  apply keeps_bind; [apply keeps_round_trip | intros _].
  destruct (negb (fits_Int64 skip) || negb (fits_Int64 take));
    [apply keeps_throw|].
  destruct (skip <? 0); [apply keeps_throw|].
  destruct orderBy as [o|].
  - destruct (order_leb o); [|apply keeps_throw].
    apply keeps_bind; [intros w; apply D | intros rows w; apply R_refl].
  - apply keeps_bind; [intros w; apply D | intros rows w; apply R_refl].
Qed.

Lemma keeps_prisma_book_count (q : BookWhereInput) :
  keeps R (prisma_book_count q).
Proof.
  apply keeps_bind; [apply keeps_round_trip | intros _ w; apply R_refl].
Qed.

Lemma keeps_prisma_bookCategory_findUnique (i : string) :
  keeps R (prisma_bookCategory_findUnique i).
Proof.
  apply keeps_bind; [apply keeps_round_trip | intros _ w; apply R_refl].
Qed.

Lemma keeps_findBook (i : string) : keeps R (findBook i).
Proof.
  apply keeps_bind.
  - apply keeps_try_catch; [apply keeps_prisma_book_findUnique|].
    intros e. apply keeps_report.
  - intros [b|]; [apply keeps_ret | apply keeps_throw].
Qed.

Lemma keeps_countBooks : keeps R countBooks.
Proof.
  apply keeps_try_catch; [apply keeps_prisma_book_count|].
  intros e. apply keeps_report.
Qed.

Lemma keeps_findAllBooks (page perPage : Z)
    (filter sortOrder categoryId : string) :
  keeps R (findAllBooks page perPage filter sortOrder categoryId).
Proof.
  apply keeps_bind.
  - apply keeps_try_catch; [apply keeps_prisma_book_findMany|].
    intros e. apply keeps_report.
  - intros items. destruct (length items =? 0)%nat; [apply keeps_throw|].
    apply keeps_try_catch_finally_return.
    + apply keeps_bind; [apply keeps_countBooks | intros n; apply keeps_ret].
    + intros e. apply keeps_throw.
Qed.

(** The guarded block of [createBook], given what the insert keeps. *)
Lemma keeps_verify_and_insert (bookData : CreateBookDto)
    (imageUrl : option string) :
  (forall d, keeps R (prisma_book_create d)) ->
  keeps R (verify_and_insert bookData imageUrl).
Proof.
  intros Hc. apply keeps_try_catch.
  - apply keeps_bind; [apply keeps_prisma_bookCategory_findUnique|].
    intros [c|]; [|apply keeps_throw].
    apply keeps_bind; [|intros _; apply Hc].
    destruct (subCategoryId bookData) as [sub|]; [|apply keeps_ret].
    destruct (truthy (Some sub)); [|apply keeps_ret].
    apply keeps_bind; [apply keeps_prisma_bookCategory_findUnique|].
    intros [c'|]; [apply keeps_ret | apply keeps_throw].
  - intros [m|m|m]; [apply keeps_throw | apply keeps_report ..].
Qed.

(** The three writes that go through [try]/[catch] around one client call. *)
Lemma keeps_guarded_call {A} (m : Async A) (line : Exception -> string)
    (e' : Exception) :
  keeps R m ->
  keeps R (try_catch m (fun error => console_error (line error) ;;; throw e')).
Proof.
  intros Hm. apply keeps_try_catch; [assumption|].
  intros e. apply keeps_report.
Qed.
Lemma keeps_softDeleteBook (i : string) :
  (forall t, keeps R (prisma_book_update_deleted_at i t)) ->
  keeps R (softDeleteBook i).
Proof.
  intros H. apply keeps_guarded_call.
  apply keeps_bind; [intros w; apply R_refl | assumption].
Qed.

Lemma keeps_deleteBook (i : string) :
  keeps R (prisma_book_delete i) -> keeps R (deleteBook i).
Proof. intros H. now apply keeps_guarded_call. Qed.

Lemma keeps_updateBook {UpdateBookDto : Type}
    (patched : UpdateBookDto -> Book -> Book) (i : string)
    (bookData : UpdateBookDto) :
  keeps R (prisma_book_update i (patched bookData)) ->
  keeps R (updateBook patched i bookData).
Proof.
  intros H. apply keeps_bind; [apply keeps_console_log | intros _].
  now apply keeps_guarded_call.
Qed.

Lemma keeps_createBook (bookData : CreateBookDto)
    (bookImage : option MulterFile) :
  keeps R (save_image bookImage) ->
  (forall d, keeps R (prisma_book_create d)) ->
  keeps R (createBook bookData bookImage).
Proof.
  intros Hs Hc. apply keeps_bind; [assumption|].
  intros u. now apply keeps_verify_and_insert.
Qed.
End Frame.

(** A client call that only rewrites the Book table after its round trip. *)
Lemma keeps_table_write {A} (R : World -> World -> Prop)
    (step : World -> Completion A * World) :
  (forall w1 w2 w3, R w1 w2 -> R w2 w3 -> R w1 w3) ->
  (forall w, R w (answered w)) ->
  (forall w, R w (snd (step w))) ->
  keeps R (round_trip ;;; step).
Proof.
  intros Rt Ra Hs w. unfold bind. rewrite round_trip_eq.
  destruct (fault_at 0 w); cbn [snd]; [apply Ra|].
  exact (Rt _ _ _ (Ra w) (Hs (answered w))).
Qed.

Lemma same_store_refl (w : World) : same_store w w.
Proof. repeat split. Qed.

Lemma same_store_trans (w1 w2 w3 : World) :
  same_store w1 w2 -> same_store w2 w3 -> same_store w1 w3.
Proof.
  unfold same_store. intuition congruence.
Qed.

Lemma same_categories_and_files_trans (w1 w2 w3 : World) :
  same_categories_and_files w1 w2 -> same_categories_and_files w2 w3 ->
  same_categories_and_files w1 w3.
Proof.
  unfold same_categories_and_files. intuition congruence.
Qed.

(** X1. The three reads leave the store as it was: [findBook],
    [findAllBooks] with any arguments and [countBooks] end, whatever their
    outcome, in a world with the same Book and category tables, the same
    id generator and the same upload directory. *)
Theorem reads_leave_store (w : World) :
  (forall i, same_store w (snd (findBook i w)))
  /\ (forall page perPage filter sortOrder categoryId,
        same_store w
          (snd (findAllBooks page perPage filter sortOrder categoryId w)))
  /\ same_store w (snd (countBooks w)).
Proof.
  assert (Ra : forall w, same_store w (answered w)) by (repeat split).
  assert (Rc : forall w c, same_store w (set_console c w)) by (repeat split).
  assert (Ro : forall w o, same_store w (set_db_orders o w)) by (repeat split).
  split; [|split].
  - intros i.
    apply (keeps_findBook _ same_store_refl same_store_trans Ra Rc).
  - intros page perPage filter sortOrder categoryId.
    apply (keeps_findAllBooks _ same_store_refl same_store_trans Ra Rc Ro).
  - apply (keeps_countBooks _ same_store_refl same_store_trans Ra Rc).
Qed.

Lemma update_row_unchanged (i : string) (f : Book -> Book) (rows : list Book) :
  (forall b, In b rows -> id b <> i) -> update_row i f rows = None.
Proof.
  induction rows as [|x rows IH]; simpl; intros H; [reflexivity|].
  destruct (has_id i x) eqn:E.
  - apply has_id_true in E. now destruct (H x (or_introl eq_refl)).
  - rewrite IH; [reflexivity|]. intros b Hb. apply H. now right.
Qed.

Lemma delete_row_unchanged (i : string) (rows : list Book) :
  (forall b, In b rows -> id b <> i) -> delete_row i rows = None.
Proof.
  induction rows as [|x rows IH]; simpl; intros H; [reflexivity|].
  destruct (has_id i x) eqn:E.
  - apply has_id_true in E. now destruct (H x (or_introl eq_refl)).
  - rewrite IH; [reflexivity|]. intros b Hb. apply H. now right.
Qed.

Lemma prisma_book_update_deleted_at_eq (i : string) (t : Z) :
  prisma_book_update_deleted_at i t = prisma_book_update i (set_deleted_at t).
Proof. reflexivity. Qed.

(** The writes to the Book table leave categories and files alone. *)
Lemma prisma_book_update_frame (i : string) (f : Book -> Book) :
  keeps same_categories_and_files (prisma_book_update i f).
Proof.
  apply keeps_table_write.
  - apply same_categories_and_files_trans.
  - repeat split.
  - intros w. destruct (update_row i f (book_table w)) as [[b rows]|];
      repeat split.
Qed.

Lemma prisma_book_delete_frame (i : string) :
  keeps same_categories_and_files (prisma_book_delete i).
Proof.
  apply keeps_table_write.
  - apply same_categories_and_files_trans.
  - repeat split.
  - intros w. destruct (delete_row i (book_table w)) as [[b rows]|];
      repeat split.
Qed.

Lemma prisma_book_create_frame (d : BookCreateInput) :
  keeps same_categories_and_files (prisma_book_create d).
Proof.
  apply keeps_table_write.
  - apply same_categories_and_files_trans.
  - repeat split.
  - intros w. simpl.
    destruct (existsb _ (book_table w)); [repeat split|].
    destruct (find_category _ (category_table w)); [|repeat split].
    destruct (match data_subCategory d with
              | Some s => is_null (find_category s (category_table w))
              | None => false
              end); repeat split.
Qed.

(** X2. No write touches the category table, and only an upload touches
    the files: [softDeleteBook], [deleteBook], [updateBook] and a
    [createBook] without image leave categories, upload directory and
    files as they were, whatever their outcome; a [createBook] with an
    image leaves the categories as they were. *)
Theorem writes_leave_categories_and_files (w : World) :
  (forall i, same_categories_and_files w (snd (softDeleteBook i w)))
  /\ (forall i, same_categories_and_files w (snd (deleteBook i w)))
  /\ (forall (UpdateBookDto : Type) (patched : UpdateBookDto -> Book -> Book)
             i bookData,
        same_categories_and_files w (snd (updateBook patched i bookData w)))
  /\ (forall bookData,
        same_categories_and_files w (snd (createBook bookData None w)))
  /\ (forall bookData bookImage,
        category_table (snd (createBook bookData bookImage w))
        = category_table w).
Proof.
  assert (Rr : forall w, same_categories_and_files w w) by (repeat split).
  assert (Ra : forall w, same_categories_and_files w (answered w))
    by (repeat split).
  assert (Rc : forall w c, same_categories_and_files w (set_console c w))
    by (repeat split).
  pose proof same_categories_and_files_trans as Rt.
  split; [|split; [|split; [|split]]].
  - intros i. apply (keeps_softDeleteBook _ Rr Rt Rc).
    intros t. apply prisma_book_update_frame.
  - intros i. apply (keeps_deleteBook _ Rr Rt Rc).
    apply prisma_book_delete_frame.
  - intros U patched i bookData. apply (keeps_updateBook _ Rr Rt Rc).
    apply prisma_book_update_frame.
  - intros bookData. apply (keeps_createBook _ Rr Rt Ra Rc).
    + intros w0. apply Rr.
    + apply prisma_book_create_frame.
  - intros bookData bookImage.
    apply (keeps_createBook
             (fun w w' => category_table w' = category_table w)).
    + reflexivity.
    + intros w1 w2 w3 H1 H2. congruence.
    + reflexivity.
    + reflexivity.
    + intros w0. apply (save_image_tables bookImage w0).
    + intros d w0. apply (prisma_book_create_frame d w0).
Qed.

(** ** The primary key is kept *)

Lemma key_kept_trans (w1 w2 w3 : World) :
  key_kept w1 w2 -> key_kept w2 w3 -> key_kept w1 w3.
Proof. unfold key_kept. auto. Qed.

Lemma delete_row_ids (i : string) (rows rows' : list Book) (b' : Book) :
  NoDup (map id rows) -> delete_row i rows = Some (b', rows') ->
  NoDup (map id rows').
Proof.
  revert rows' b'.
  induction rows as [|y rows IH]; simpl; intros rows' b' ND; [discriminate|].
  apply NoDup_cons_iff in ND. destruct ND as [Hy ND].
  destruct (has_id i y).
  - now intros [= <- <-].
  - destruct (delete_row i rows) as [[b1 rows1]|] eqn:D; [|discriminate].
    intros [= <- <-]. simpl. constructor; [|now apply (IH _ _ ND eq_refl)].
    intros Hin. apply Hy. apply in_map_iff in Hin.
    destruct Hin as (x & <- & Hx). apply in_map.
    exact (delete_row_incl _ _ _ _ D x Hx).
Qed.

Lemma prisma_book_update_key (i : string) (f : Book -> Book) :
  (forall b, id (f b) = id b) -> keeps key_kept (prisma_book_update i f).
Proof.
  intros Hf. apply keeps_table_write.
  - apply key_kept_trans.
  - intros w U. exact U.
  - intros w U.
    destruct (update_row i f (book_table w)) as [[b rows]|] eqn:E;
      [|exact U].
    unfold unique_ids. cbn [snd book_table set_book_table].
    now rewrite (proj1 (update_row_ids _ _ _ _ _ Hf E)).
Qed.

Lemma prisma_book_delete_key (i : string) : keeps key_kept (prisma_book_delete i).
Proof.
  apply keeps_table_write.
  - apply key_kept_trans.
  - intros w U. exact U.
  - intros w U.
    destruct (delete_row i (book_table w)) as [[b rows]|] eqn:E; [|exact U].
    exact (delete_row_ids _ _ _ _ U E).
Qed.

Lemma not_taken (i : string) (rows : list Book) :
  existsb (has_id i) rows = false -> ~ In i (map id rows).
Proof.
  intros E Hin. apply in_map_iff in Hin. destruct Hin as (b & Hb & Hin).
  assert (existsb (has_id i) rows = true); [|congruence].
  apply existsb_exists. exists b. split; [assumption|]. now apply has_id_true.
Qed.

Lemma NoDup_snoc {A} (l : list A) (x : A) :
  NoDup l -> ~ In x l -> NoDup (l ++ [x]).
Proof.
  intros ND Hx. induction l as [|y l IH]; simpl.
  - repeat constructor. intros [].
  - apply NoDup_cons_iff in ND. destruct ND as [Hy ND].
    constructor.
    + intros Hin. apply in_app_or in Hin. destruct Hin as [Hin|[->|[]]].
      * contradiction.
      * apply Hx. now left.
    + apply IH; [assumption|]. intros Hin. apply Hx. now right.
Qed.

Lemma prisma_book_create_key (d : BookCreateInput) :
  keeps key_kept (prisma_book_create d).
Proof.
  apply keeps_table_write.
  - apply key_kept_trans.
  - intros w U. exact U.
  - intros w U. cbv zeta.
    destruct (existsb (has_id (generated_id (id_seed w))) (book_table w)) eqn:E;
      [exact U|].
    destruct (find_category _ (category_table w)); [|exact U].
    destruct (match data_subCategory d with
              | Some s => is_null (find_category s (category_table w))
              | None => false
              end); [exact U|].
    unfold unique_ids. cbn [snd book_table set_book_table set_id_seed].
    rewrite map_app. apply NoDup_snoc; [exact U|].
    now apply not_taken.
Qed.

Lemma save_image_key (bookImage : option MulterFile) :
  keeps key_kept (save_image bookImage).
Proof.
  intros w U. unfold unique_ids.
  now rewrite (proj1 (save_image_tables bookImage w)).
Qed.

(** X3. Uniqueness of [id] in the Book table is an invariant of the
    service: from a table with a unique key, every operation, whatever its
    arguments and its outcome, ends in a table with a unique key
    ([updateBook] for a patch that leaves [id] alone). *)
Theorem unique_ids_invariant (w : World) :
  unique_ids w ->
  (forall i, unique_ids (snd (findBook i w)))
  /\ (forall page perPage filter sortOrder categoryId,
        unique_ids (snd (findAllBooks page perPage filter sortOrder
                           categoryId w)))
  /\ unique_ids (snd (countBooks w))
  /\ (forall bookData bookImage,
        unique_ids (snd (createBook bookData bookImage w)))
  /\ (forall (UpdateBookDto : Type) (patched : UpdateBookDto -> Book -> Book)
             i bookData,
        (forall d b, id (patched d b) = id b) ->
        unique_ids (snd (updateBook patched i bookData w)))
  /\ (forall i, unique_ids (snd (softDeleteBook i w)))
  /\ (forall i, unique_ids (snd (deleteBook i w))).
Proof.
  intros U.
  assert (Rr : forall w, key_kept w w) by (intros w0 H; exact H).
  assert (Ra : forall w, key_kept w (answered w)) by (intros w0 H; exact H).
  assert (Rc : forall w c, key_kept w (set_console c w))
    by (intros w0 c H; exact H).
  assert (Ro : forall w o, key_kept w (set_db_orders o w))
    by (intros w0 o H; exact H).
  pose proof key_kept_trans as Rt.
  repeat split.
  - intros i. now apply (keeps_findBook _ Rr Rt Ra Rc).
  - intros page perPage filter sortOrder categoryId.
    now apply (keeps_findAllBooks _ Rr Rt Ra Rc Ro).
  - now apply (keeps_countBooks _ Rr Rt Ra Rc).
  - intros bookData bookImage.
    apply (keeps_createBook _ Rr Rt Ra Rc bookData bookImage);
      [apply save_image_key | apply prisma_book_create_key | exact U].
  - intros T patched i bookData Hid.
    apply (keeps_updateBook _ Rr Rt Rc patched i bookData); [|exact U].
    apply prisma_book_update_key. apply Hid.
  - intros i. apply (keeps_softDeleteBook _ Rr Rt Rc i); [|exact U].
    intros t. now apply prisma_book_update_key.
  - intros i. apply (keeps_deleteBook _ Rr Rt Rc i); [|exact U].
    apply prisma_book_delete_key.
Qed.

Lemma unique_ids_invariant_witness :
  unique_ids (snd (createBook (new_book "c1" None) (Some cover) (shelf [])))
  /\ map id (book_table
               (snd (createBook (new_book "c1" None) (Some cover) (shelf []))))
     = ["b1"; "b2"; "b3"; "0"]
  /\ unique_ids (snd (deleteBook "b2" (shelf []))).
Proof.
  destruct (unique_ids_invariant (shelf []) (shelf_unique_ids []))
    as (_ & _ & _ & Hc & _ & _ & Hd).
  split; [apply Hc | split; [reflexivity | apply Hd]].
Defined.

(** ** Errors of the store never leave the service as they are *)

Lemma guarded_call_rejects {A} (m : Async A) (line : Exception -> string)
    (e' e : Exception) (w : World) :
  fst (try_catch m (fun error => console_error (line error) ;;; throw e') w)
  = Rejected e ->
  e = e'.
Proof.
  unfold try_catch, bind, console_error, throw.
  destruct (m w) as [[a|e0] w1]; cbn [fst]; congruence.
Qed.

(** X4. Apart from [createBook], an operation that fails fails with one
    of its own exceptions and fixed messages: [findBook] with NotFound
    'Book not found!' or its Internal error, [findAllBooks] with NotFound
    'No product was found!' or its Internal error, and [countBooks],
    [updateBook], [softDeleteBook] and [deleteBook] with their Internal
    error only; the error raised by the client is never passed on. *)
Theorem rejections_are_wrapped (w : World) :
  (forall i e, fst (findBook i w) = Rejected e ->
     e = NotFoundException "Book not found!"
     \/ e = InternalServerErrorException
              "An error occurred while fetching book.")
  /\ (forall page perPage filter sortOrder categoryId e,
        fst (findAllBooks page perPage filter sortOrder categoryId w)
        = Rejected e ->
        e = NotFoundException "No product was found!"
        \/ e = InternalServerErrorException
                 "An error occurred while fetching books.")
  /\ (forall e, fst (countBooks w) = Rejected e ->
        e = InternalServerErrorException
              "An error occurred while counting books.")
  /\ (forall (UpdateBookDto : Type) (patched : UpdateBookDto -> Book -> Book)
             i bookData e,
        fst (updateBook patched i bookData w) = Rejected e ->
        e = InternalServerErrorException "Failed to update a book!")
  /\ (forall i e, fst (softDeleteBook i w) = Rejected e ->
        e = InternalServerErrorException "Failed to soft-delete a book!")
  /\ (forall i e, fst (deleteBook i w) = Rejected e ->
        e = InternalServerErrorException "Failed to hard-delete a book!").
Proof.
  repeat split.
  - intros i e. rewrite findBook_eq.
    destruct (fault_at 0 w); [intros [= <-]; auto|].
    destruct (find _ (book_table w)); [discriminate | intros [= <-]; auto].
  - intros page perPage filter sortOrder categoryId e.
    rewrite findAllBooks_eq.
    destruct (fault_at 0 w); [intros [= <-]; auto|].
    destruct (listed_rows w page perPage filter sortOrder categoryId)
      as [rows|]; [|intros [= <-]; auto].
    destruct (length rows =? 0)%nat; [intros [= <-]; auto|].
    cbv zeta. destruct (fault_at 1 w); discriminate.
  - intros e. rewrite countBooks_eq.
    destruct (fault_at 0 w); cbn [fst]; [now intros [= <-] | discriminate].
  - intros T patched i bookData e. unfold updateBook.
    unfold bind at 1. unfold console_log. apply guarded_call_rejects.
  - intros i e. apply guarded_call_rejects.
  - intros i e. apply guarded_call_rejects.
Qed.

Lemma rejections_are_wrapped_witness :
  fst (softDeleteBook "b9" (shelf []))
  = Rejected (InternalServerErrorException "Failed to soft-delete a book!")
  /\ fst (deleteBook "b1" (shelf [true]))
     = Rejected (InternalServerErrorException "Failed to hard-delete a book!")
  /\ fst (findAllBooks 0 10 "none" "asc" "none" (shelf []))
     = Rejected (InternalServerErrorException
                   "An error occurred while fetching books.").
Proof.
  destruct (rejections_are_wrapped (shelf [])) as (_ & Hl & _ & _ & Hs & _).
  destruct (rejections_are_wrapped (shelf [true])) as (_ & _ & _ & _ & _ & Hd).
  split; [|split].
  - destruct (fst (softDeleteBook "b9" (shelf []))) as [b|e] eqn:E;
      [discriminate E|].
    now rewrite (Hs "b9" e E).
  - destruct (fst (deleteBook "b1" (shelf [true]))) as [b|e] eqn:E;
      [discriminate E|].
    now rewrite (Hd "b1" e E).
  - destruct (fst (findAllBooks 0 10 "none" "asc" "none" (shelf [])))
      as [r|e] eqn:E; [discriminate E|].
    destruct (Hl 0 10 "none" "asc" "none" e E) as [-> | ->];
      [discriminate E | reflexivity].
Defined.

(** ** Writing to an id that no row has *)

(** X5. When no row of the table has the id, [updateBook],
    [softDeleteBook] and [deleteBook] fail with their Internal error, as
    for any other failure of the store, and the table is as it was;
    [findBook] does not resolve. *)
Theorem missing_id_is_Internal (w : World) (i : string) :
  (forall b, In b (book_table w) -> id b <> i) ->
  (forall (UpdateBookDto : Type) (patched : UpdateBookDto -> Book -> Book)
          bookData,
     fst (updateBook patched i bookData w)
     = Rejected (InternalServerErrorException "Failed to update a book!")
     /\ book_table (snd (updateBook patched i bookData w)) = book_table w)
  /\ fst (softDeleteBook i w)
     = Rejected (InternalServerErrorException "Failed to soft-delete a book!")
  /\ book_table (snd (softDeleteBook i w)) = book_table w
  /\ fst (deleteBook i w)
     = Rejected (InternalServerErrorException "Failed to hard-delete a book!")
  /\ book_table (snd (deleteBook i w)) = book_table w
  /\ forall p, fst (findBook i w) <> Resolved p.
Proof.
  intros Hnone. repeat split.
  - unfold updateBook, try_catch, bind, console_log, prisma_book_update, bind.
    rewrite round_trip_eq.
    destruct (fault_at 0 (set_console (console w ++ [i]) w)); [reflexivity|].
    cbn [book_table set_console answered set_db_faults].
    now rewrite (update_row_unchanged _ _ _ Hnone).
  - unfold updateBook, try_catch, bind, console_log, prisma_book_update, bind.
    rewrite round_trip_eq.
    destruct (fault_at 0 (set_console (console w ++ [i]) w)); [reflexivity|].
    cbn [book_table set_console answered set_db_faults].
    now rewrite (update_row_unchanged _ _ _ Hnone).
  - unfold softDeleteBook, try_catch, bind, new_Date,
      prisma_book_update_deleted_at, bind.
    rewrite round_trip_eq. destruct (fault_at 0 w); [reflexivity|].
    cbn [book_table answered set_db_faults].
    now rewrite (update_row_unchanged _ _ _ Hnone).
  - unfold softDeleteBook, try_catch, bind, new_Date,
      prisma_book_update_deleted_at, bind.
    rewrite round_trip_eq. destruct (fault_at 0 w); [reflexivity|].
    cbn [book_table answered set_db_faults].
    now rewrite (update_row_unchanged _ _ _ Hnone).
  - unfold deleteBook, try_catch, bind, prisma_book_delete, bind.
    rewrite round_trip_eq. destruct (fault_at 0 w); [reflexivity|].
    cbn [book_table answered set_db_faults].
    now rewrite (delete_row_unchanged _ _ Hnone).
  - unfold deleteBook, try_catch, bind, prisma_book_delete, bind.
    rewrite round_trip_eq. destruct (fault_at 0 w); [reflexivity|].
    cbn [book_table answered set_db_faults].
    now rewrite (delete_row_unchanged _ _ Hnone).
  - intros p. rewrite findBook_eq. destruct (fault_at 0 w); [discriminate|].
    rewrite find_all_false; [discriminate|].
    intros b Hb.
    destruct (matches (mkWhere (Some i) true None) b) eqn:M; [|reflexivity].
    apply matches_id_active in M. now destruct (Hnone b Hb (proj1 M)).
Qed.

Lemma missing_id_is_Internal_witness :
  fst (softDeleteBook "b9" (shelf []))
  = Rejected (InternalServerErrorException "Failed to soft-delete a book!")
  /\ book_table (snd (deleteBook "b9" (shelf []))) = [dune; odes; emma].
Proof.
  assert (H : forall b, In b (book_table (shelf [])) -> id b <> "b9").
  { simpl. intros b [<-|[<-|[<-|[]]]]; discriminate. }
  destruct (missing_id_is_Internal (shelf []) "b9" H)
    as (_ & Hs & _ & _ & Hd & _).
  split; [exact Hs | exact Hd].
Defined.

(** ** What a write changes *)

Lemma key_row (rows : list Book) (b x : Book) :
  NoDup (map id rows) -> In b rows -> In x rows -> id x = id b -> x = b.
Proof.
  intros ND Hb Hx E. induction rows as [|y rows IH]; simpl in *; [contradiction|].
  apply NoDup_cons_iff in ND. destruct ND as [Hy ND].
  destruct Hb as [->|Hb], Hx as [->|Hx]; auto.
  - exfalso. apply Hy. rewrite <- E. now apply in_map.
  - exfalso. apply Hy. rewrite E. now apply in_map.
Qed.

(** Under a unique key, an update replaces the one row with the id. *)
Lemma update_row_key (f : Book -> Book) (rows : list Book) (b : Book) :
  (forall x, id (f x) = id x) ->
  NoDup (map id rows) -> In b rows ->
  exists rows',
    update_row (id b) f rows = Some (f b, rows')
    /\ In (f b) rows'
    /\ length rows' = length rows
    /\ (forall x, id x <> id b -> In x rows' -> In x rows)
    /\ (forall x, id x <> id b -> In x rows -> In x rows')
    /\ (forall p : Book -> bool,
          (length (List.filter p rows') + (if p b then 1 else 0)
           = length (List.filter p rows) + (if p (f b) then 1 else 0))%nat).
Proof.
  intros Hf ND Hb.
  induction rows as [|y rows IH]; simpl in *; [contradiction|].
  destruct (has_id (id b) y) eqn:E.
  - apply has_id_true in E.
    assert (y = b) as -> by (apply (key_row (y :: rows)); simpl; auto).
    exists (f b :: rows). simpl. repeat split; auto.
    + intros x Hx [<-|H]; auto. now destruct (Hx (Hf b)).
    + intros x Hx [<-|H]; [contradiction | auto].
    + intros p. destruct (p b), (p (f b)); simpl; lia.
  - apply NoDup_cons_iff in ND. destruct ND as [Hy ND].
    destruct Hb as [->|Hb].
    { unfold has_id in E. rewrite String.eqb_refl in E. discriminate. }
    destruct (IH ND Hb) as (rows' & -> & H1 & H2 & H3 & H4 & H5).
    exists (y :: rows'). simpl. repeat split; auto.
    + intros x Hx [->|H]; auto.
    + intros x Hx [->|H]; auto.
    + intros p. specialize (H5 p). destruct (p y); simpl; lia.
Qed.

(** Under a unique key, a delete removes the one row with the id. *)
Lemma delete_row_key (rows : list Book) (b : Book) :
  NoDup (map id rows) -> In b rows ->
  exists rows',
    delete_row (id b) rows = Some (b, rows')
    /\ (length rows' + 1 = length rows)%nat
    /\ (forall x, In x rows' -> In x rows /\ id x <> id b)
    /\ (forall x, id x <> id b -> In x rows -> In x rows')
    /\ (forall p : Book -> bool,
          (length (List.filter p rows') + (if p b then 1 else 0)
           = length (List.filter p rows))%nat).
Proof.
  intros ND Hb. induction rows as [|y rows IH]; simpl in *; [contradiction|].
  destruct (has_id (id b) y) eqn:E.
  - apply has_id_true in E.
    assert (y = b) as -> by (apply (key_row (y :: rows)); simpl; auto).
    apply NoDup_cons_iff in ND. destruct ND as [Hy ND].
    exists rows. repeat split; auto.
    + lia.
    + intros Hid. apply Hy. rewrite <- Hid. now apply in_map.
    + intros x Hx [<-|H]; [contradiction | auto].
    + intros p. destruct (p b); simpl; lia.
  - apply NoDup_cons_iff in ND. destruct ND as [Hy ND].
    destruct Hb as [->|Hb].
    { unfold has_id in E. rewrite String.eqb_refl in E. discriminate. }
    destruct (IH ND Hb) as (rows' & -> & H1 & H2 & H3 & H4).
    exists (y :: rows'). simpl. repeat split; auto.
    + destruct H as [<-|H]; [now left | right; now apply H2].
    + destruct H as [<-|H]; [|now apply H2].
      intros Hid. apply has_id_true in Hid. congruence.
    + intros x Hx [->|H]; auto.
    + intros p. specialize (H4 p). destruct (p y); simpl; lia.
Qed.

(** X6. With a unique key and a store that answers, [softDeleteBook] on
    the id of a row [b], active or already soft-deleted, resolves to [b]
    with [deleted_at] set to the current time; the table keeps its length,
    the rows with another id are the same as before, and [countBooks]
    afterwards is one less than before when [b] was active and the same
    when it was already soft-deleted. *)
Theorem softDeleteBook_effect (w : World) (b : Book) :
  unique_ids w -> In b (book_table w) ->
  fault_at 0 w = false ->
  fst (softDeleteBook (id b) w) = Resolved (set_deleted_at (clock w) b)
  /\ In (set_deleted_at (clock w) b)
        (book_table (snd (softDeleteBook (id b) w)))
  /\ length (book_table (snd (softDeleteBook (id b) w)))
     = length (book_table w)
  /\ (forall x, id x <> id b ->
        (In x (book_table (snd (softDeleteBook (id b) w)))
         <-> In x (book_table w)))
  /\ (fault_at 1 w = false ->
      exists n n',
        fst (countBooks w) = Resolved n
        /\ fst (countBooks (snd (softDeleteBook (id b) w))) = Resolved n'
        /\ n' = n - (if active b then 1 else 0)).
Proof.
  intros U Hb F0. rewrite softDeleteBook_eq by assumption.
  destruct (update_row_key (set_deleted_at (clock w)) _ b
              (fun x => eq_refl) U Hb)
    as (rows' & -> & H1 & H2 & H3 & H4 & H5).
  cbn [fst snd]. change (book_table (set_book_table rows' (answered w)))
    with rows'.
  repeat split; auto.
  intros F1. rewrite !countBooks_eq.
  change (fault_at 0 (set_book_table rows' (answered w)))
    with (fault_at 0 (answered w)).
  rewrite fault_at_answered, F0, F1. cbn [fst].
  change (book_table (set_book_table rows' (answered w))) with rows'.
  do 2 eexists. split; [reflexivity|]. split; [reflexivity|].
  specialize (H5 active). unfold active at 4 in H5. simpl in H5.
  destruct (active b); lia.
Qed.

Lemma softDeleteBook_effect_witness :
  fst (softDeleteBook "b3" (shelf []))
  = Resolved (mkBook "b3" "Emma" "Emma" "Austen" None "c1" None 20 (Some 1000))
  /\ fst (countBooks (snd (softDeleteBook "b3" (shelf [])))) = Resolved 2
  /\ fst (countBooks (snd (softDeleteBook "b1" (shelf [])))) = Resolved 1.
Proof.
  destruct (softDeleteBook_effect (shelf []) emma (shelf_unique_ids [])
              (or_intror (or_intror (or_introl eq_refl))) eq_refl)
    as (He & _ & _ & _ & Hc).
  destruct (Hc eq_refl) as (n & n' & Hn & Hn' & E).
  destruct (softDeleteBook_effect (shelf []) dune (shelf_unique_ids [])
              (or_introl eq_refl) eq_refl) as (_ & _ & _ & _ & Hc1).
  destruct (Hc1 eq_refl) as (m & m' & Hm & Hm' & E1).
  split; [exact He | split].
  - change (softDeleteBook "b3" (shelf [])) with
      (softDeleteBook (id emma) (shelf [])).
    rewrite Hn', E. injection Hn as <-. reflexivity.
  - change (softDeleteBook "b1" (shelf [])) with
      (softDeleteBook (id dune) (shelf [])).
    rewrite Hm', E1. injection Hm as <-. reflexivity.
Defined.

Lemma deleteBook_missing (w : World) (i : string) :
  (forall b, In b (book_table w) -> id b <> i) ->
  fst (deleteBook i w)
  = Rejected (InternalServerErrorException "Failed to hard-delete a book!").
Proof.
  intros Hnone. unfold deleteBook, try_catch, bind, prisma_book_delete, bind.
  rewrite round_trip_eq. destruct (fault_at 0 w); [reflexivity|].
  cbn [book_table answered set_db_faults].
  now rewrite (delete_row_unchanged _ _ Hnone).
Qed.

(** X7. With a unique key and a store that answers, [deleteBook] on the
    id of a row [b] resolves to [b]; the table is one row shorter, its
    rows are the rows with another id, and [countBooks] afterwards is one
    less than before when [b] was active and the same when it was
    soft-deleted.  A second [deleteBook] of the same id fails with the
    Internal error. *)
Theorem deleteBook_effect (w : World) (b : Book) :
  unique_ids w -> In b (book_table w) ->
  fault_at 0 w = false ->
  fst (deleteBook (id b) w) = Resolved b
  /\ (length (book_table (snd (deleteBook (id b) w))) + 1
      = length (book_table w))%nat
  /\ (forall x,
        In x (book_table (snd (deleteBook (id b) w)))
        <-> In x (book_table w) /\ id x <> id b)
  /\ (fault_at 1 w = false ->
      exists n n',
        fst (countBooks w) = Resolved n
        /\ fst (countBooks (snd (deleteBook (id b) w))) = Resolved n'
        /\ n' = n - (if active b then 1 else 0))
  /\ fst (deleteBook (id b) (snd (deleteBook (id b) w)))
     = Rejected (InternalServerErrorException "Failed to hard-delete a book!").
Proof.
  intros U Hb F0. rewrite (deleteBook_eq (id b) w F0).
  destruct (delete_row_key _ b U Hb) as (rows' & -> & H1 & H2 & H3 & H4).
  cbn [fst snd]. change (book_table (set_book_table rows' (answered w)))
    with rows'.
  split; [reflexivity|]. split; [assumption|]. split; [|split].
  - intros x. split; [apply H2|]. intros [Hx Hid]. now apply H3.
  - intros F1. rewrite !countBooks_eq.
    change (fault_at 0 (set_book_table rows' (answered w)))
      with (fault_at 0 (answered w)).
    rewrite fault_at_answered, F0, F1. cbn [fst].
    change (book_table (set_book_table rows' (answered w))) with rows'.
    do 2 eexists. split; [reflexivity|]. split; [reflexivity|].
    specialize (H4 active). destruct (active b); lia.
  - apply deleteBook_missing. intros x Hx. now apply H2.
Qed.

Lemma deleteBook_effect_witness :
  fst (deleteBook "b1" (shelf [])) = Resolved dune
  /\ book_table (snd (deleteBook "b1" (shelf []))) = [odes; emma]
  /\ fst (deleteBook "b1" (snd (deleteBook "b1" (shelf []))))
     = Rejected (InternalServerErrorException "Failed to hard-delete a book!").
Proof.
  destruct (deleteBook_effect (shelf []) dune (shelf_unique_ids [])
              (or_introl eq_refl) eq_refl) as (Hd & _ & _ & _ & H2).
  split; [exact Hd | split; [reflexivity | exact H2]].
Defined.

(** X8. With a patch that leaves [id] alone, a unique key and a store
    that answers, [updateBook] on the id of a row [b] logs the id and
    resolves to the patched row, whether [b] is active or soft-deleted;
    the patched row takes the place of [b], the table keeps its length and
    the rows with another id are the same as before. *)
Theorem updateBook_effect {UpdateBookDto : Type}
    (patched : UpdateBookDto -> Book -> Book) (w : World) (b : Book)
    (bookData : UpdateBookDto) :
  (forall d x, id (patched d x) = id x) ->
  unique_ids w -> In b (book_table w) ->
  fault_at 0 w = false ->
  fst (updateBook patched (id b) bookData w) = Resolved (patched bookData b)
  /\ In (patched bookData b)
        (book_table (snd (updateBook patched (id b) bookData w)))
  /\ length (book_table (snd (updateBook patched (id b) bookData w)))
     = length (book_table w)
  /\ (forall x, id x <> id b ->
        (In x (book_table (snd (updateBook patched (id b) bookData w)))
         <-> In x (book_table w)))
  /\ console (snd (updateBook patched (id b) bookData w))
     = console w ++ [id b].
Proof.
  intros Hid U Hb F0.
  destruct (update_row_key (patched bookData) _ b (Hid bookData) U Hb)
    as (rows' & E & H1 & H2 & H3 & H4 & _).
  unfold updateBook, try_catch, bind, console_log, prisma_book_update, bind.
  rewrite round_trip_eq.
  change (fault_at 0 (set_console (console w ++ [id b]) w))
    with (fault_at 0 w).
  rewrite F0.
  cbn [book_table set_console answered set_db_faults].
  rewrite E. cbn [fst snd book_table set_book_table console].
  repeat split; auto.
Qed.

Lemma updateBook_effect_witness :
  fst (updateBook retitle "b3" "Emma (2nd ed.)" (shelf []))
  = Resolved (mkBook "b3" "Emma (2nd ed.)" "Emma" "Austen" None "c1" None 20
                     (Some 100))
  /\ console (snd (updateBook retitle "b3" "Emma (2nd ed.)" (shelf [])))
     = ["b3"].
Proof.
  destruct (updateBook_effect retitle (shelf []) emma "Emma (2nd ed.)"
              (fun d x => eq_refl) (shelf_unique_ids [])
              (or_intror (or_intror (or_introl eq_refl))) eq_refl)
    as (Hu & _ & _ & _ & Hc).
  split; [exact Hu | exact Hc].
Defined.

(** ** createBook: the insert *)

Lemma find_category_In (i : string) (cs : list BookCategory) (c : BookCategory) :
  In c cs -> category_id c = i -> find_category i cs <> None.
Proof.
  intros Hin Hid E. unfold find_category in E.
  pose proof (find_none _ _ E c Hin) as H. simpl in H.
  rewrite Hid, String.eqb_refl in H. discriminate.
Qed.

Lemma prisma_book_create_resolved (d : BookCreateInput) (w : World) :
  fault_at 0 w = false ->
  existsb (has_id (generated_id (id_seed w))) (book_table w) = false ->
  find_category (data_mainCategory d) (category_table w) <> None ->
  (forall s, data_subCategory d = Some s ->
             find_category s (category_table w) <> None) ->
  prisma_book_create d w
  = (Resolved (mkBook (generated_id (id_seed w)) (data_title d)
                 (product_name_default w)
                 (data_author d) (data_image d) (data_mainCategory d)
                 (data_subCategory d) (final_price_default w) None),
     set_id_seed (S (id_seed w))
       (set_book_table
          (book_table w
             ++ [mkBook (generated_id (id_seed w)) (data_title d)
                   (product_name_default w)
                   (data_author d) (data_image d) (data_mainCategory d)
                   (data_subCategory d) (final_price_default w) None])
          (answered w))).
Proof.
  intros F0 Hfresh Hmain Hsub.
  unfold prisma_book_create, bind. rewrite round_trip_eq, F0.
  cbn [id_seed book_table category_table final_price_default
       product_name_default answered set_db_faults].
  rewrite Hfresh.
  destruct (find_category (data_mainCategory d) (category_table w));
    [|contradiction].
  destruct (data_subCategory d) as [s|]; [|reflexivity].
  specialize (Hsub s eq_refl).
  destruct (find_category s (category_table w)); [reflexivity | contradiction].
Qed.

(** The guarded block when both look-ups find their category and the
    generated id is free. *)
Lemma verify_and_insert_resolved (bookData : CreateBookDto)
    (imageUrl : option string) (w : World) :
  (forall n, fault_at n w = false) ->
  existsb (has_id (generated_id (id_seed w))) (book_table w) = false ->
  find_category (categoryId bookData) (category_table w) <> None ->
  (forall sub, subCategoryId bookData = Some sub -> sub <> "" ->
               find_category sub (category_table w) <> None) ->
  exists w',
    verify_and_insert bookData imageUrl w
    = (Resolved (mkBook (generated_id (id_seed w)) (dto_title bookData)
                   (product_name_default w)
                   (dto_author bookData)
                   (if truthy imageUrl then imageUrl else None)
                   (categoryId bookData)
                   (if truthy (subCategoryId bookData)
                    then subCategoryId bookData else None)
                   (final_price_default w) None),
       w')
    /\ book_table w'
       = book_table w
           ++ [mkBook (generated_id (id_seed w)) (dto_title bookData)
                 (product_name_default w)
                 (dto_author bookData)
                 (if truthy imageUrl then imageUrl else None)
                 (categoryId bookData)
                 (if truthy (subCategoryId bookData)
                  then subCategoryId bookData else None)
                 (final_price_default w) None]
    /\ category_table w' = category_table w
    /\ blob_files w' = blob_files w
    /\ (forall n, fault_at n w' = false).
Proof.
  intros F Hfresh Hmain Hsub.
  assert (Fa : forall n w0, (forall k, fault_at k w0 = false) ->
                            fault_at n (answered w0) = false).
  { intros n w0 H. now rewrite fault_at_answered. }
  assert (Ft : forall (l : list bool) n, nth n (tl l) false = nth (S n) l false).
  { intros [|x l] n; [now destruct n | reflexivity]. }
  assert (Fw : forall n w0 w1,
            db_faults w1 = tl (db_faults w0) ->
            (forall k, fault_at k w0 = false) -> fault_at n w1 = false).
  { intros n w0 w1 E H. unfold fault_at. rewrite E, Ft. apply H. }
  unfold verify_and_insert, try_catch, bind, prisma_bookCategory_findUnique,
    bind, throw, ret.
  rewrite round_trip_eq, (F 0%nat).
  change (category_table (answered w)) with (category_table w).
  destruct (find_category (categoryId bookData) (category_table w)) as [c|] eqn:M;
    [|contradiction].
  destruct (subCategoryId bookData) as [sub|] eqn:S.
  - destruct (truthy (Some sub)) eqn:T.
    + rewrite round_trip_eq, fault_at_answered, (F 1%nat).
      change (category_table (answered (answered w))) with (category_table w).
      assert (N : sub <> "") by (intros ->; discriminate T).
      specialize (Hsub sub eq_refl N).
      destruct (find_category sub (category_table w)) eqn:M2; [|contradiction].
      rewrite prisma_book_create_resolved.
      * eexists. split; [reflexivity|].
        repeat split. intros n.
        apply (Fw n (answered (answered w))); [reflexivity|].
        intros k. apply Fa. intros k'. now apply Fa.
      * apply Fa. intros k. now apply Fa.
      * exact Hfresh.
      * cbn [data_mainCategory category_table answered set_db_faults].
        now rewrite M.
      * cbn [data_subCategory category_table answered set_db_faults].
        intros s [= <-]. now rewrite M2.
    + rewrite prisma_book_create_resolved.
      * eexists. split; [reflexivity|].
        repeat split. intros n.
        apply (Fw n (answered w)); [reflexivity|].
        intros k. now apply Fa.
      * now apply Fa.
      * exact Hfresh.
      * cbn [data_mainCategory category_table answered set_db_faults].
        now rewrite M.
      * cbn [data_subCategory]. discriminate.
  - rewrite prisma_book_create_resolved.
    + eexists. split; [reflexivity|].
      repeat split. intros n.
      apply (Fw n (answered w)); [reflexivity|].
      intros k. now apply Fa.
    + now apply Fa.
    + exact Hfresh.
    + cbn [data_mainCategory category_table answered set_db_faults].
      now rewrite M.
    + cbn [data_subCategory]. discriminate.
Qed.

(** A fresh row at the end of the table: what the reads then see. *)
Lemma reads_after_insert (w w' : World) (b : Book) :
  unique_ids w ->
  existsb (has_id (id b)) (book_table w) = false ->
  deleted_at b = None ->
  book_table w' = book_table w ++ [b] ->
  category_table w' = category_table w ->
  (forall n, fault_at n w' = false) ->
  fst (findBook (id b) w')
  = Resolved (with_relations (mkInclude true true) (category_table w) b)
  /\ fst (countBooks w')
     = Resolved (Z.of_nat (length (List.filter active (book_table w))) + 1).
Proof.
  intros U Hfresh Hact Ht Hc F. split.
  - rewrite findBook_eq, (F 0%nat), Ht, Hc.
    rewrite (find_unique_row _ b); auto.
    + rewrite map_app. apply NoDup_snoc; [exact U | now apply not_taken].
    + apply in_or_app. right. now left.
  - rewrite countBooks_eq, (F 0%nat), Ht. cbn [fst].
    rewrite filter_app, length_app. simpl.
    unfold active at 2. rewrite Hact. simpl. f_equal. lia.
Qed.

Lemma inserted_row_eq (w : World) (bookData : CreateBookDto)
    (bookImage : option MulterFile) :
  inserted_row w bookData bookImage
  = mkBook (generated_id (id_seed w)) (dto_title bookData)
      (product_name_default w) (dto_author bookData)
      (if truthy (option_map originalname bookImage)
       then option_map originalname bookImage else None)
      (categoryId bookData)
      (if truthy (subCategoryId bookData) then subCategoryId bookData
       else None)
      (final_price_default w) None.
Proof. now destruct bookImage. Qed.

(** X9. A [createBook] that goes through.  With a unique key, a store
    that answers, an image (if any) that is written, a main category
    id that some row of the category table has (soft-deleted or not), a
    sub category, when a non-empty id is supplied, that is found, and a
    generated id that is free: [createBook] resolves to the inserted row
    and appends it to the table; [findBook] on its id then resolves to
    that row, [countBooks] is one more than before, and the file of a
    supplied image is in the upload directory. *)
Theorem createBook_inserts (w : World) (bookData : CreateBookDto)
    (bookImage : option MulterFile) (c : BookCategory) :
  unique_ids w ->
  image_saved bookImage w ->
  (forall n, fault_at n w = false) ->
  In c (category_table w) -> category_id c = categoryId bookData ->
  (forall sub, subCategoryId bookData = Some sub -> sub <> "" ->
               find_category sub (category_table w) <> None) ->
  existsb (has_id (generated_id (id_seed w))) (book_table w) = false ->
  fst (createBook bookData bookImage w)
  = Resolved (inserted_row w bookData bookImage)
  /\ book_table (snd (createBook bookData bookImage w))
     = book_table w ++ [inserted_row w bookData bookImage]
  /\ fst (findBook (generated_id (id_seed w))
            (snd (createBook bookData bookImage w)))
     = Resolved (with_relations (mkInclude true true) (category_table w)
                   (inserted_row w bookData bookImage))
  /\ (exists n,
        fst (countBooks w) = Resolved n
        /\ fst (countBooks (snd (createBook bookData bookImage w)))
           = Resolved (n + 1))
  /\ (forall file, bookImage = Some file ->
        blob_read (originalname file)
          (blob_files (snd (createBook bookData bookImage w)))
        = Some (buffer file)).
Proof.
  intros U Himg F Hc Hcid Hsub Hfresh.
  pose proof (find_category_In _ _ _ Hc Hcid) as Hmain.
  rewrite (createBook_after_image _ _ _ Himg).
  assert (Hn : fst (countBooks w)
               = Resolved (Z.of_nat (length (List.filter active (book_table w))))).
  { now rewrite countBooks_eq, (F 0%nat). }
  destruct (save_image_tables bookImage w) as (T & C & G1 & Fu & G2 & G3 & _).
  destruct (verify_and_insert_resolved bookData
              (option_map originalname bookImage)
              (snd (save_image bookImage w)))
    as (w' & E & Ht & Hcat & Hb & Fw).
  - intros n. now rewrite Fu.
  - now rewrite G1, T.
  - now rewrite C.
  - intros sub S N. rewrite C. now apply Hsub.
  - rewrite G1, G2, G3, T, <- inserted_row_eq in *. rewrite E. cbn [fst snd].
    destruct (reads_after_insert w w' (inserted_row w bookData bookImage))
      as [Hf Hcount]; auto; try congruence.
    split; [reflexivity|]. split; [exact Ht|]. split; [exact Hf|].
    split; [eauto|].
    intros file ->. rewrite Hb. now apply uploaded_blob.
Qed.

Lemma shelf_answers (w : World) :
  db_faults w = [] -> forall n, fault_at n w = false.
Proof. intros E n. unfold fault_at. rewrite E. now destruct n. Qed.

Lemma createBook_inserts_witness :
  fst (createBook (new_book "c3" (Some "")) (Some cover) shelf_with_drama)
  = Resolved (mkBook "0" "Ulysses" "" "Joyce" (Some "cover.png") "c3" None 0
                None)
  /\ fst (findBook "0"
            (snd (createBook (new_book "c3" (Some "")) (Some cover)
                    shelf_with_drama)))
     = Resolved (mkBookPayload
                   (mkBook "0" "Ulysses" "" "Joyce" (Some "cover.png") "c3"
                           None 0 None)
                   (Included (Some drama)) (Included None))
  /\ fst (countBooks
            (snd (createBook (new_book "c3" (Some "")) (Some cover)
                    shelf_with_drama)))
     = Resolved 3.
Proof.
  destruct (createBook_inserts shelf_with_drama (new_book "c3" (Some ""))
              (Some cover) drama)
    as (Hr & _ & Hf & (n & Hn & Hn') & _).
  - unfold unique_ids; simpl. repeat constructor; simpl; intuition discriminate.
  - eexists. reflexivity.
  - now apply shelf_answers.
  - simpl. auto.
  - reflexivity.
  - intros sub [= <-] N. now destruct N.
  - reflexivity.
  - split; [exact Hr | split; [exact Hf|]].
    rewrite Hn'. injection Hn as <-. reflexivity.
Defined.

(** X10. An empty string as [subCategoryId] counts as no sub category:
    [createBook] then behaves, in every world and with or without image,
    exactly as for a DTO without [subCategoryId]: no second look-up, no
    NotFound for the sub category, no sub category on the row. *)
Theorem createBook_empty_subCategoryId (title author main : string)
    (bookImage : option MulterFile) (w : World) :
  createBook (mkCreateBookDto title author main (Some "")) bookImage w
  = createBook (mkCreateBookDto title author main None) bookImage w.
Proof.
  rewrite !createBook_blocks.
  destruct (save_image bookImage w) as [[imageUrl|e] w1]; reflexivity.
Qed.

(** ** createBook: the upload *)

Lemma verify_and_insert_files (bookData : CreateBookDto)
    (imageUrl : option string) (w : World) :
  same_categories_and_files w (snd (verify_and_insert bookData imageUrl w)).
Proof.
  apply (keeps_verify_and_insert same_categories_and_files).
  - intros w0. repeat split.
  - apply same_categories_and_files_trans.
  - intros w0. repeat split.
  - intros w0 c. repeat split.
  - apply prisma_book_create_frame.
Qed.

(** A guarded block that is not entered leaves the store and its script
    as they were. *)
Lemma createBook_not_entered (bookData : CreateBookDto)
    (bookImage : option MulterFile) (w : World) (e : Exception) :
  fst (save_image bookImage w) = Rejected e ->
  fst (createBook bookData bookImage w) = Rejected e
  /\ same_but_disk w (snd (createBook bookData bookImage w))
  /\ disk_files (snd (createBook bookData bookImage w)) = disk_files w.
Proof.
  intros H.
  destruct (createBook_image_refused bookData bookImage w e H) as [-> _].
  destruct (save_image_outcome bookImage w) as (S & Rj & _).
  cbn [fst snd]. split; [reflexivity | split; [exact S|]].
  apply (Rj e H).
Qed.

(** X11. The upload of [createBook] and its outcome.  When the upload
    block goes through, the file at
    [path.join(uploadPath, originalname)] holds the uploaded bytes
    afterwards, whatever was there before and whatever the category checks
    and the insert then do, and the files at every other place are as
    before.  When the upload block throws, [createBook] rejects with that
    error and the guarded block is not entered: tables, id generator, the
    script of the store and the files are as before (the upload directory
    may have been made).  Without an image the disk is as before. *)
Theorem createBook_upload (w : World) (bookData : CreateBookDto)
    (file : MulterFile) :
  (image_saved (Some file) w ->
   blob_read (originalname file)
     (blob_files (snd (createBook bookData (Some file) w)))
   = Some (buffer file)
   /\ forall l,
        l <> locate (path_join [uploadPath w; originalname file]) ->
        read_file l (disk_files (snd (createBook bookData (Some file) w)))
        = read_file l (disk_files w))
  /\ (forall e,
        fst (save_image (Some file) w) = Rejected e ->
        fst (createBook bookData (Some file) w) = Rejected e
        /\ book_table (snd (createBook bookData (Some file) w)) = book_table w
        /\ id_seed (snd (createBook bookData (Some file) w)) = id_seed w
        /\ db_faults (snd (createBook bookData (Some file) w)) = db_faults w
        /\ disk_files (snd (createBook bookData (Some file) w)) = disk_files w)
  /\ (disk_files (snd (createBook bookData None w)) = disk_files w
      /\ disk_dirs (snd (createBook bookData None w)) = disk_dirs w).
Proof.
  split; [|split].
  - intros Hs. rewrite (createBook_after_image _ _ _ Hs). cbn [option_map].
    destruct (verify_and_insert_files bookData (Some (originalname file))
                (snd (save_image (Some file) w))) as (_ & _ & B & _).
    rewrite B. split; [now apply uploaded_blob|].
    intros l N. apply (f_equal snd) in B. cbn [blob_files snd] in B.
    rewrite B.
    destruct (save_image_outcome (Some file) w) as (_ & _ & _ & W).
    destruct Hs as [u Hu]. now apply (W u Hu).
  - intros e H.
    destruct (createBook_not_entered bookData (Some file) w e H)
      as (R & (T & _ & G & Fa & _) & Fi).
    auto.
  - destruct (verify_and_insert_files bookData None w) as (_ & _ & B & D).
    rewrite (createBook_after_image bookData None w (ex_intro _ None eq_refl)).
    cbn [option_map save_image ret snd].
    apply (f_equal snd) in B. cbn [blob_files snd] in B. auto.
Qed.

Lemma createBook_upload_witness :
  blob_read "cover.png"
    (blob_files (snd (createBook (new_book "c1" None) (Some cover)
                        (shelf [true]))))
  = Some [x89; x50; x4e; x47]%byte
  /\ fst (createBook (new_book "c1" None) (Some nameless) shelf_with_drama)
     = Rejected (Error "EISDIR: illegal operation on a directory, open")
  /\ book_table (snd (createBook (new_book "c1" None) (Some nameless)
                        shelf_with_drama))
     = [dune; odes; emma]
  /\ disk_dirs (snd (createBook (new_book "c1" None) (Some nameless)
                       shelf_with_drama))
     = upload_dirs.
Proof.
  split; [|split; [|split]].
  - apply (proj1 (proj1 (createBook_upload (shelf [true]) (new_book "c1" None)
                           cover) (ex_intro _ _ eq_refl))).
  - apply (proj1 (proj2 (createBook_upload shelf_with_drama
                           (new_book "c1" None) nameless)) _ eq_refl).
  - apply (proj1 (proj2 (createBook_upload shelf_with_drama
                           (new_book "c1" None) nameless)) _ eq_refl).
  - reflexivity.
Defined.

(** ** findAllBooks: which pages there are *)

Lemma window_nil_iff {A} (n m : nat) (l : list A) :
  (1 <= n)%nat -> (firstn n (skipn m l) = [] <-> (length l <= m)%nat).
Proof.
  intros Hn. split; intros H.
  - apply (f_equal (@length A)) in H.
    rewrite length_firstn, length_skipn in H. simpl in H. lia.
  - now rewrite skipn_all2, firstn_nil.
Qed.

Lemma page_le_ceil (n page perPage : Z) :
  1 <= perPage ->
  (page <= Math_ceil_div n perPage <-> (page - 1) * perPage < n).
Proof.
  intros H. pose proof (Math_ceil_div_spec n perPage ltac:(lia)) as C.
  split; intros K; nia.
Qed.

(** X12. For [page >= 1] and [perPage >= 1] that the client takes
    ([perPage] and the offset fit 64 bits), a store that answers the
    listing and a sort the client accepts, [findAllBooks] resolves exactly
    when the page starts before the end of the matching rows, that is when
    [(page - 1) * perPage] is less than their number.  Without category
    filter these are exactly the pages from 1 to the [totalPages] the call
    reports, the ceiling of the active count over [perPage]. *)
Theorem findAllBooks_resolves_iff (w : World) (page perPage : Z)
    (filter sortOrder categoryId : string) :
  1 <= page -> 1 <= perPage ->
  perPage <= Int64_max -> (page - 1) * perPage <= Int64_max ->
  fault_at 0 w = false ->
  sort_accepted filter sortOrder ->
  ((exists r, fst (findAllBooks page perPage filter sortOrder categoryId w)
              = Resolved r)
   <-> (page - 1) * perPage
       < Z.of_nat (length (List.filter (matches (whereClause categoryId))
                                       (book_table w))))
  /\ (categoryId = "none" ->
      ((exists r, fst (findAllBooks page perPage filter sortOrder categoryId w)
                  = Resolved r)
       <-> page <= Math_ceil_div
                     (Z.of_nat (length (List.filter active (book_table w))))
                     perPage)).
Proof.
  intros Hp Hn Hb1 Hb2 F0 Hdir.
  assert (G : (exists r,
                  fst (findAllBooks page perPage filter sortOrder categoryId w)
                  = Resolved r)
              <-> (page - 1) * perPage
                  < Z.of_nat (length (List.filter
                                        (matches (whereClause categoryId))
                                        (book_table w)))).
  { destruct (listed_rows_accepted w page perPage filter sortOrder categoryId)
      as (ordered & _ & P & L);
      [now apply window_accepted_intro | assumption |].
    assert (Hoff : 0 <= (page - 1) * perPage) by nia.
    rewrite paginate_forward in L by lia.
    rewrite <- (Permutation_length P).
    pose proof (window_nil_iff (Z.to_nat perPage)
                  (Z.to_nat ((page - 1) * perPage)) ordered ltac:(lia)) as W.
    revert Hoff L W. generalize ((page - 1) * perPage). intros off Hoff L W.
    split.
    - intros [r H].
      destruct (findAllBooks_resolved _ _ _ _ _ _ _ H) as (rows & L' & N & _).
      rewrite L in L'. injection L' as <-.
      assert (~ (length ordered <= Z.to_nat off)%nat)
        by (intros K; apply N, W, K).
      lia.
    - intros K.
      apply (findAllBooks_counting_never_rejects _ _ _ _ _ _ _ F0 L).
      intros E. apply W in E. lia. }
  split; [exact G|].
  intros ->. rewrite G, page_le_ceil by assumption.
  assert (E : List.filter (matches (whereClause "none")) (book_table w)
              = List.filter active (book_table w))
    by (apply filter_ext; intros b; apply whereClause_none).
  now rewrite E.
Qed.

Lemma findAllBooks_resolves_iff_witness :
  (exists r, fst (findAllBooks 2 1 "name" "asc" "none" (shelf [])) = Resolved r)
  /\ ~ (exists r, fst (findAllBooks 3 1 "name" "asc" "none" (shelf []))
                  = Resolved r)
  /\ ~ (exists r, fst (findAllBooks 2 1 "name" "asc" "c1" (shelf []))
                  = Resolved r).
Proof.
  assert (B1 : 1 <= Int64_max) by (unfold Int64_max; lia).
  assert (B2 : (2 - 1) * 1 <= Int64_max) by (unfold Int64_max; lia).
  assert (B3 : (3 - 1) * 1 <= Int64_max) by (unfold Int64_max; lia).
  split; [|split].
  - apply (proj2 (findAllBooks_resolves_iff (shelf []) 2 1 "name" "asc" "none"
                    ltac:(lia) ltac:(lia) B1 B2 eq_refl
                    (or_intror (or_introl eq_refl))) eq_refl).
    vm_compute. discriminate.
  - intros H.
    apply (proj2 (findAllBooks_resolves_iff (shelf []) 3 1 "name" "asc" "none"
                    ltac:(lia) ltac:(lia) B1 B3 eq_refl
                    (or_intror (or_introl eq_refl))) eq_refl) in H.
    vm_compute in H. now apply H.
  - intros H.
    apply (proj1 (findAllBooks_resolves_iff (shelf []) 2 1 "name" "asc" "c1"
                    ltac:(lia) ltac:(lia) B1 B2 eq_refl
                    (or_intror (or_introl eq_refl)))) in H.
    vm_compute in H. discriminate H.
Defined.

(** ** findAllBooks: the pages together *)



(** *** A sort on a column without ties *)

Lemma string_compare_trans (a b c : string) :
  String.compare a b <> Gt -> String.compare b c <> Gt ->
  String.compare a c <> Gt.
Proof.
  revert b c.
  induction a as [|x a IH]; intros [|y b] [|z c]; simpl; try congruence.
  unfold Ascii.compare.
  destruct (N.compare_spec (N_of_ascii x) (N_of_ascii y)) as [E1|L1|G1];
    destruct (N.compare_spec (N_of_ascii y) (N_of_ascii z)) as [E2|L2|G2];
    try congruence.
  - rewrite E1, E2, N.compare_refl. apply IH.
  - rewrite E1. rewrite (proj2 (N.compare_lt_iff _ _) L2). congruence.
  - rewrite <- E2. rewrite (proj2 (N.compare_lt_iff _ _) L1). congruence.
  - rewrite (proj2 (N.compare_lt_iff _ _) (N.lt_trans _ _ _ L1 L2)).
    congruence.
Qed.

Lemma string_leb_trans (a b c : string) :
  String.leb a b = true -> String.leb b c = true -> String.leb a c = true.
Proof.
  pose proof (string_compare_trans a b c) as T. unfold String.leb in *.
  destruct (String.compare a b), (String.compare b c), (String.compare a c);
    try reflexivity; try discriminate; intros _ _; exfalso; apply T;
    congruence.
Qed.

Lemma column_leb_trans (c : Column) (x y z : Book) :
  column_leb c x y = true -> column_leb c y z = true ->
  column_leb c x z = true.
Proof.
  destruct c; simpl; try apply string_leb_trans.
  intros H1 H2. apply Z.leb_le in H1, H2. apply Z.leb_le. lia.
Qed.

Lemma sorted_perm_unique {A} (R : A -> A -> Prop) (l1 l2 : list A) :
  (forall a b c, R a b -> R b c -> R a c) ->
  (forall a b, In a l1 -> In b l1 -> R a b -> R b a -> a = b) ->
  Sorted R l1 -> Sorted R l2 -> Permutation l1 l2 -> l1 = l2.
Proof.
  intros Tr An S1 S2 P.
  apply Sorted_StronglySorted in S1; [|exact Tr].
  apply Sorted_StronglySorted in S2; [|exact Tr].
  revert l2 S2 P An.
  induction S1 as [|a l1 S1 IH H1]; intros l2 S2 P An.
  - apply Permutation_nil in P. now subst.
  - destruct S2 as [|b l2 S2 H2].
    { apply Permutation_sym, Permutation_nil in P. discriminate. }
    assert (E : a = b).
    { assert (Ha : In a (b :: l2))
        by (apply (Permutation_in _ P); now left).
      assert (Hb : In b (a :: l1))
        by (apply (Permutation_in _ (Permutation_sym P)); now left).
      destruct Ha as [->|Ha]; [reflexivity|].
      destruct Hb as [->|Hb]; [reflexivity|].
      apply An; [now left | now right | |].
      - rewrite Forall_forall in H1. now apply H1.
      - rewrite Forall_forall in H2. now apply H2. }
    subst b. f_equal. apply IH; [assumption | |].
    + now apply Permutation_cons_inv in P.
    + intros x y Hx Hy. apply An; now right.
Qed.

(** With a sort on a column without ties, the listing does not depend on
    the order in which the store delivers the rows. *)
Lemma listing_determined (w1 w2 : World) (filter sortOrder categoryId : string)
    (c : Column) (ord1 ord2 : list Book) :
  book_table w2 = book_table w1 ->
  sort_specification filter = Some c ->
  column_distinct c w1 ->
  listing w1 filter sortOrder categoryId = Some ord1 ->
  listing w2 filter sortOrder categoryId = Some ord2 ->
  ord1 = ord2.
Proof.
  intros T Sc Dc O1 O2.
  pose proof (listing_perm _ _ _ _ _ O1) as P1.
  pose proof (listing_perm _ _ _ _ _ O2) as P2.
  apply listing_cases in O1, O2. rewrite Sc in O1, O2.
  destruct O1 as (le & D & E1). destruct O2 as (le' & D' & E2).
  rewrite D in D'. injection D' as <-.
  rewrite T in P2.
  assert (Tr : forall x y z, le x y = true -> le y z = true -> le x z = true).
  { unfold direction_leb in D.
    destruct (String.eqb sortOrder "asc");
      [|destruct (String.eqb sortOrder "desc"); [|discriminate]];
      injection D as <-; intros x y z H1 H2.
    - exact (column_leb_trans c _ _ _ H1 H2).
    - exact (column_leb_trans c _ _ _ H2 H1). }
  assert (An : forall x y, In x ord1 -> In y ord1 ->
                           le x y = true -> le y x = true -> x = y).
  { intros x y Hx Hy.
    apply (Permutation_in _ P1), filter_In in Hx.
    apply (Permutation_in _ P1), filter_In in Hy.
    unfold direction_leb in D.
    destruct (String.eqb sortOrder "asc");
      [|destruct (String.eqb sortOrder "desc"); [|discriminate]];
      injection D as <-; intros H1 H2.
    - now apply (Dc x y).
    - now apply (Dc x y). }
  apply (sorted_perm_unique (fun x y => le x y = true)).
  - exact Tr.
  - exact An.
  - rewrite E1. apply sort_rows_sorted.
    now apply (direction_leb_total c sortOrder).
  - rewrite E2. apply sort_rows_sorted.
    now apply (direction_leb_total c sortOrder).
  - exact (Permutation_trans P1 (Permutation_sym P2)).
Qed.

Lemma NoDup_map_filter {A B} (f : A -> B) (p : A -> bool) (l : list A) :
  NoDup (map f l) -> NoDup (map f (List.filter p l)).
Proof.
  induction l as [|x l IH]; simpl; intros ND; [constructor|].
  apply NoDup_cons_iff in ND. destruct ND as [Hx ND].
  destruct (p x); simpl; [|now apply IH].
  constructor; [|now apply IH].
  intros Hin. apply Hx. apply in_map_iff in Hin.
  destruct Hin as (y & <- & Hy). apply in_map. now apply filter_In in Hy.
Qed.

(** X14. No row is on two pages of a listing without ties.  With a unique
    key and a sort on a column on which no two rows of the table agree,
    take two calls of [findAllBooks] on the same table, with the same
    filter, sort, category and [perPage >= 1] and two different page
    numbers [>= 1]: whatever the order in which the store delivers the rows
    to the one call and to the other, the pages they resolve to have no id
    in common. *)
Theorem findAllBooks_pages_disjoint (w1 w2 : World) (page1 page2 perPage : Z)
    (filter sortOrder categoryId : string) (c : Column) (r1 r2 : BookPage)
    (p1 p2 : BookPayload) :
  unique_ids w1 ->
  book_table w2 = book_table w1 ->
  sort_specification filter = Some c ->
  column_distinct c w1 ->
  1 <= perPage -> 1 <= page1 -> page1 < page2 ->
  fst (findAllBooks page1 perPage filter sortOrder categoryId w1) = Resolved r1 ->
  fst (findAllBooks page2 perPage filter sortOrder categoryId w2) = Resolved r2 ->
  In p1 (books r1) -> In p2 (books r2) ->
  id (row p1) <> id (row p2).
Proof.
  intros U T Sc Dc Hn Hp Hlt H1 H2 Hp1 Hp2 E.
  destruct (findAllBooks_resolved _ _ _ _ _ _ _ H1) as (rows1 & L1 & _ & B1 & _).
  destruct (findAllBooks_resolved _ _ _ _ _ _ _ H2) as (rows2 & L2 & _ & B2 & _).
  destruct (listed_rows_cases _ _ _ _ _ _ _ L1) as (O1 & ord1 & C1 & ->).
  destruct (listed_rows_cases _ _ _ _ _ _ _ L2) as (O2 & ord2 & C2 & ->).
  pose proof (listing_determined _ _ _ _ _ _ _ _ T Sc Dc C1 C2) as <-.
  pose proof (listing_perm _ _ _ _ _ C1) as P.
  assert (ND : NoDup (map id ord1)).
  { apply (Permutation_NoDup (Permutation_map id (Permutation_sym P))).
    now apply NoDup_map_filter. }
  rewrite B1 in Hp1. rewrite B2 in Hp2.
  apply (in_map row) in Hp1. apply (in_map row) in Hp2.
  rewrite map_row_with_relations in Hp1, Hp2.
  rewrite paginate_forward in Hp1, Hp2 by lia.
  apply In_nth_error in Hp1. destruct Hp1 as [i Hi].
  apply In_nth_error in Hp2. destruct Hp2 as [j Hj].
  rewrite nth_error_firstn, nth_error_skipn in Hi, Hj.
  destruct (Nat.ltb_spec i (Z.to_nat perPage)) as [Hi'|]; [|discriminate].
  destruct (Nat.ltb_spec j (Z.to_nat perPage)) as [Hj'|]; [|discriminate].
  assert (Hidx : (Z.to_nat ((page1 - 1) * perPage) + i
                  < Z.to_nat ((page2 - 1) * perPage) + j)%nat) by nia.
  pose proof (proj1 (NoDup_nth_error (map id ord1)) ND
                (Z.to_nat ((page1 - 1) * perPage) + i)%nat
                (Z.to_nat ((page2 - 1) * perPage) + j)%nat) as K.
  rewrite !nth_error_map, Hi, Hj in K. simpl in K.
  assert (Hlen : (Z.to_nat ((page1 - 1) * perPage) + i
                  < length (map id ord1))%nat).
  { rewrite length_map. apply nth_error_Some. congruence. }
  specialize (K Hlen (f_equal Some E)). lia.
Qed.

Lemma findAllBooks_pages_disjoint_witness :
  exists r1 r2,
    fst (findAllBooks 1 1 "price" "asc" "none" (shelf [])) = Resolved r1
    /\ fst (findAllBooks 2 1 "price" "asc" "none" reshuffled_shelf)
       = Resolved r2
    /\ map (fun p => id (row p)) (books r1) = ["b2"]
    /\ map (fun p => id (row p)) (books r2) = ["b1"]
    /\ forall p1 p2, In p1 (books r1) -> In p2 (books r2) ->
                     id (row p1) <> id (row p2).
Proof.
  do 2 eexists. repeat (split; [reflexivity|]).
  intros p1 p2.
  apply (findAllBooks_pages_disjoint (shelf []) reshuffled_shelf 1 2 1
           "price" "asc" "none" ColFinalPrice);
    [apply shelf_unique_ids | reflexivity | reflexivity | | lia | lia | lia
    | reflexivity | reflexivity].
  intros a b Ha Hb. simpl in Ha, Hb.
  destruct Ha as [<-|[<-|[<-|[]]]]; destruct Hb as [<-|[<-|[<-|[]]]];
    try reflexivity; intros K1 K2; vm_compute in K1, K2; discriminate.
Defined.

(** ** findAllBooks: the totals and the degenerate calls *)

Lemma filter_length_mono {A} (p q : A -> bool) (l : list A) :
  (forall x, p x = true -> q x = true) ->
  (length (List.filter p l) <= length (List.filter q l))%nat.
Proof.
  intros H. induction l as [|x l IH]; simpl; [lia|].
  destruct (p x) eqn:P.
  - rewrite (H x P). simpl. lia.
  - destruct (q x); simpl; lia.
Qed.

Lemma filter_length_strict {A} (p q : A -> bool) (l : list A) (x : A) :
  (forall y, p y = true -> q y = true) ->
  In x l -> q x = true -> p x = false ->
  (length (List.filter p l) < length (List.filter q l))%nat.
Proof.
  intros H Hin Q P. induction l as [|y l IH]; simpl in *; [contradiction|].
  pose proof (filter_length_mono p q l H) as Hm.
  destruct Hin as [->|Hin].
  - rewrite P, Q. simpl. lia.
  - specialize (IH Hin). destruct (p y) eqn:Py.
    + rewrite (H y Py). simpl. lia.
    + destruct (q y); simpl; lia.
Qed.

(** X15. The totals of a page do not depend on the query: two calls of
    [findAllBooks] in the same world with the same [perPage] that resolve
    report the same [totalBooks] and [totalPages], whatever their page,
    filter key, sort order and category.  When the counting step
    succeeded, [totalBooks] is at least the number of rows matching the
    category filter, and more than that as soon as an active row has
    another main category. *)
Theorem findAllBooks_totals_ignore_query (w : World) (perPage : Z)
    (page1 page2 : Z) (filter1 filter2 sortOrder1 sortOrder2 : string)
    (categoryId1 categoryId2 : string) (r1 r2 : BookPage) :
  fst (findAllBooks page1 perPage filter1 sortOrder1 categoryId1 w)
  = Resolved r1 ->
  fst (findAllBooks page2 perPage filter2 sortOrder2 categoryId2 w)
  = Resolved r2 ->
  totalBooks r1 = totalBooks r2
  /\ totalPages r1 = totalPages r2
  /\ (fault_at 1 w = false ->
      exists n,
        totalBooks r1 = Some n
        /\ Z.of_nat (length (List.filter (matches (whereClause categoryId1))
                                         (book_table w))) <= n
        /\ (forall b, In b (book_table w) -> deleted_at b = None ->
                      categoryId1 <> "none" -> id_category b <> categoryId1 ->
                      Z.of_nat (length (List.filter
                                          (matches (whereClause categoryId1))
                                          (book_table w))) < n)).
Proof.
  intros H1 H2.
  destruct (findAllBooks_resolved _ _ _ _ _ _ _ H1) as (_ & _ & _ & _ & A1 & B1).
  destruct (findAllBooks_resolved _ _ _ _ _ _ _ H2) as (_ & _ & _ & _ & A2 & B2).
  assert (Hsub : forall y, matches (whereClause categoryId1) y = true ->
                           active y = true).
  { intros y M. unfold active. now rewrite (whereClause_active _ _ M). }
  destruct (fault_at 1 w).
  - destruct (A1 eq_refl) as [-> ->]. destruct (A2 eq_refl) as [-> ->].
    repeat split. discriminate.
  - destruct (B1 eq_refl) as [T1 P1]. destruct (B2 eq_refl) as [T2 P2].
    rewrite T1, T2, P1, P2. repeat split.
    intros _. eexists. split; [reflexivity|]. split.
    + apply Nat2Z.inj_le. now apply filter_length_mono.
    + intros b Hin Hact N Hcat. apply Nat2Z.inj_lt.
      apply (filter_length_strict _ _ _ b Hsub Hin).
      * unfold active. now rewrite Hact.
      * destruct (matches (whereClause categoryId1) b) eqn:M; [|reflexivity].
        now destruct (Hcat (whereClause_category _ _ N M)).
Qed.

Lemma findAllBooks_totals_ignore_query_witness :
  exists r1 r2,
    fst (findAllBooks 1 1 "name" "asc" "c2" (shelf [])) = Resolved r1
    /\ fst (findAllBooks 2 1 "none" "" "none" (shelf [])) = Resolved r2
    /\ map (fun p => id (row p)) (books r1) = ["b2"]
    /\ totalBooks r1 = Some 2 /\ totalPages r1 = Some 2
    /\ totalPages r1 = totalPages r2.
Proof.
  do 2 eexists. repeat (split; [reflexivity|]).
  apply (findAllBooks_totals_ignore_query (shelf []) 1 1 2 "name" "none"
           "asc" "" "c2" "none" _ _ eq_refl eq_refl).
Defined.

(** X16. The degenerate calls never resolve.  With [perPage = 0] no call
    of [findAllBooks] resolves, whatever the page and the store; a page
    number and a [perPage] whose offset [(page - 1) * perPage] is negative
    make the call fail with the Internal error of the listing step. *)
Theorem findAllBooks_degenerate (w : World) (page : Z)
    (filter sortOrder categoryId : string) :
  (forall r, fst (findAllBooks page 0 filter sortOrder categoryId w)
             <> Resolved r)
  /\ (forall perPage,
        (page - 1) * perPage < 0 ->
        fst (findAllBooks page perPage filter sortOrder categoryId w)
        = Rejected (InternalServerErrorException
                      "An error occurred while fetching books.")).
Proof.
  split.
  - intros r H.
    destruct (findAllBooks_resolved _ _ _ _ _ _ _ H) as (rows & L & N & _).
    now apply (listed_rows_perPage _ _ _ _ _ _ _ L N).
  - intros perPage Hneg. rewrite findAllBooks_eq.
    destruct (fault_at 0 w); [reflexivity|].
    destruct (listed_rows w page perPage filter sortOrder categoryId)
      as [rows|] eqn:L; [|reflexivity].
    apply listed_rows_cases in L. lia.
Qed.

Lemma findAllBooks_degenerate_witness :
  fst (findAllBooks 1 0 "none" "asc" "none" (shelf []))
  = Rejected (NotFoundException "No product was found!")
  /\ fst (findAllBooks 0 10 "none" "asc" "none" (shelf []))
     = Rejected (InternalServerErrorException
                   "An error occurred while fetching books.").
Proof.
  split; [reflexivity|].
  apply (proj2 (findAllBooks_degenerate (shelf []) 0 "none" "asc" "none") 10).
  lia.
Defined.
